(** * pytest-salt daemon fixtures: a shallow embedding of
    [pytestsalt/fixtures/daemons.py] and the properties of its supervisor.

  The definitions come first, one module per part of the source:
  - [Py]          the Python values the code compares and tests for truth;
  - [Shell]       [ShellResult] and its overridden [__eq__];
  - [Eff]         exceptions, traces and the state and error monad of the
                  effects;
  - [Scripts]     the class hierarchy of CLI scripts and their argument
                  vectors;
  - [TerminalM]   [close_terminal];
  - [Reaper]      [terminate_child_processes];
  - [Daemon]      [SaltDaemonScriptBase]: start, terminate, the readiness
                  prober;
  - [Fixture]     the retry loop shared by the daemon fixtures;
  - [Samples]     concrete objects and worlds to run the model on.

  What lies outside the module (the operating system, psutil, the clock of
  the IOLoop, the JSON decoder) enters the functions as a record of
  answers, over which the properties quantify.  The properties follow, in
  the order of the modules. *)

From Stdlib Require Import ZArith Ascii String List Bool Lia.
Import ListNotations.

Set Warnings "-register-all".

Local Open Scope string_scope.
Local Open Scope list_scope.
Local Open Scope Z_scope.

(* ===================================================================== *)
(** ** Python values *)
(* ===================================================================== *)

Module Py.

(** The values [json.loads] produces (floats left out), which are also the
    values a test compares a result with. *)
Inductive value : Type :=
| VNone
| VBool (b : bool)
| VInt (n : Z)
| VStr (s : string)
| VList (l : list value)
| VDict (d : list (string * value)).

(** [bool(v)]: the test performed by [if v:]. *)
Definition truthy (v : value) : bool :=
  match v with
  | VNone => false
  | VBool b => b
  | VInt n => negb (n =? 0)
  | VStr s => negb (s =? "")%string
  | VList l => match l with [] => false | _ => true end
  | VDict d => match d with [] => false | _ => true end
  end.

Fixpoint lookup (k : string) (d : list (string * value)) : option value :=
  match d with
  | [] => None
  | (k', v) :: r => if (k =? k')%string then Some v else lookup k r
  end.

(** [a == b].  [bool] is a subclass of [int], so [True == 1]; sequences
    compare element by element; dictionaries compare by key. *)
Fixpoint eqb (a b : value) {struct a} : bool :=
  match a, b with
  | VNone, VNone => true
  | VBool x, VBool y => Bool.eqb x y
  | VBool x, VInt n => Z.b2z x =? n
  | VInt n, VBool x => n =? Z.b2z x
  | VInt m, VInt n => m =? n
  | VStr s, VStr t => (s =? t)%string
  | VList l, VList l' =>
      (fix all2 (l l' : list value) {struct l} : bool :=
         match l, l' with
         | [], [] => true
         | x :: xs, y :: ys => eqb x y && all2 xs ys
         | _, _ => false
         end) l l'
  | VDict d, VDict d' =>
      (length d =? length d')%nat &&
      (fix every (d : list (string * value)) {struct d} : bool :=
         match d with
         | [] => true
         | (k, v) :: r =>
             match lookup k d' with
             | Some v' => eqb v v'
             | None => false
             end && every r
         end) d
  | _, _ => false
  end.

(** [x in v] for a string [x]: a key of a dictionary, an element of a list,
    a substring of a string; [None] is the [TypeError] of a value that is
    not iterable. *)
Definition contains (v : value) (x : string) : option bool :=
  match v with
  | VDict d => Some (match lookup x d with Some _ => true | None => false end)
  | VList l => Some (existsb (fun e => eqb e (VStr x)) l)
  | VStr s => Some (match String.index 0 x s with Some _ => true | None => false end)
  | _ => None
  end.

End Py.

(* ===================================================================== *)
(** ** ShellResult *)
(* ===================================================================== *)

Module Shell.
Import Py.

(** [class ShellResult(namedtuple('Result', ('exitcode', 'stdout', 'stderr', 'json')))];
    [json] is [None] when nothing was parsed. *)
Record ShellResult : Type := mkShellResult {
  exitcode : Z;
  stdout : string;
  stderr : string;
  json : value
}.

(** [ShellResult.__eq__]:
    [if self.json: return self.json == other] / [return self.stdout == other]. *)
Definition __eq__ (self : ShellResult) (other : value) : bool :=
  if truthy (json self) then eqb (json self) other
  else eqb (VStr (stdout self)) other.

(** The comparison as the specification words it: the parsed payload when
    one is present (not the absent marker), the raw stdout otherwise. *)
Definition spec_eq (self : ShellResult) (other : value) : bool :=
  match json self with
  | VNone => eqb (VStr (stdout self)) other
  | j => eqb j other
  end.

End Shell.

(* ===================================================================== *)
(** ** Effects: exceptions, observable events, a state and error monad *)
(* ===================================================================== *)

Module Eff.

(** The exceptions the module raises or lets through. *)
Inductive exn : Type :=
| OSError (errno : Z)      (* from the subprocess handle *)
| NoSuchProcess            (* psutil *)
| AccessDenied             (* psutil *)
| TimeoutExpired           (* psutil *)
| RuntimeError
| TypeError
| AttributeError
| TimeoutError             (* tornado *)
| XFailed                  (* pytest.xfail *)
| Skipped.                 (* pytest.skip *)

(** [errno] and [signal] constants (Linux). *)
Definition ESRCH : Z := 3.
Definition EACCES : Z := 13.
Definition EPERM : Z := 1.
Definition SIGKILL : Z := 9.

(** Whom a signal or a wait is addressed to. *)
Inductive target : Type :=
| ToTerminal               (* the NonBlockingPopen of the script *)
| ToChild (pid : Z)        (* a psutil descendant *)
| ToDaemonProcess.         (* the multiprocessing process of a daemon *)

Inductive logmsg : Type :=
| LeftBehindChild (pid : Z)
| ProcessTerminated (pid : Z)
| CheckingPorts
| CheckingPort (port : Z)
| PortConnectable (port : Z)
| NoValidJSON
| AllPortsChecked
| RunningScript
| FailedToLoadJSON
| StartingDaemon
| StartingFixture
| RunningAfter (attempts : Z)
| ExceptionLogged
| StoppingFixture
| StoppedFixture.

(** What the code does to the outside world, in order.  Sleeps are in
    microseconds. *)
Inductive event : Type :=
| Spawn                            (* self._process.start() *)
| AtExit                           (* atexit.register(...) *)
| Poll                             (* terminal.poll() *)
| Signal (t : target) (sig : Z)    (* send_signal *)
| Kill (t : target)
| Terminate (t : target)
| Wait (t : target)
| WaitProcs (pids : list Z)
| Communicate
| Enumerate (pid : Z)              (* psutil.Process(pid).children(recursive=True) *)
| Cmdline (pid : Z)
| Moment                           (* yield gen.moment *)
| Sleep (us : Z)
| Connect (port : Z)               (* sock.connect_ex(('localhost', port)) *)
| PeerQuery                        (* salt_run.run('manage.joined') *)
| Log (m : logmsg).

Inductive result (A : Type) : Type :=
| Ok (a : A)
| Raise (e : exn).
Arguments Ok {A} a.
Arguments Raise {A} e.

(** A computation over a mutable state [S]: the events it emits, the state
    it leaves and the value it returns or the exception it raises. *)
Definition M (S A : Type) : Type := S -> list event * S * result A.

Definition ret {S A} (a : A) : M S A := fun s => ([], s, Ok a).

Definition bind {S A B} (m : M S A) (k : A -> M S B) : M S B :=
  fun s =>
    match m s with
    | (t, s', Ok a) => let '(t', s'', r) := k a s' in (t ++ t', s'', r)
    | (t, s', Raise e) => (t, s', Raise e)
    end.

Definition emit {S} (e : event) : M S unit := fun s => ([e], s, Ok tt).
Definition raise {S A} (e : exn) : M S A := fun s => ([], s, Raise e).
Definition get {S} : M S S := fun s => ([], s, Ok s).
Definition put {S} (s : S) : M S unit := fun _ => ([], s, Ok tt).
Definition modify {S} (f : S -> S) : M S unit := fun s => ([], f s, Ok tt).

(** [try: m  except <handles> as e: h e]; an exception the clause does not
    name goes through. *)
Definition try_except {S A} (m : M S A) (handles : exn -> bool) (h : exn -> M S A) : M S A :=
  fun s =>
    match m s with
    | (t, s', Raise e) =>
        if handles e then let '(t', s'', r) := h e s' in (t ++ t', s'', r)
        else (t, s', Raise e)
    | r => r
    end.

(** Run a computation on a local variable of its own. *)
Definition with_local {S L A} (init : L) (m : M L A) : M S (L * A) :=
  fun s =>
    match m init with
    | (t, l, Ok a) => (t, s, Ok (l, a))
    | (t, _, Raise e) => (t, s, Raise e)
    end.

(** The outcome of one call into the operating system or a library:
    success with a value, or the exception raised. *)
Definition perform {S A} (ev : event) (outcome : result A) : M S A :=
  fun s => ([ev], s, outcome).

(** [for x in l: body x]. *)
Fixpoint for_each {S A} (l : list A) (body : A -> M S unit) : M S unit :=
  match l with
  | [] => ret tt
  | x :: r => bind (body x) (fun _ => for_each r body)
  end.

(** Run a computation on the second component of a pair state. *)
Definition on_snd {S1 S2 A} (m : M S2 A) : M (S1 * S2) A :=
  fun s =>
    let '(t, s2, r) := m (snd s) in (t, (fst s, s2), r).

Definition trace_of {S A} (r : list event * S * result A) : list event := fst (fst r).
Definition state_of {S A} (r : list event * S * result A) : S := snd (fst r).
Definition value_of {S A} (r : list event * S * result A) : result A := snd r.

End Eff.

Declare Scope eff_scope.
Delimit Scope eff_scope with eff.
Notation "x <- c ;; k" := (Eff.bind c (fun x => k))
  (at level 61, c at next level, right associativity) : eff_scope.
Notation "c ;;; k" := (Eff.bind c (fun _ => k))
  (at level 61, right associativity) : eff_scope.
Local Open Scope eff_scope.

(* ===================================================================== *)
(** ** The script classes and their argument vectors *)
(* ===================================================================== *)

Module Scripts.
Import Eff.

(** The classes of the module that run a script. *)
Inductive script_class : Type :=
| SaltDaemonScriptBase
| SaltCliScriptBase
| Salt
| SaltCall
| SaltKey
| SaltRun
| SaltSSH
| SaltMinion
| SaltMaster
| SSHD.

Definition is_cli (c : script_class) : bool :=
  match c with
  | SaltCliScriptBase | Salt | SaltCall | SaltKey | SaltRun | SaltSSH => true
  | _ => false
  end.

Definition is_daemon (c : script_class) : bool := negb (is_cli c).

(** The entries of [self.config] the module reads. *)
Record Config : Type := mkConfig {
  conf_id : string;            (* config['id'] *)
  conf_pytest_port : Z;        (* config['pytest_port'] *)
  conf_ret_port : Z;           (* config['ret_port'] *)
  conf_publish_port : Z;       (* config['publish_port'] *)
  conf_port : Z                (* config['port'] *)
}.

(** The attributes [SaltScriptBase.__init__] stores. *)
Record Script : Type := mkScript {
  cls : script_class;
  config : Config;
  config_dir : string;
  bin_dir_path : string;
  log_prefix : string;
  cli_script_name : string
}.

Fixpoint ends_with_slash (s : string) : bool :=
  match s with
  | EmptyString => false
  | String c EmptyString => Ascii.eqb c "/"%char
  | String _ r => ends_with_slash r
  end.

(** [os.path.join(a, b)] on POSIX. *)
Definition path_join (a b : string) : string :=
  if String.prefix "/" b then b
  else if (a =? "")%string || ends_with_slash a then (a ++ b)%string
  else (a ++ "/" ++ b)%string.

(** [get_script_path]; [SSHD] looks the binary up with [salt_utils.which]
    and skips the test when there is none. *)
Definition get_script_path (which : string -> option string)
    (self : Script) (script_name : string) : result string :=
  match cls self with
  | SSHD =>
      match which (cli_script_name self) with
      | Some sshd => if (sshd =? "")%string then Raise Skipped else Ok sshd
      | None => Raise Skipped
      end
  | _ => Ok (path_join (bin_dir_path self) script_name)
  end.

(** [SaltScriptBase.get_base_script_args]. *)
Definition base_get_base_script_args (self : Script) : list string :=
  ["-c"; config_dir self].

(** [get_base_script_args] as each class defines or inherits it. *)
Definition get_base_script_args (self : Script) : list string :=
  match cls self with
  | SSHD => ["-D"; "-f"; path_join (config_dir self) "sshd_config"]
  | SaltCliScriptBase | Salt | SaltCall | SaltKey | SaltRun | SaltSSH =>
      base_get_base_script_args self ++ ["--out=json"]
  | SaltDaemonScriptBase | SaltMinion | SaltMaster =>
      base_get_base_script_args self
  end.

(** [get_script_args] as each class defines or inherits it. *)
Definition get_script_args (self : Script) : list string :=
  match cls self with
  | SaltCall => ["--retcode-passthrough"]
  | SaltSSH =>
      ["-l"; "trace"; "-w"; "--rand-thin-dir";
       ("--roster-file=" ++ path_join (config_dir self) "roster")%string;
       "--ignore-host-keys"; "localhost"]
  | SaltMinion => ["--disable-keepalive"; "-l"; "quiet"]
  | SaltMaster => ["-l"; "quiet"]
  | _ => []
  end.

(** [proc_args] of [SaltDaemonScriptBase._start]. *)
Definition daemon_proc_args (which : string -> option string) (self : Script)
    : result (list string) :=
  match get_script_path which self (cli_script_name self) with
  | Ok path => Ok ([path] ++ get_base_script_args self ++ get_script_args self)
  | Raise e => Raise e
  end.

(** [proc_args] of [SaltCliScriptBase._run_script] called with [args]. *)
Definition cli_proc_args (which : string -> option string) (self : Script)
    (args : list string) : result (list string) :=
  match get_script_path which self (cli_script_name self) with
  | Ok path =>
      Ok ([path] ++ get_base_script_args self ++ get_script_args self ++ args)
  | Raise e => Raise e
  end.

(** [x] occurs in [l] immediately followed by [y]. *)
Definition adjacent (x y : string) (l : list string) : Prop :=
  exists l1 l2, l = l1 ++ x :: y :: l2.

Fixpoint adjacentb (x y : string) (l : list string) : bool :=
  match l with
  | a :: ((b :: _) as r) => ((a =? x)%string && (b =? y)%string) || adjacentb x y r
  | _ => false
  end.

End Scripts.

(* ===================================================================== *)
(** ** close_terminal *)
(* ===================================================================== *)

Module TerminalM.
Import Eff.

(** The subprocess handle as the code sees it: what each of its methods
    answers.  [poll_result n] is the answer of the [n]-th call of [poll()]
    ([None] while the process runs); the other fields give the [errno] of
    the [OSError] the call raises, if it raises one. *)
Record Terminal : Type := mkTerminal {
  poll_result : nat -> option Z;
  send_signal_error : Z -> option Z;
  kill_error : option Z;
  terminate_error : option Z;
  communicate_error : option Z
}.

Definition os_outcome (err : option Z) : result unit :=
  match err with
  | None => Ok tt
  | Some e => Raise (OSError e)
  end.

(** The state of [close_terminal] is the number of [poll()] calls made. *)
Definition poll (t : Terminal) : M nat (option Z) :=
  fun n => ([Poll], S n, Ok (poll_result t n)).

Definition is_OSError (e : exn) : bool :=
  match e with OSError _ => true | _ => false end.

(** [exc.errno not in (errno.ESRCH, errno.EACCES)]. *)
Definition errno_not_absorbed (errno : Z) : bool :=
  negb ((errno =? ESRCH) || (errno =? EACCES)).

(** [try: m except OSError as exc: if exc.errno not in (ESRCH, EACCES): raise]. *)
Definition absorbing {S} (m : M S unit) : M S unit :=
  try_except m is_OSError
    (fun exc =>
       match exc with
       | OSError errno => if errno_not_absorbed errno then raise exc else ret tt
       | _ => raise exc
       end).

(** [timeout = 5; while timeout > 0: ...; timeout -= 0.0125; time.sleep(0.0125)]:
    the body runs 400 times unless it breaks. *)
Definition poll_ticks : nat := 400.

Fixpoint poll_loop (t : Terminal) (ticks : nat) : M nat unit :=
  match ticks with
  | O => ret tt
  | S n =>
      r <- poll t ;;
      match r with
      | Some _ => ret tt
      | None => emit (Sleep 12500) ;;; poll_loop t n
      end
  end.

Definition close_terminal (t : Terminal) : M nat unit :=
  r <- poll t ;;
  match r with
  | None =>
      absorbing (perform (Signal ToTerminal SIGKILL) (os_outcome (send_signal_error t SIGKILL))) ;;;
      poll_loop t poll_ticks
  | Some _ => ret tt
  end ;;;
  r' <- poll t ;;
  match r' with
  | None => absorbing (perform (Kill ToTerminal) (os_outcome (kill_error t)))
  | Some _ => ret tt
  end ;;;
  absorbing (perform (Terminate ToTerminal) (os_outcome (terminate_error t))) ;;;
  perform Communicate (os_outcome (communicate_error t)).

(** The three signalling steps of the shutdown sequence. *)
Inductive step : Type := KillSignal | ForceKill | TerminateSignal.

(** The [errno] the handle raises at a step. *)
Definition step_error (t : Terminal) (s : step) : option Z :=
  match s with
  | KillSignal => send_signal_error t SIGKILL
  | ForceKill => kill_error t
  | TerminateSignal => terminate_error t
  end.

(** The same handle, except that the call of step [s] raises [err]. *)
Definition with_step_error (t : Terminal) (s : step) (err : option Z) : Terminal :=
  match s with
  | KillSignal =>
      mkTerminal (poll_result t)
        (fun sig => if sig =? SIGKILL then err else send_signal_error t sig)
        (kill_error t) (terminate_error t) (communicate_error t)
  | ForceKill =>
      mkTerminal (poll_result t) (send_signal_error t) err
        (terminate_error t) (communicate_error t)
  | TerminateSignal =>
      mkTerminal (poll_result t) (send_signal_error t) (kill_error t)
        err (communicate_error t)
  end.

(** The event of a step, to tell from a trace whether the step was taken. *)
Definition step_event (s : step) : event :=
  match s with
  | KillSignal => Signal ToTerminal SIGKILL
  | ForceKill => Kill ToTerminal
  | TerminateSignal => Terminate ToTerminal
  end.

(** What is left of the error of a call once the [except] clause has
    filtered it. *)
Definition absorbed (err : option Z) : option Z :=
  match err with
  | Some e => if errno_not_absorbed e then Some e else None
  | None => None
  end.

(** The events of the polling loop. *)
Definition quiet (e : event) : Prop :=
  e = Poll \/ exists us, e = Sleep us.

End TerminalM.

(* ===================================================================== *)
(** ** terminate_child_processes *)
(* ===================================================================== *)

Module Reaper.
Import Eff.

(** What psutil answers for each process id. *)
Record PsEnv : Type := mkPsEnv {
  children_of : Z -> result (list Z);      (* Process(pid).children(recursive=True) *)
  cmdline_of : Z -> result (list string);  (* child.cmdline() *)
  send_signal_to : Z -> result unit;       (* child.send_signal(SIGKILL) *)
  wait_for : Z -> result unit;             (* child.wait(timeout=5) *)
  kill_of : Z -> result unit               (* child.kill() *)
}.

Definition is_NoSuchProcess (e : exn) : bool :=
  match e with NoSuchProcess => true | _ => false end.

Definition is_TimeoutExpired (e : exn) : bool :=
  match e with TimeoutExpired => true | _ => false end.

(** [list.remove(x)]: the first occurrence goes. *)
Fixpoint remove_first (x : Z) (l : list Z) : list Z :=
  match l with
  | [] => []
  | y :: r => if x =? y then r else y :: remove_first x r
  end.

(** The body of [for child in children[:]]; the state is [children]. *)
Definition handle_child (env : PsEnv) (child : Z) : M (list Z) unit :=
  try_except
    (_cmdline <- perform (Cmdline child) (cmdline_of env child) ;;
     emit (Log (LeftBehindChild child)) ;;;
     perform (Signal (ToChild child) SIGKILL) (send_signal_to env child) ;;;
     try_except (perform (Wait (ToChild child)) (wait_for env child))
       is_TimeoutExpired
       (fun _ => perform (Kill (ToChild child)) (kill_of env child)) ;;;
     emit (Log (ProcessTerminated child)))
    is_NoSuchProcess
    (fun _ => modify (remove_first child)).

(** The loop over a copy of [children] and the bulk wait that follows. *)
Definition reap (env : PsEnv) : M (list Z) unit :=
  snapshot <- get ;;
  for_each snapshot (handle_child env) ;;;
  children <- get ;;
  match children with
  | [] => ret tt
  | _ => emit (WaitProcs children)
  end.

(** [parent = psutil.Process(pid); children = parent.children(recursive=True)]
    under [except psutil.NoSuchProcess: children = []]. *)
Definition enumerate {S} (env : PsEnv) (pid : Z) : M S (list Z) :=
  try_except (perform (Enumerate pid) (children_of env pid))
    is_NoSuchProcess (fun _ => ret []).

(** [terminate_child_processes(pid)]; the value returned is the list
    [children] as the function leaves it. *)
Definition terminate_child_processes (env : PsEnv) (pid : Z) : M unit (list Z) :=
  children <- enumerate env pid ;;
  r <- with_local children (reap env) ;;
  ret (fst r).

(** What becomes of a child in the loop, read off the answers of psutil. *)
Inductive fate : Type :=
| Handled            (* signalled and waited for *)
| Dropped            (* gone: removed from [children] *)
| Escapes (e : exn). (* an exception the loop does not catch *)

Definition after_no_such (e : exn) : fate :=
  match e with NoSuchProcess => Dropped | _ => Escapes e end.

Definition fate_of (env : PsEnv) (child : Z) : fate :=
  match cmdline_of env child with
  | Raise e => after_no_such e
  | Ok _ =>
      match send_signal_to env child with
      | Raise e => after_no_such e
      | Ok _ =>
          match wait_for env child with
          | Ok _ => Handled
          | Raise TimeoutExpired =>
              match kill_of env child with
              | Ok _ => Handled
              | Raise e => after_no_such e
              end
          | Raise e => after_no_such e
          end
      end
  end.

Definition children_after (f : fate) (child : Z) (children : list Z) : list Z :=
  match f with Dropped => remove_first child children | _ => children end.

Definition value_after (f : fate) : result unit :=
  match f with Escapes e => Raise e | _ => Ok tt end.

(** [children] once the loop has gone through [l]. *)
Definition survivors (env : PsEnv) (l : list Z) (children : list Z) : list Z :=
  fold_left (fun ch x => children_after (fate_of env x) x ch) l children.

(** No child of [l] raises an exception the loop lets through. *)
Definition no_escape (env : PsEnv) (l : list Z) : Prop :=
  forall x, In x l -> forall e, fate_of env x <> Escapes e.

(** The child exited after it was listed and before it could be signalled. *)
Definition exited_before_signal (env : PsEnv) (c : Z) : Prop :=
  cmdline_of env c = Raise NoSuchProcess \/
  ((exists l, cmdline_of env c = Ok l) /\ send_signal_to env c = Raise NoSuchProcess).

(** psutil refuses to signal the child. *)
Definition denied_at_signal (env : PsEnv) (c : Z) : Prop :=
  (exists l, cmdline_of env c = Ok l) /\ send_signal_to env c = Raise AccessDenied.

End Reaper.

(* ===================================================================== *)
(** ** SaltDaemonScriptBase *)
(* ===================================================================== *)

Module Daemon.
Import Eff Py Shell Scripts.

(** An element of [get_check_ports()]: an [int] is a port to connect to, a
    string is a minion id to look for in the joined minions. *)
Inductive check : Type :=
| Port (port : Z)
| PeerName (name : string).

Definition check_eq_dec : forall a b : check, {a = b} + {a <> b}.
Proof. decide equality; [apply Z.eq_dec | apply string_dec]. Defined.

(** [check_ports.remove(port)]. *)
Fixpoint remove_check (c : check) (l : list check) : list check :=
  match l with
  | [] => []
  | y :: r => if check_eq_dec c y then r else y :: remove_check c r
  end.

(** [set(l)], iterated in order of first occurrence. *)
Definition as_set (l : list check) : list check := nodup check_eq_dec l.

(** A daemon object: the script attributes, the [salt_run] collaborator,
    the two [multiprocessing.Event]s and the pid of [self._process]. *)
Record Daemon : Type := mkDaemon {
  script : Script;
  salt_run : option Script;
  _running : bool;
  _connectable : bool;
  _process : option Z
}.

(** [SaltDaemonScriptBase.__init__]. *)
Definition new (sc : Script) (sr : option Script) : Daemon :=
  mkDaemon sc sr false false None.

Definition set_running (b : bool) (d : Daemon) : Daemon :=
  mkDaemon (script d) (salt_run d) b (_connectable d) (_process d).
Definition set_connectable (b : bool) (d : Daemon) : Daemon :=
  mkDaemon (script d) (salt_run d) (_running d) b (_process d).
Definition set_process (p : option Z) (d : Daemon) : Daemon :=
  mkDaemon (script d) (salt_run d) (_running d) (_connectable d) p.

Definition is_alive (self : Daemon) : bool := _running self.

(** [get_check_ports] as each class defines or inherits it. *)
Definition get_check_ports (self : Daemon) : list check :=
  let c := config (script self) in
  match cls (script self) with
  | SaltMinion => as_set [PeerName (conf_id c); Port (conf_pytest_port c)]
  | SaltMaster =>
      as_set [Port (conf_ret_port c); Port (conf_publish_port c);
              Port (conf_pytest_port c)]
  | SSHD => [Port (conf_port c)]
  | _ => []
  end.

(** [start]; [pid] is the process id the new process gets. *)
Definition start (pid : Z) : M Daemon bool :=
  modify (set_running true) ;;;
  emit Spawn ;;;
  modify (set_process (Some pid)) ;;;
  emit AtExit ;;;
  ret true.

(** [_start], the body of the process [start] creates.  The state is the
    shared event [running_event] and the number of [poll()] calls made.
    The daemon inherits stdio, so there is nothing to [recv].  The loop can
    run for ever: [fuel] bounds the iterations observed, and the value says
    whether the loop was left (and the terminal closed). *)
Fixpoint _start_loop (t : TerminalM.Terminal) (fuel : nat) : M (bool * nat) bool :=
  match fuel with
  | O => ret false
  | S n =>
      st <- @get (bool * nat) ;;
      if fst st then
        r <- on_snd (TerminalM.poll t) ;;
        match r with
        | None => emit (Sleep 125000) ;;; _start_loop t n
        | Some _ => ret true
        end
      else ret true
  end.

Definition _start (t : TerminalM.Terminal) (fuel : nat) : M (bool * nat) bool :=
  emit (Log StartingDaemon) ;;;
  emit (Log RunningScript) ;;;
  emit AtExit ;;;
  left <- _start_loop t fuel ;;
  if left then on_snd (TerminalM.close_terminal t) ;;; ret true
  else ret false.

(** [terminate]. *)
Definition terminate (env : Reaper.PsEnv) : M Daemon unit :=
  self <- get ;;
  match _process self with
  | None => raise AttributeError
  | Some pid =>
      children <- Reaper.enumerate env pid ;;
      modify (set_running false) ;;;
      modify (set_connectable false) ;;;
      emit (Sleep 12500) ;;;
      emit (Terminate ToDaemonProcess) ;;;
      _r <- with_local children (Reaper.reap env) ;;
      ret tt
  end.

(** What the prober meets outside: the answer of [connect_ex] to a port and
    the run of [salt-run manage.joined], both at a given pass over the
    loop; the JSON decoder; and the clock, as the number of half-second
    sleeps that fit in a timeout of so many seconds. *)
Inductive query_outcome : Type :=
| QueryTimedOut
| QueryDone (exitcode : Z) (stdout stderr : string).

Record ProbeEnv : Type := mkProbeEnv {
  connect_ex : nat -> Z -> Z;
  manage_joined : nat -> string -> query_outcome;
  json_loads : string -> option value;
  sleeps_within : Z -> nat
}.

(** [SaltCliScriptBase.process_output]. *)
Definition process_output {S} (env : ProbeEnv) (out err : string)
    : M S (string * string * value) :=
  if negb (out =? "")%string then
    match json_loads env out with
    | Some j => ret (out, err, j)
    | None => emit (Log FailedToLoadJSON) ;;; ret (out, err, VNone)
    end
  else ret (out, err, VNone).

(** [self.salt_run.run('manage.joined')], asked while checking [name] at
    pass [pass]: a run that times out is turned into [pytest.xfail].  Of
    the run, the trace holds the query and what it writes to the log; the
    shutdown of the [salt-run] subprocess itself, which reaches that
    subprocess only, is in [Runner._run_script].  The timed-out case is there for any timeout
    of the command: with its default of 25 seconds it does not strike
    within the deadline of a wait. *)
Definition run_manage_joined {S} (env : ProbeEnv) (pass : nat) (name : string)
    : M S ShellResult :=
  emit PeerQuery ;;;
  emit (Log RunningScript) ;;;
  match manage_joined env pass name with
  | QueryTimedOut => raise XFailed
  | QueryDone code out err =>
      o <- process_output env out err ;;
      let '(out', err', json_out) := o in
      emit Moment ;;;
      ret (mkShellResult code out' err' json_out)
  end.

(** The local variables of the coroutine [_wait_until_running]. *)
Record Frame : Type := mkFrame {
  self : Daemon;
  check_ports : list check
}.

Definition drop_check (c : check) (f : Frame) : Frame :=
  mkFrame (self f) (remove_check c (check_ports f)).
Definition mark_connectable (f : Frame) : Frame :=
  mkFrame (set_connectable true (self f)) (check_ports f).

(** The body of [for port in set(check_ports)]. *)
Definition check_one (env : ProbeEnv) (pass : nat) (c : check) : M Frame unit :=
  emit Moment ;;;
  match c with
  | Port port =>
      emit (Log (CheckingPort port)) ;;;
      emit (Connect port) ;;;
      if connect_ex env pass port =? 0 then
        emit (Log (PortConnectable port)) ;;;
        modify (drop_check c)
      else ret tt
  | PeerName name =>
      f <- get ;;
      match salt_run (self f) with
      | None => raise RuntimeError
      | Some _ =>
          minions_joined <- run_manage_joined env pass name ;;
          if exitcode minions_joined =? 0 then
            if truthy (json minions_joined) then
              match contains (json minions_joined) name with
              | Some true => modify (drop_check c)
              | Some false => ret tt
              | None => raise TypeError
              end
            else emit (Log NoValidJSON)
          else ret tt
      end
  end.

(** [while self._running.is_set(): ...].  [sleeps] is the number of
    [gen.sleep(0.5)] that still complete before the deadline of [run_sync];
    the deadline then strikes during a sleep, as [TimeoutError]. *)
Fixpoint polling (env : ProbeEnv) (sleeps : nat) (pass : nat) : M Frame unit :=
  f <- get ;;
  if _running (self f) then
    emit Moment ;;;
    match check_ports f with
    | [] => modify mark_connectable
    | _ :: _ =>
        for_each (as_set (check_ports f)) (check_one env pass) ;;;
        match sleeps with
        | O => raise TimeoutError
        | S n => emit (Sleep 500000) ;;; polling env n (S pass)
        end
    end
  else ret tt.

(** The coroutine [_wait_until_running], run for at most [sleeps] sleeps. *)
Definition _wait_until_running (env : ProbeEnv) (sleeps : nat) : M Frame bool :=
  emit Moment ;;;
  emit (Log CheckingPorts) ;;;
  polling env sleeps 0 ;;;
  emit Moment ;;;
  emit (Log AllPortsChecked) ;;;
  f <- get ;;
  ret (_connectable (self f)).

(** [self.io_loop.run_sync(self._wait_until_running, timeout=seconds)]. *)
Definition run_sync (env : ProbeEnv) (seconds : Z) : M Daemon bool :=
  fun d =>
    let '(t, f, r) :=
      _wait_until_running env (sleeps_within env seconds)
        (mkFrame d (get_check_ports d)) in
    (t, self f, r).

Definition is_TimeoutError (e : exn) : bool :=
  match e with TimeoutError => true | _ => false end.

(** [wait_until_running(timeout)]; the default [timeout=None] is [None]. *)
Definition wait_until_running (env : ProbeEnv) (timeout : option Z) : M Daemon bool :=
  d <- get ;;
  if _connectable d then ret true
  else
    match timeout with
    | None => raise TypeError
    | Some t =>
        try_except (run_sync env (t + 1)) is_TimeoutError (fun _ => ret false)
    end.

(** The events of probing and polling. *)
Definition probes (e : event) : bool :=
  match e with
  | Connect _ | PeerQuery | Sleep _ => true
  | _ => false
  end.

(** The events that reach a process: a signal, a kill, a terminate. *)
Definition disturbs (e : event) : bool :=
  match e with
  | Signal _ _ | Kill _ | Terminate _ => true
  | _ => false
  end.

Definition is_spawn (e : event) : bool :=
  match e with Spawn => true | _ => false end.

(** An event that neither reaches a process nor starts one. *)
Definition calm (e : event) : Prop :=
  disturbs e = false /\ is_spawn e = false.

(** The payload [process_output] gives for a standard output. *)
Definition payload_of (env : ProbeEnv) (out : string) : value :=
  if negb (out =? "")%string then
    match json_loads env out with
    | Some j => j
    | None => VNone
    end
  else VNone.

(** The log entries that report a query that gave nothing. *)
Definition reports_failed_query (m : logmsg) : Prop :=
  m = NoValidJSON \/ m = FailedToLoadJSON.

(** What can happen to a daemon object: the calls of its methods, and the
    process it started running [_start] against some subprocess. *)
Inductive action : Type :=
| DoStart (pid : Z)
| DoTerminate (env : Reaper.PsEnv)
| DoWait (env : ProbeEnv) (timeout : option Z)
| ChildRuns (t : TerminalM.Terminal) (fuel : nat).

Definition is_terminate (a : action) : bool :=
  match a with DoTerminate _ => true | _ => false end.

Definition act (a : action) (d : Daemon) : Daemon :=
  match a with
  | DoStart pid => state_of (start pid d)
  | DoTerminate env => state_of (terminate env d)
  | DoWait env timeout => state_of (wait_until_running env timeout d)
  | ChildRuns t fuel =>
      set_running (fst (state_of (_start t fuel (_running d, O)))) d
  end.

Definition run_actions (l : list action) (d : Daemon) : Daemon :=
  fold_left (fun d a => act a d) l d.

(** Readiness only with liveness. *)
Definition invariant (d : Daemon) : Prop :=
  _connectable d = true -> _running d = true.

(** The states a daemon object goes through. *)
Inductive reachable (sc : Script) (sr : option Script) : Daemon -> Prop :=
| reach_new : reachable sc sr (new sc sr)
| reach_act (a : action) (d : Daemon) :
    reachable sc sr d -> reachable sc sr (act a d).

End Daemon.

(* ===================================================================== *)
(** ** The daemon fixtures *)
(* ===================================================================== *)

Module Fixture.
Import Eff Scripts Daemon.

(** What one pass over the body of the retry loop meets: the pid of the
    process it starts, the world seen by the two waits, and psutil as seen
    by each of the three [terminate()] calls of the body. *)
Record AttemptEnv : Type := mkAttemptEnv {
  pid : Z;
  first_wait : ProbeEnv;
  second_wait : ProbeEnv;
  terminate_unconfirmed : Reaper.PsEnv;   (* in the [try] block *)
  terminate_in_handler : Reaper.PsEnv;    (* in the [except] clause *)
  terminate_not_alive : Reaper.PsEnv      (* in the [else] branch *)
}.

(** The world of a fixture: one [AttemptEnv] per value of [attempts], psutil
    at teardown, and whether the outcome exceptions of the installed pytest
    derive from [Exception] (they derive from [BaseException] in later
    releases). *)
Record FixtureEnv : Type := mkFixtureEnv {
  attempt_env : Z -> AttemptEnv;
  teardown_env : Reaper.PsEnv;
  outcomes_are_exceptions : bool
}.

(** [except Exception]. *)
Definition is_Exception (fenv : FixtureEnv) (e : exn) : bool :=
  match e with
  | XFailed | Skipped => outcomes_are_exceptions fenv
  | _ => true
  end.

(** How a block leaves: by falling through or by [continue]. *)
Inductive flow : Type := Next | Continue.

(** The [try] block of the loop body. *)
Definition try_block (a : AttemptEnv) (attempts : Z) : M Daemon flow :=
  connectable <- wait_until_running (first_wait a) (Some 10) ;;
  if negb connectable then
    connectable' <- wait_until_running (second_wait a) (Some 5) ;;
    if negb connectable' then
      terminate (terminate_unconfirmed a) ;;;
      (if attempts >=? 3 then raise XFailed else ret tt) ;;;
      ret Continue
    else ret Next
  else ret Next.

(** The [except Exception as exc] clause. *)
Definition handler (a : AttemptEnv) (attempts : Z) (exc : exn) : M Daemon flow :=
  emit (Log ExceptionLogged) ;;;
  terminate (terminate_in_handler a) ;;;
  (if attempts >=? 3 then raise XFailed else ret tt) ;;;
  ret Continue.

(** [attempts = 0; while attempts <= 3: ... else: pytest.xfail(...)] up to
    the [yield].  The state is the variable holding the process object.
    The value is [Some attempts] when the loop yields the object, and
    [None] only if [budget] iterations did not suffice to leave the loop. *)
Fixpoint retry_loop (fenv : FixtureEnv) (sc : Script) (sr : option Script)
    (budget : nat) (attempts : Z) : M Daemon (option Z) :=
  if attempts <=? 3 then
    match budget with
    | O => ret None
    | S b =>
        let attempts := attempts + 1 in
        let a := attempt_env fenv attempts in
        put (new sc sr) ;;;
        _started <- start (pid a) ;;
        process <- get ;;
        if is_alive process then
          fl <- try_except (try_block a attempts) (is_Exception fenv)
                  (handler a attempts) ;;
          match fl with
          | Continue => retry_loop fenv sc sr b attempts
          | Next => emit (Log (RunningAfter attempts)) ;;; ret (Some attempts)
          end
        else
          terminate (terminate_not_alive a) ;;;
          retry_loop fenv sc sr b attempts
    end
  else raise XFailed.

(** The fixture up to its [yield]: [salt_master], [salt_minion],
    [sshd_server] and their variants differ in the class and the
    arguments of the object only. *)
Definition fixture_setup (fenv : FixtureEnv) (sc : Script) (sr : option Script)
    : list event * Daemon * result (option Z) :=
  (emit (Log StartingFixture) ;;; retry_loop fenv sc sr 4 0) (new sc sr).

(** The fixture after its [yield]. *)
Definition fixture_teardown (fenv : FixtureEnv) : M Daemon unit :=
  emit (Log StoppingFixture) ;;;
  terminate (teardown_env fenv) ;;;
  emit (Log StoppedFixture).

(** The number of processes a trace starts. *)
Definition spawns (t : list event) : nat :=
  length (filter is_spawn t).

Definition spawnless (t : list event) : Prop :=
  Forall (fun e => is_spawn e = false) t.

(** The object of a pass right after [start()]. *)
Definition started (sc : Script) (sr : option Script) (a : AttemptEnv) : Daemon :=
  mkDaemon sc sr true false (Some (pid a)).

(** The [try] statement of the pass with [attempts = n], on that object. *)
Definition attempt (fenv : FixtureEnv) (sc : Script) (sr : option Script) (n : Z)
    : list event * Daemon * result flow :=
  let a := attempt_env fenv n in
  try_except (try_block a n) (is_Exception fenv) (handler a n) (started sc sr a).

(** The daemon of pass [n] is confirmed: the first wait, or else the
    second, returns [True]. *)
Definition confirms (fenv : FixtureEnv) (sc : Script) (sr : option Script) (n : Z)
    : Prop :=
  let a := attempt_env fenv n in
  let d := started sc sr a in
  value_of (wait_until_running (first_wait a) (Some 10) d) = Ok true \/
  (value_of (wait_until_running (first_wait a) (Some 10) d) = Ok false /\
   value_of (wait_until_running (second_wait a) (Some 5) d) = Ok true).



End Fixture.

(* ===================================================================== *)
(** ** Concrete objects and worlds, used to run the model *)
(* ===================================================================== *)

Module Samples.
Import Eff Py Shell Scripts.

Definition sshd_script : Script :=
  mkScript SSHD (mkConfig "" 0 0 0 2222) "/tmp/conf" "/usr/bin" "sshd" "sshd".

Definition which_sshd (name : string) : option string :=
  if (name =? "sshd")%string then Some "/usr/sbin/sshd" else None.

(** A subprocess that never exits and whose owner may not signal it:
    every signalling call fails with [EPERM]. *)
Definition unkillable : TerminalM.Terminal :=
  TerminalM.mkTerminal (fun _ => None) (fun _ => Some EPERM) (Some EPERM)
    (Some EPERM) None.

(** A subprocess that is gone by the time it is signalled. *)
Definition vanished : TerminalM.Terminal :=
  TerminalM.mkTerminal (fun _ => None) (fun _ => Some ESRCH) (Some ESRCH)
    (Some ESRCH) None.

(** Two descendants, of which the first is gone when it is signalled. *)
Definition racing_env : Reaper.PsEnv :=
  Reaper.mkPsEnv (fun _ => Ok [101; 102]) (fun _ => Ok ["salt-minion"])
    (fun c => if c =? 101 then Raise NoSuchProcess else Ok tt)
    (fun _ => Ok tt) (fun _ => Ok tt).

(** Two descendants, of which the second may not be signalled. *)
Definition denied_env : Reaper.PsEnv :=
  Reaper.mkPsEnv (fun _ => Ok [101; 102]) (fun _ => Ok ["salt-minion"])
    (fun c => if c =? 102 then Raise AccessDenied else Ok tt)
    (fun _ => Ok tt) (fun _ => Ok tt).

(** The clock of the samples: two sleeps of half a second per second. *)
Definition two_per_second (seconds : Z) : nat := Z.to_nat (2 * seconds).

(** Nothing listens and [salt-run] fails with exit code 1 and no output. *)
Definition deaf_env : Daemon.ProbeEnv :=
  Daemon.mkProbeEnv (fun _ _ => 111) (fun _ _ => Daemon.QueryDone 1 "" "")
    (fun _ => None) two_per_second.

(** Every port is open at once and the minion ["minion-1"] has joined. *)
Definition open_env : Daemon.ProbeEnv :=
  Daemon.mkProbeEnv (fun _ _ => 0)
    (fun _ _ => Daemon.QueryDone 0 "[1]" "")
    (fun _ => Some (VList [VStr "minion-1"])) two_per_second.

Definition base_script : Script :=
  mkScript SaltDaemonScriptBase (mkConfig "" 0 0 0 0) "/tmp/conf" "/usr/bin"
    "base" "salt-daemon".

Definition minion_script : Script :=
  mkScript SaltMinion (mkConfig "minion-1" 4510 0 0 0) "/tmp/conf" "/usr/bin"
    "minion" "salt-minion".

Definition run_script : Script :=
  mkScript SaltRun (mkConfig "master" 4511 4506 4505 0) "/tmp/conf" "/usr/bin"
    "master" "salt-run".

(** Daemon objects right after [start()]. *)
Definition started_base : Daemon.Daemon :=
  Daemon.mkDaemon base_script None true false (Some 4242).

Definition started_sshd : Daemon.Daemon :=
  Daemon.mkDaemon sshd_script None true false (Some 4243).

Definition started_minion : Daemon.Daemon :=
  Daemon.mkDaemon minion_script (Some run_script) true false (Some 4244).

(** A script that has exited with code 1 by the first [poll()]. *)
Definition exited : TerminalM.Terminal :=
  TerminalM.mkTerminal (fun _ => Some 1) (fun _ => Some ESRCH) (Some ESRCH)
    (Some ESRCH) None.

(** psutil with no descendant to report. *)
Definition childless : Reaper.PsEnv :=
  Reaper.mkPsEnv (fun _ => Ok []) (fun _ => Raise NoSuchProcess)
    (fun _ => Raise NoSuchProcess) (fun _ => Raise NoSuchProcess)
    (fun _ => Raise NoSuchProcess).

(** A world where the daemon answers from the third start on. *)
Definition third_time_lucky : Fixture.FixtureEnv :=
  Fixture.mkFixtureEnv
    (fun n =>
       Fixture.mkAttemptEnv (4000 + n)
         (if n <? 3 then deaf_env else open_env)
         (if n <? 3 then deaf_env else open_env)
         childless childless childless)
    childless false.

(** A world where the daemon never answers. *)
Definition never_up : Fixture.FixtureEnv :=
  Fixture.mkFixtureEnv
    (fun n => Fixture.mkAttemptEnv (4000 + n) deaf_env deaf_env
                childless childless childless)
    childless true.

(** The frame of the coroutine of the minion when it starts. *)
Definition minion_frame : Daemon.Frame :=
  Daemon.mkFrame started_minion (Daemon.get_check_ports started_minion).

End Samples.

(* ===================================================================== *)
(** ** pytest_runtest_setup *)
(* ===================================================================== *)

Module Hook.

(** The tuple the hook goes through. *)
Definition injected : list string :=
  ["salt_master"; "salt_minion"; "salt_call"; "salt"; "salt_key"; "salt_run"].

(** ['{0}_after_start'.format(fixture)]. *)
Definition after_start (fixture : string) : string :=
  (fixture ++ "_after_start")%string.

(** [x in names]. *)
Definition mem (x : string) (names : list string) : bool :=
  existsb (String.eqb x) names.

(** The body of the loop; [names] is [item.fixturenames]. *)
Definition inject_one (names : list string) (fixture : string) : list string :=
  if mem fixture names then
    if mem (after_start fixture) names then names
    else names ++ [after_start fixture]
  else names.

(** [pytest_runtest_setup(item)], as a function of [item.fixturenames]. *)
Definition pytest_runtest_setup (fixturenames : list string) : list string :=
  fold_left inject_one injected fixturenames.

End Hook.

(* ===================================================================== *)
(** ** SaltCliScriptBase: running a script to its end *)
(* ===================================================================== *)

Module Runner.
Import Eff Py Shell Scripts.

(** What a non-blocking read gives: [None], some text, or an [IOError]. *)
Inductive chunk : Type :=
| NoData
| Data (s : string)
| ReadError.

(** The world of one run of [_run_script]: what the [i]-th [recv] and
    [recv_err] give, what [time.time()] reads when the script starts and in
    the [i]-th pass over the loop, the handle as [close_terminal] sees it,
    [terminal.returncode] and [json.loads]. *)
Record RunEnv : Type := mkRunEnv {
  recv : nat -> chunk;
  recv_err : nat -> chunk;
  started_at : Z;
  clock : nat -> Z;
  terminal : TerminalM.Terminal;
  returncode : Z;
  loads : string -> option value
}.

Definition is_no_data (c : chunk) : bool :=
  match c with NoData => true | _ => false end.

(** [if out: stdout += out], with [out = b''] after an [IOError]. *)
Definition append_chunk (acc : string) (c : chunk) : string :=
  match c with
  | Data s => (acc ++ s)%string
  | _ => acc
  end.

(** The local variables of the loop: the two accumulators and the number
    of passes made. *)
Record Drain : Type := mkDrain {
  out_acc : string;
  err_acc : string;
  passes : nat
}.

(** [while True: ...] of [_run_script].  The value is [Some timedout] when
    the loop is left, and [None] if [fuel] passes did not suffice. *)
Fixpoint drain (env : RunEnv) (timeout_expire : Z) (fuel : nat)
    : M Drain (option bool) :=
  match fuel with
  | O => ret None
  | S f =>
      emit Moment ;;;
      st <- get ;;
      let out := recv env (passes st) in
      let err := recv_err env (passes st) in
      put (mkDrain (append_chunk (out_acc st) out)
                   (append_chunk (err_acc st) err) (S (passes st))) ;;;
      if is_no_data out && is_no_data err then ret (Some false)
      else if timeout_expire <? clock env (passes st) then ret (Some true)
      else drain env timeout_expire f
  end.

(** [SaltCliScriptBase.process_output], given [json.loads]. *)
Definition process_output {S} (loads : string -> option value)
    (out err : string) : M S (string * string * value) :=
  if negb (out =? "")%string then
    match loads out with
    | Some j => ret (out, err, j)
    | None => emit (Log FailedToLoadJSON) ;;; ret (out, err, VNone)
    end
  else ret (out, err, VNone).

(** What [json_out['localhost']] can raise. *)
Inductive subscript_error : Type :=
| KeyError
| NotSubscriptable.

(** [v['localhost']]: the value under the key of a dictionary; a list or a
    string takes no string index, a number takes none at all. *)
Definition subscript (v : value) (key : string) : value + subscript_error :=
  match v with
  | VDict d =>
      match lookup key d with
      | Some x => inl x
      | None => inr KeyError
      end
  | _ => inr NotSubscriptable
  end.

(** The part [SaltSSH.process_output] adds to the inherited method: the
    payload it returns for the payload [json_out] of the base class. *)
Definition ssh_payload (json_out : value) : value + subscript_error :=
  if truthy json_out then subscript json_out "localhost" else inl json_out.

(** [_run_script] with [timeout] seconds; [None] if the loop was still
    running after [fuel] passes. *)
Definition _run_script (env : RunEnv) (timeout : Z) (fuel : nat)
    : M unit (option ShellResult) :=
  let timeout_expire := started_at env + timeout in
  emit (Log RunningScript) ;;;
  d <- with_local (mkDrain "" "" O) (drain env timeout_expire fuel) ;;
  match snd d with
  | None => ret None
  | Some timedout =>
      _closed <- with_local O (TerminalM.close_terminal (terminal env)) ;;
      if (timedout : bool) then raise TimeoutError
      else
        o <- process_output (loads env) (out_acc (fst d)) (err_acc (fst d)) ;;
        let '(out, err, json_out) := o in
        emit Moment ;;;
        ret (Some (mkShellResult (returncode env) out err json_out))
  end.

(** [run]: a [gen.TimeoutError] becomes [pytest.xfail]. *)
Definition run (env : RunEnv) (timeout : Z) (fuel : nat)
    : M unit (option ShellResult) :=
  try_except (_run_script env timeout fuel) Daemon.is_TimeoutError
    (fun _ => raise XFailed).

(** [DEFAULT_TIMEOUT]. *)
Definition DEFAULT_TIMEOUT : Z := 25.

(** The text the reads have given in the passes [i], ..., [i + k - 1]. *)
Fixpoint collected (read : nat -> chunk) (i k : nat) : string :=
  match k with
  | O => ""
  | S k' => (append_chunk "" (read i) ++ collected read (S i) k')%string
  end.

(** The total of the sleeps of a trace, in microseconds. *)
Fixpoint slept (t : list event) : Z :=
  match t with
  | [] => 0
  | Sleep us :: r => us + slept r
  | _ :: r => slept r
  end.

End Runner.

(* ===================================================================== *)
(** ** Further objects and worlds *)
(* ===================================================================== *)

Module MoreSamples.
Import Eff Py Shell Scripts Samples.

(** A script that takes the signals and exits two polls after the kill. *)
Definition dies_after_kill : TerminalM.Terminal :=
  TerminalM.mkTerminal (fun i => if (i <? 3)%nat then None else Some (-9))
    (fun _ => None) None None None.

(** A script that takes the signals and never exits. *)
Definition stubborn : TerminalM.Terminal :=
  TerminalM.mkTerminal (fun _ => None) (fun _ => None) None None None.

(** Two descendants, of which the second outlives the wait of 5 seconds. *)
Definition lingering_env : Reaper.PsEnv :=
  Reaper.mkPsEnv (fun _ => Ok [101; 102]) (fun _ => Ok ["salt-minion"])
    (fun _ => Ok tt)
    (fun c => if c =? 102 then Raise TimeoutExpired else Ok tt)
    (fun _ => Ok tt).

(** The parent is gone when its descendants are asked for. *)
Definition orphaned_env : Reaper.PsEnv :=
  Reaper.mkPsEnv (fun _ => Raise NoSuchProcess) (fun _ => Ok [])
    (fun _ => Ok tt) (fun _ => Ok tt) (fun _ => Ok tt).

(** A world where the daemon answers at once. *)
Definition always_up : Fixture.FixtureEnv :=
  Fixture.mkFixtureEnv
    (fun n => Fixture.mkAttemptEnv (4000 + n) open_env open_env
                childless childless childless)
    childless true.

(** Nothing listens; [salt-run] fails with exit code 1 and prints what is
    no JSON document. *)
Definition garbled_env : Daemon.ProbeEnv :=
  Daemon.mkProbeEnv (fun _ _ => 111)
    (fun _ _ => Daemon.QueryDone 1 "Traceback" "") (fun _ => None)
    two_per_second.

(** A script that writes a byte to stdout in every pass and never closes
    it; in pass [i] the clock reads [i] seconds. *)
Definition chatty_env : Runner.RunEnv :=
  Runner.mkRunEnv (fun _ => Runner.Data "x") (fun _ => Runner.NoData) 0
    (fun i => Z.of_nat i) exited 1 (fun _ => None).


End MoreSamples.

(* ===================================================================== *)
(** ** Predicates on traces *)
(* ===================================================================== *)

Module Observations.
Import Eff.

(** The event reaches no process but the descendants [kids], and reaches
    them with [SIGKILL], [kill()] or a wait only. *)
Definition touches_only (kids : list Z) (e : event) : Prop :=
  match e with
  | Signal tg sig => sig = SIGKILL /\ exists c, tg = ToChild c /\ In c kids
  | Kill tg | Wait tg => exists c, tg = ToChild c /\ In c kids
  | Terminate _ | Spawn | Communicate | Poll => False
  | _ => True
  end.

(** The call of [start()] among the things that happen to a daemon. *)
Definition is_start (a : Daemon.action) : bool :=
  match a with Daemon.DoStart _ => true | _ => false end.

(** The check is a port that accepts the connection in pass [pass]. *)
Definition open_port (env : Daemon.ProbeEnv) (pass : nat) (c : Daemon.check) : Prop :=
  exists p, c = Daemon.Port p /\ Daemon.connect_ex env pass p = 0.



End Observations.

(* ===================================================================== *)
(** * Properties *)
(* ===================================================================== *)

Import Eff Py Shell Scripts Samples.

(** ** ShellResult equality *)

Lemma eq_absent_payload (r : ShellResult) (v : value) :
  json r = VNone -> __eq__ r v = spec_eq r v.
Proof. unfold __eq__, spec_eq. intros ->. reflexivity. Qed.

Lemma eq_truthy_payload (r : ShellResult) (v : value) :
  truthy (json r) = true -> __eq__ r v = spec_eq r v.
Proof.
  unfold __eq__, spec_eq. intros H. rewrite H.
  destruct (json r); try reflexivity. discriminate H.
Qed.

(** C2, as stated, fails: a payload that is present but empty, here the
    document [{}] printed on stdout as the text "{}", is not compared with
    the other value; the raw stdout is. *)
Lemma ShellResult_eq_empty_payload :
  let r := mkShellResult 0 "{}" "" (VDict []) in
  spec_eq r (VDict []) = true /\ __eq__ r (VDict []) = false /\
  __eq__ r (VDict []) <> spec_eq r (VDict []).
Proof. cbv. repeat split. discriminate. Qed.

(** C2, amended: [r == v] compares [v] with the parsed payload when the
    payload is truthy, and with the raw stdout otherwise (payload absent,
    or present but falsy: empty, zero, false); it agrees with the comparison
    of the specification whenever the payload is absent or truthy, and on
    the three examples of the specification. *)
Theorem ShellResult_eq_compares_truthy_payload_else_stdout :
  forall (r : ShellResult) (v : value),
    (if truthy (json r) then __eq__ r v = eqb (json r) v
     else __eq__ r v = eqb (VStr (stdout r)) v) /\
    (match json r with
     | VNone => __eq__ r v = spec_eq r v
     | j => if truthy j then __eq__ r v = spec_eq r v
            else __eq__ r v = eqb (VStr (stdout r)) v
     end) /\
    __eq__ (mkShellResult 0 "OK" "" VNone) (VStr "OK") = true /\
    __eq__ (mkShellResult 0 "ignored" "" (VDict [("a", VInt 1)]))
           (VDict [("a", VInt 1)]) = true /\
    __eq__ (mkShellResult 0 "ignored" "" (VDict [("a", VInt 1)]))
           (VStr "ignored") = false.
Proof.
  intros r v. split; [|split; [|repeat split]].
  - unfold __eq__. destruct (truthy (json r)); reflexivity.
  - destruct (json r) eqn:Ej; try (apply eq_absent_payload; assumption);
      match goal with
      | |- context [truthy ?j] =>
          destruct (truthy j) eqn:Et;
          [ apply eq_truthy_payload; rewrite Ej; exact Et
          | unfold __eq__; rewrite Ej, Et; reflexivity ]
      end.
Qed.

(** ** Argument vectors *)

Lemma adjacentb_sound (x y : string) (l : list string) :
  adjacentb x y l = true -> adjacent x y l.
Proof.
  induction l as [|a r IH]; simpl; [discriminate|].
  destruct r as [|b r']; [discriminate|].
  intros H. apply orb_true_iff in H. destruct H as [H|H].
  - apply andb_true_iff in H. destruct H as [Ha Hb].
    apply String.eqb_eq in Ha, Hb. subst. exists [], r'. reflexivity.
  - destruct (IH H) as (l1 & l2 & E). exists (a :: l1), l2.
    rewrite E. reflexivity.
Qed.

Lemma adjacentb_complete (x y : string) (l : list string) :
  adjacent x y l -> adjacentb x y l = true.
Proof.
  intros (l1 & l2 & ->). induction l1 as [|a l1 IH]; simpl.
  - rewrite !String.eqb_refl. reflexivity.
  - destruct (l1 ++ x :: y :: l2) eqn:E.
    + destruct l1; discriminate E.
    + rewrite IH. apply orb_true_r.
Qed.

Lemma adjacent_app_r (x y : string) (l l' : list string) :
  adjacent x y l -> adjacent x y (l ++ l').
Proof.
  intros (l1 & l2 & ->). exists l1, (l2 ++ l').
  rewrite <- app_assoc. reflexivity.
Qed.

Lemma adjacent_cons (x y a : string) (l : list string) :
  adjacent x y l -> adjacent x y (a :: l).
Proof. intros (l1 & l2 & ->). exists (a :: l1), l2. reflexivity. Qed.

Lemma adjacent_head (x y : string) (l : list string) :
  adjacent x y (x :: y :: l).
Proof. exists [], l. reflexivity. Qed.

(** C6, as stated, fails for the [SSHD] daemon: its argument vector is
    [sshd -D -f <config_dir>/sshd_config], with no ["-c"] in it. *)
Lemma sshd_argv_has_no_config_dir_option :
  daemon_proc_args which_sshd sshd_script
    = Ok ["/usr/sbin/sshd"; "-D"; "-f"; "/tmp/conf/sshd_config"] /\
  is_daemon (cls sshd_script) = true /\
  ~ (exists argv, daemon_proc_args which_sshd sshd_script = Ok argv /\
                  adjacent "-c" (config_dir sshd_script) argv).
Proof.
  split; [reflexivity|split; [reflexivity|]].
  intros (argv & E & H). apply adjacentb_complete in H.
  cbv in E. injection E as <-. vm_compute in H. discriminate H.
Qed.

(** C6, amended: a daemon of a class that inherits [get_base_script_args]
    (every daemon class but [SSHD]) is spawned with ["-c"] immediately
    followed by its configuration directory; [SSHD] is spawned with
    [-D -f <config_dir>/sshd_config] instead; and every one-shot command is
    spawned with ["-c"] immediately followed by the configuration directory
    and with ["--out=json"]. *)
Theorem argv_carries_config_dir_and_json_flag :
  forall (which : string -> option string) (self : Script)
         (args argv : list string),
    (is_daemon (cls self) = true ->
     daemon_proc_args which self = Ok argv ->
     match cls self with
     | SSHD => exists sshd, argv = [sshd; "-D"; "-f";
                                    path_join (config_dir self) "sshd_config"]
     | _ => adjacent "-c" (config_dir self) argv
     end) /\
    (is_cli (cls self) = true ->
     cli_proc_args which self args = Ok argv ->
     adjacent "-c" (config_dir self) argv /\ In "--out=json" argv).
Proof.
  intros which self args argv. split.
  - intros Hd E. unfold daemon_proc_args, get_script_path in E.
    unfold get_base_script_args, base_get_base_script_args, get_script_args in E.
    destruct (cls self) eqn:Ec; try discriminate Hd;
      try (injection E as <-; apply adjacent_cons; simpl; apply adjacent_head).
    destruct (which (cli_script_name self)) as [sshd|]; [|discriminate E].
    destruct (sshd =? "")%string; [discriminate E|].
    injection E as <-. exists sshd. reflexivity.
  - intros Hc E. unfold cli_proc_args, get_script_path in E.
    unfold get_base_script_args, base_get_base_script_args in E.
    destruct (cls self) eqn:Ec; try discriminate Hc;
      injection E as <-; (split;
        [ apply adjacent_cons; simpl; apply adjacent_head
        | simpl; auto ]).
Qed.

(** The amended C6 at a master and at a [salt-call] command. *)
Lemma argv_carries_config_dir_and_json_flag_witness :
  adjacent "-c" "/tmp/conf"
    ["/usr/bin/salt-master"; "-c"; "/tmp/conf"; "-l"; "quiet"] /\
  (adjacent "-c" "/tmp/conf"
     ["/usr/bin/salt-call"; "-c"; "/tmp/conf"; "--out=json";
      "--retcode-passthrough"; "test.ping"] /\
   In "--out=json"
     ["/usr/bin/salt-call"; "-c"; "/tmp/conf"; "--out=json";
      "--retcode-passthrough"; "test.ping"]).
Proof.
  split.
  - apply (proj1 (argv_carries_config_dir_and_json_flag (fun _ => None)
             (mkScript SaltMaster (mkConfig "" 0 0 0 0) "/tmp/conf" "/usr/bin"
                "master" "salt-master") [] _)); reflexivity.
  - apply (proj2 (argv_carries_config_dir_and_json_flag (fun _ => None)
             (mkScript SaltCall (mkConfig "" 0 0 0 0) "/tmp/conf" "/usr/bin"
                "call" "salt-call") ["test.ping"] _)); reflexivity.
Defined.

(** ** close_terminal *)

Import TerminalM.

Lemma errno_absorbed_iff (e : Z) :
  errno_not_absorbed e = false <-> e = ESRCH \/ e = EACCES.
Proof.
  unfold errno_not_absorbed. rewrite negb_false_iff, orb_true_iff, !Z.eqb_eq.
  reflexivity.
Qed.

Lemma poll_loop_returns (t : Terminal) (ticks n : nat) :
  exists tr n', poll_loop t ticks n = (tr, n', Ok tt) /\ Forall quiet tr.
Proof.
  revert n. induction ticks as [|k IH]; intros n; simpl.
  - eexists _, _. split; [reflexivity|constructor].
  - unfold bind, poll. destruct (poll_result t n).
    + eexists _, _. split; [reflexivity|]. repeat constructor.
    + unfold emit. destruct (IH (S n)) as (tr & n' & E & Q). simpl. rewrite E.
      eexists _, _. split; [reflexivity|].
      constructor; [left; reflexivity|]. constructor; [right; eauto|exact Q].
Qed.

Lemma poll_loop_same_polls (t t' : Terminal) (ticks n : nat) :
  (forall k, poll_result t k = poll_result t' k) ->
  poll_loop t ticks n = poll_loop t' ticks n.
Proof.
  intros H. revert n. induction ticks as [|k IH]; intros n; simpl; [reflexivity|].
  unfold bind, poll. rewrite <- H. destruct (poll_result t n); [reflexivity|].
  simpl. rewrite IH. reflexivity.
Qed.

(** The [except] clause turns a call that fails into one that fails with
    the filtered error. *)
Lemma absorbing_perform {S : Type} (ev : event) (err : option Z) :
  @absorbing S (perform ev (os_outcome err)) = perform ev (os_outcome (absorbed err)).
Proof.
  unfold absorbing, try_except, perform, os_outcome, absorbed.
  destruct err as [e|]; [|reflexivity]. simpl.
  destruct (errno_not_absorbed e); reflexivity.
Qed.

Lemma quiet_not_step (tr : list event) (s : step) :
  Forall quiet tr -> ~ In (step_event s) tr.
Proof.
  intros Q H. rewrite Forall_forall in Q. destruct (Q _ H) as [E|[us E]];
    destruct s; discriminate E.
Qed.

(** [close_terminal] sees its handle through the polls, the filtered errors
    of the three steps and the error of [communicate] only. *)
Lemma close_terminal_ext (t t' : Terminal) (n : nat) :
  (forall k, poll_result t k = poll_result t' k) ->
  (forall s, absorbed (step_error t s) = absorbed (step_error t' s)) ->
  communicate_error t = communicate_error t' ->
  close_terminal t n = close_terminal t' n.
Proof.
  intros Hp Hs Hc. unfold close_terminal.
  pose proof (Hs KillSignal) as Hk. pose proof (Hs ForceKill) as Hf.
  pose proof (Hs TerminateSignal) as Ht. simpl in Hk, Hf, Ht.
  rewrite !absorbing_perform, <- Hk, <- Hf, <- Ht, <- Hc.
  unfold bind, poll. rewrite <- Hp.
  destruct (poll_result t n).
  - unfold ret. rewrite <- Hp. reflexivity.
  - destruct (perform _ _ (S n)) as [[tr s1] [[]|e]]; [|reflexivity].
    rewrite <- (poll_loop_same_polls t t') by exact Hp.
    destruct (poll_loop t poll_ticks s1) as [[tr2 s2] [[]|e]]; [|reflexivity].
    rewrite <- Hp. reflexivity.
Qed.

Ltac split_in H :=
  repeat (simpl in H; rewrite ?in_app_iff in H;
          match type of H with
          | _ \/ _ => destruct H as [H|H]
          | False => contradiction
          | _ = _ => try discriminate H
          end).

(** A step that is taken and fails with an error the clause does not
    absorb ends [close_terminal] with that error. *)
Lemma close_terminal_propagates (t : Terminal) (n : nat) (s : step) (e : Z) :
  step_error t s = Some e -> errno_not_absorbed e = true ->
  In (step_event s) (trace_of (close_terminal t n)) ->
  value_of (close_terminal t n) = Raise (OSError e).
Proof.
  intros He Hn.
  assert (Ha : absorbed (step_error t s) = Some e)
    by (rewrite He; simpl; rewrite Hn; reflexivity).
  unfold close_terminal. rewrite !absorbing_perform.
  generalize poll_ticks. intros ticks.
  unfold bind, poll, perform, ret, trace_of, value_of.
  destruct (poll_result t n) as [c0|].
  - destruct (poll_result t (S n)) as [c1|].
    + destruct s; simpl in Ha.
      * destruct (absorbed (terminate_error t)), (communicate_error t);
          simpl; intros H; split_in H.
      * destruct (absorbed (terminate_error t)), (communicate_error t);
          simpl; intros H; split_in H.
      * rewrite Ha. simpl. reflexivity.
    + destruct s; simpl in Ha.
      * destruct (absorbed (kill_error t)), (absorbed (terminate_error t)),
          (communicate_error t); simpl; intros H; split_in H.
      * rewrite Ha; simpl; reflexivity.
      * rewrite Ha. destruct (absorbed (kill_error t)); simpl; intros H;
          split_in H; reflexivity.
  - destruct (poll_loop_returns t ticks (S n)) as (tr & n' & E & Q).
    pose proof (quiet_not_step tr) as Hq.
    destruct s; simpl in Ha.
    + rewrite Ha. simpl. reflexivity.
    + rewrite Ha. destruct (absorbed (send_signal_error t SIGKILL)); simpl.
      * intros H; split_in H.
      * rewrite E. destruct (poll_result t n'); simpl; [|reflexivity].
        destruct (absorbed (terminate_error t)), (communicate_error t); simpl;
          intros H; split_in H; exfalso; apply (Hq ForceKill Q H).
    + rewrite Ha. destruct (absorbed (send_signal_error t SIGKILL)); simpl.
      * intros H; split_in H.
      * rewrite E. destruct (poll_result t n'); simpl; [reflexivity|].
        destruct (absorbed (kill_error t)); simpl; [|reflexivity].
        intros H; split_in H; exfalso; apply (Hq TerminateSignal Q H).
Qed.

(** An [OSError] that leaves [close_terminal] was raised by one of the
    three steps with an [errno] the clause does not absorb, or by
    [communicate]. *)
Lemma close_terminal_raises_only_unabsorbed (t : Terminal) (n : nat) (x : exn) :
  value_of (close_terminal t n) = Raise x ->
  exists e, x = OSError e /\
    ((exists s, step_error t s = Some e /\ e <> ESRCH /\ e <> EACCES) \/
     communicate_error t = Some e).
Proof.
  assert (Hab : forall s e, absorbed (step_error t s) = Some e ->
            step_error t s = Some e /\ e <> ESRCH /\ e <> EACCES).
  { intros s e H. unfold absorbed in H. destruct (step_error t s) as [e'|];
      [|discriminate H]. destruct (errno_not_absorbed e') eqn:En;
      [|discriminate H]. injection H as <-. split; [reflexivity|].
    split; intros ->; discriminate En. }
  pose proof (Hab KillSignal) as Hk. pose proof (Hab ForceKill) as Hf.
  pose proof (Hab TerminateSignal) as Ht. simpl in Hk, Hf, Ht.
  unfold close_terminal. rewrite !absorbing_perform.
  generalize poll_ticks. intros ticks.
  unfold bind, poll, perform, ret, value_of.
  destruct (poll_result t n) as [c0|].
  - destruct (poll_result t (S n)) as [c1|].
    + destruct (absorbed (terminate_error t)) as [e|] eqn:Et; simpl.
      * intros H. injection H as <-. exists e. split; [reflexivity|].
        left. exists TerminateSignal. apply Ht. reflexivity.
      * destruct (communicate_error t) as [e|]; simpl; intros H;
          [|discriminate H]. injection H as <-. exists e. auto.
    + destruct (absorbed (kill_error t)) as [e|] eqn:Ek; simpl.
      * intros H. injection H as <-. exists e. split; [reflexivity|].
        left. exists ForceKill. apply Hf. reflexivity.
      * destruct (absorbed (terminate_error t)) as [e|] eqn:Et; simpl.
        -- intros H. injection H as <-. exists e. split; [reflexivity|].
           left. exists TerminateSignal. apply Ht. reflexivity.
        -- destruct (communicate_error t) as [e|]; simpl; intros H;
             [|discriminate H]. injection H as <-. exists e. auto.
  - destruct (poll_loop_returns t ticks (S n)) as (tr & n' & E & Q).
    destruct (absorbed (send_signal_error t SIGKILL)) as [e|] eqn:Es; simpl.
    + intros H. injection H as <-. exists e. split; [reflexivity|].
      left. exists KillSignal. apply Hk. reflexivity.
    + rewrite E. destruct (poll_result t n'); simpl.
      * destruct (absorbed (terminate_error t)) as [e|] eqn:Et; simpl.
        -- intros H. injection H as <-. exists e. split; [reflexivity|].
           left. exists TerminateSignal. apply Ht. reflexivity.
        -- destruct (communicate_error t) as [e|]; simpl; intros H;
             [|discriminate H]. injection H as <-. exists e. auto.
      * destruct (absorbed (kill_error t)) as [e|] eqn:Ek; simpl.
        -- intros H. injection H as <-. exists e. split; [reflexivity|].
           left. exists ForceKill. apply Hf. reflexivity.
        -- destruct (absorbed (terminate_error t)) as [e|] eqn:Et; simpl.
           ++ intros H. injection H as <-. exists e. split; [reflexivity|].
              left. exists TerminateSignal. apply Ht. reflexivity.
           ++ destruct (communicate_error t) as [e|]; simpl; intros H;
                [|discriminate H]. injection H as <-. exists e. auto.
Qed.

(** C8: at each step of the shutdown sequence (kill signal, force-kill,
    terminate signal), an [OSError] whose [errno] is [ESRCH] or [EACCES] is
    swallowed, the sequence goes on as if the call had succeeded, and an
    [OSError] with any other [errno] raised by a step that is taken leaves
    [close_terminal] as it is. *)
Theorem close_terminal_swallows_ESRCH_and_EACCES_only
    (t : Terminal) (n : nat) (s : step) (e : Z) :
  step_error t s = Some e ->
  (e = ESRCH \/ e = EACCES ->
   close_terminal t n = close_terminal (with_step_error t s None) n) /\
  (e <> ESRCH -> e <> EACCES ->
   In (step_event s) (trace_of (close_terminal t n)) ->
   value_of (close_terminal t n) = Raise (OSError e)).
Proof.
  intros He. split.
  - intros Hab. apply errno_absorbed_iff in Hab.
    apply close_terminal_ext.
    + intros k. destruct s; reflexivity.
    + intros s'. destruct s, s'; simpl in *; try reflexivity;
        rewrite He; simpl; rewrite Hab; reflexivity.
    + destruct s; reflexivity.
  - intros H1 H2. apply close_terminal_propagates; [exact He|].
    destruct (errno_not_absorbed e) eqn:En; [reflexivity|].
    apply errno_absorbed_iff in En. tauto.
Qed.

(** C8 at a subprocess that cannot be signalled ([EPERM], which is not in
    the list of the clause): the first signal ends the shutdown. *)
Lemma close_terminal_swallows_ESRCH_and_EACCES_only_witness :
  value_of (close_terminal unkillable 0%nat) = Raise (OSError EPERM).
Proof.
  apply (proj2 (close_terminal_swallows_ESRCH_and_EACCES_only
                  unkillable 0%nat KillSignal EPERM eq_refl)).
  - discriminate.
  - discriminate.
  - vm_compute. right. left. reflexivity.
Defined.

(** A subprocess that is gone is closed without an error. *)
Example close_terminal_vanished :
  value_of (close_terminal vanished 0%nat) = Ok tt.
Proof. vm_compute. reflexivity. Qed.

(** ** terminate_child_processes *)

Import Reaper.

Lemma handle_child_fate (env : PsEnv) (child : Z) (children : list Z) :
  state_of (handle_child env child children)
    = children_after (fate_of env child) child children /\
  value_of (handle_child env child children) = value_after (fate_of env child).
Proof.
  unfold handle_child, fate_of, try_except, bind, perform, emit, modify,
    state_of, value_of.
  destruct (cmdline_of env child) as [l|e]; simpl.
  - destruct (send_signal_to env child) as [[]|e]; simpl.
    + destruct (wait_for env child) as [[]|e]; simpl.
      * split; reflexivity.
      * destruct e; simpl; try (split; reflexivity).
        destruct (kill_of env child) as [[]|e]; simpl; [split; reflexivity|].
        destruct e; simpl; split; reflexivity.
    + destruct e; simpl; split; reflexivity.
  - destruct e; simpl; split; reflexivity.
Qed.

Lemma bind_run {S A B : Type} (m : M S A) (k : A -> M S B) (s : S) :
  bind m k s =
  match value_of (m s) with
  | Ok a =>
      let r := k a (state_of (m s)) in
      (trace_of (m s) ++ trace_of r, state_of r, value_of r)
  | Raise e => (trace_of (m s), state_of (m s), Raise e)
  end.
Proof.
  unfold bind, value_of, state_of, trace_of.
  destruct (m s) as [[t s'] [a|e]]; simpl; [|reflexivity].
  destruct (k a s') as [[t' s''] r]. reflexivity.
Qed.

Lemma handle_child_first_event (env : PsEnv) (child : Z) (children : list Z) :
  exists tr, trace_of (handle_child env child children) = Cmdline child :: tr.
Proof.
  unfold handle_child, try_except, bind, perform, emit, modify, trace_of.
  destruct (cmdline_of env child) as [l|e]; simpl.
  - destruct (send_signal_to env child) as [[]|e]; simpl.
    + destruct (wait_for env child) as [[]|e]; simpl.
      * eexists; reflexivity.
      * destruct e; simpl; try (eexists; reflexivity).
        destruct (kill_of env child) as [[]|e]; simpl; [eexists; reflexivity|].
        destruct e; simpl; eexists; reflexivity.
    + destruct e; simpl; eexists; reflexivity.
  - destruct e; simpl; eexists; reflexivity.
Qed.

Lemma for_each_no_escape (env : PsEnv) (l children : list Z) :
  no_escape env l ->
  value_of (for_each l (handle_child env) children) = Ok tt /\
  state_of (for_each l (handle_child env) children) = survivors env l children /\
  (forall x, In x l -> In (Cmdline x) (trace_of (for_each l (handle_child env) children))).
Proof.
  revert children. induction l as [|c l IH]; intros children Hn.
  - repeat split. intros x [].
  - assert (Hl : no_escape env l) by (intros x Hx; apply Hn; right; exact Hx).
    destruct (handle_child_fate env c children) as [Es Ev].
    destruct (handle_child_first_event env c children) as [tr Et].
    simpl for_each. rewrite bind_run, Ev.
    assert (Hc : value_after (fate_of env c) = Ok tt).
    { pose proof (Hn c (or_introl eq_refl)) as H.
      destruct (fate_of env c); try reflexivity. exfalso. apply (H e). reflexivity. }
    rewrite Hc. cbv zeta. rewrite Es.
    destruct (IH (children_after (fate_of env c) c children) Hl) as (V & St & Tr).
    unfold value_of, state_of, trace_of in *. simpl. repeat split.
    + exact V.
    + exact St.
    + intros x [<-|Hx]; apply in_or_app.
      * left. rewrite Et. left. reflexivity.
      * right. apply Tr. exact Hx.
Qed.

Lemma for_each_escapes (env : PsEnv) (before after children : list Z) (c : Z) (e : exn) :
  no_escape env before -> fate_of env c = Escapes e ->
  value_of (for_each (before ++ c :: after) (handle_child env) children) = Raise e.
Proof.
  revert children. induction before as [|b before IH]; intros children Hn Hc.
  - simpl for_each. rewrite bind_run.
    destruct (handle_child_fate env c children) as [_ Ev]. rewrite Ev, Hc.
    reflexivity.
  - simpl app. simpl for_each. rewrite bind_run.
    destruct (handle_child_fate env b children) as [Es Ev]. rewrite Ev.
    assert (Hb : value_after (fate_of env b) = Ok tt).
    { pose proof (Hn b (or_introl eq_refl)) as H.
      destruct (fate_of env b); try reflexivity. exfalso. apply (H e0). reflexivity. }
    rewrite Hb. cbv zeta. unfold value_of at 1. simpl.
    apply IH; [|exact Hc]. intros x Hx. apply Hn. right. exact Hx.
Qed.

Lemma in_remove_first (c x : Z) (l : list Z) :
  NoDup l -> (In x (remove_first c l) <-> In x l /\ x <> c).
Proof.
  induction l as [|y l IH]; simpl; intros Hd.
  - tauto.
  - inversion Hd as [|? ? Hy Hl]; subst. destruct (Z.eqb_spec c y) as [->|Hne].
    + split.
      * intros H. split; [right; exact H|]. intros ->. contradiction.
      * intros [[->|H] Hx]; [contradiction Hx; reflexivity|exact H].
    + simpl. rewrite (IH Hl). split.
      * intros [->|[H Hx]]; [split; [left; reflexivity|congruence]|tauto].
      * intros [[->|H] Hx]; [left; reflexivity|right; tauto].
Qed.

Lemma NoDup_remove_first (c : Z) (l : list Z) :
  NoDup l -> NoDup (remove_first c l).
Proof.
  induction l as [|y l IH]; simpl; intros Hd; [constructor|].
  inversion Hd as [|? ? Hy Hl]; subst. destruct (c =? y); [exact Hl|].
  constructor; [|apply IH; exact Hl].
  intros H. apply in_remove_first in H; [|exact Hl]. tauto.
Qed.

Lemma in_survivors (env : PsEnv) (l children : list Z) (x : Z) :
  NoDup children ->
  (In x (survivors env l children) <->
   In x children /\ ~ (In x l /\ fate_of env x = Dropped)).
Proof.
  revert children. induction l as [|c l IH]; intros children Hd; simpl.
  - tauto.
  - unfold survivors in IH. destruct (fate_of env c) eqn:Ec; simpl.
    + rewrite (IH children Hd). split.
      * intros [H1 H2]. split; [exact H1|]. intros [[->|H] D]; [congruence|tauto].
      * intros [H1 H2]. split; [exact H1|]. tauto.
    + rewrite (IH _ (NoDup_remove_first c children Hd)).
      rewrite (in_remove_first c x children Hd). split.
      * intros [[H1 Hx] H2]. split; [exact H1|]. intros [[->|H] D]; tauto.
      * intros [H1 H2]. split; [split; [exact H1|]|].
        -- intros ->. apply H2. split; [left; reflexivity|exact Ec].
        -- tauto.
    + rewrite (IH children Hd). split.
      * intros [H1 H2]. split; [exact H1|]. intros [[->|H] D]; [congruence|tauto].
      * intros [H1 H2]. split; [exact H1|]. tauto.
Qed.

Lemma reap_no_escape (env : PsEnv) (kids : list Z) :
  no_escape env kids ->
  exists tr, reap env kids = (tr, survivors env kids kids, Ok tt) /\
             forall x, In x kids -> In (Cmdline x) tr.
Proof.
  intros Hn. destruct (for_each_no_escape env kids kids Hn) as (V & St & Tr).
  unfold reap, bind, get.
  destruct (for_each kids (handle_child env) kids) as [[tr st] v].
  unfold value_of, state_of, trace_of in *. simpl in V, St, Tr. subst v st.
  destruct (survivors env kids kids) eqn:Es; simpl;
    (eexists; split; [reflexivity|]); intros x Hx;
    apply in_or_app; left; apply Tr; exact Hx.
Qed.

Lemma reap_escapes (env : PsEnv) (before after : list Z) (c : Z) (e : exn) :
  no_escape env before -> fate_of env c = Escapes e ->
  value_of (reap env (before ++ c :: after)) = Raise e.
Proof.
  intros Hn Hc.
  pose proof (for_each_escapes env before after (before ++ c :: after) c e Hn Hc) as V.
  unfold reap, bind, get.
  destruct (for_each _ _ _) as [[tr st] v].
  unfold value_of in *. simpl in V. subst v. reflexivity.
Qed.

Lemma exited_is_dropped (env : PsEnv) (c : Z) :
  exited_before_signal env c -> fate_of env c = Dropped.
Proof.
  unfold fate_of. intros [H|[[l H1] H2]].
  - rewrite H. reflexivity.
  - rewrite H1, H2. reflexivity.
Qed.

Lemma denied_escapes (env : PsEnv) (c : Z) :
  denied_at_signal env c -> fate_of env c = Escapes AccessDenied.
Proof.
  unfold fate_of. intros [[l H1] H2]. rewrite H1, H2. reflexivity.
Qed.

(** C10: in [terminate_child_processes], a descendant that exited between
    the enumeration and the signal is skipped: the [NoSuchProcess] is caught,
    the descendant leaves [children], every other descendant is still
    handled and the function returns; whereas a descendant psutil refuses
    to signal ends the function with [AccessDenied]. *)
Theorem reaper_skips_exited_children_and_lets_denial_through
    (env : PsEnv) (pid : Z) (kids : list Z) :
  children_of env pid = Ok kids -> NoDup kids ->
  (forall c, In c kids -> exited_before_signal env c ->
     no_escape env kids ->
     exists tr remaining,
       terminate_child_processes env pid tt = (tr, tt, Ok remaining) /\
       ~ In c remaining /\
       (forall x, In x kids -> In (Cmdline x) tr) /\
       (forall x, In x kids -> fate_of env x = Handled -> In x remaining)) /\
  (forall before c after, kids = before ++ c :: after ->
     no_escape env before -> denied_at_signal env c ->
     value_of (terminate_child_processes env pid tt) = Raise AccessDenied).
Proof.
  intros Hk Hd. split.
  - intros c Hc Hx Hn. destruct (reap_no_escape env kids Hn) as (tr & E & Tr).
    unfold terminate_child_processes, enumerate, try_except, bind, perform,
      with_local, ret. rewrite Hk, E. simpl.
    eexists _, _. split; [reflexivity|]. split; [|split].
    + rewrite in_survivors by exact Hd. intros [_ H]. apply H.
      split; [exact Hc|apply exited_is_dropped; exact Hx].
    + intros x Hin. right. rewrite app_nil_r. apply Tr. exact Hin.
    + intros x Hin Hh. rewrite in_survivors by exact Hd. split; [exact Hin|].
      intros [_ D]. congruence.
  - intros before c after -> Hn Hc.
    pose proof (reap_escapes env before after c _ Hn (denied_escapes env c Hc)) as V.
    unfold terminate_child_processes, enumerate, try_except, bind, perform,
      with_local, ret. rewrite Hk.
    destruct (reap env (before ++ c :: after)) as [[tr st] v].
    unfold value_of in *. simpl in V. subst v. reflexivity.
Qed.

Lemma two_children_distinct : NoDup [101; 102].
Proof.
  constructor.
  - intros [H|[]]. discriminate H.
  - constructor; [intros []|constructor].
Defined.

(** C10 at two descendants: with the first gone, the second is still
    handled and only the second is waited for in bulk; with the second
    out of reach, the permission error comes out. *)
Lemma reaper_skips_exited_children_and_lets_denial_through_witness :
  (exists tr remaining,
     terminate_child_processes racing_env 1 tt = (tr, tt, Ok remaining) /\
     ~ In 101 remaining /\
     (forall x, In x [101; 102] -> In (Cmdline x) tr) /\
     (forall x, In x [101; 102] -> fate_of racing_env x = Handled ->
                In x remaining)) /\
  value_of (terminate_child_processes denied_env 1 tt) = Raise AccessDenied.
Proof.
  split.
  - apply (proj1 (reaper_skips_exited_children_and_lets_denial_through
                    racing_env 1 [101; 102] eq_refl two_children_distinct) 101).
    + left. reflexivity.
    + right. split; [exists ["salt-minion"]; reflexivity|reflexivity].
    + intros x [<-|[<-|[]]] e; vm_compute; discriminate.
  - apply (proj2 (reaper_skips_exited_children_and_lets_denial_through
                    denied_env 1 [101; 102] eq_refl two_children_distinct)
             [101] 102 []).
    + reflexivity.
    + intros x [<-|[]] e; vm_compute; discriminate.
    + split; [exists ["salt-minion"]; reflexivity|reflexivity].
Defined.

Example reaper_racing_run :
  terminate_child_processes racing_env 1 tt
  = ([Enumerate 1; Cmdline 101; Log (LeftBehindChild 101);
      Signal (ToChild 101) SIGKILL;
      Cmdline 102; Log (LeftBehindChild 102); Signal (ToChild 102) SIGKILL;
      Wait (ToChild 102); Log (ProcessTerminated 102); WaitProcs [102]],
     tt, Ok [102]).
Proof. vm_compute. reflexivity. Qed.

(** ** The readiness prober *)

Import Daemon.

Ltac calm_trace :=
  repeat (apply Forall_cons; [split; reflexivity|]); try apply Forall_nil.

Lemma check_one_gentle (env : ProbeEnv) (pass : nat) (c : check) (f : Frame) :
  Forall calm (trace_of (check_one env pass c f)) /\
  self (state_of (check_one env pass c f)) = self f.
Proof.
  unfold check_one, run_manage_joined, process_output, bind, emit, modify, get,
    ret, raise, trace_of, state_of.
  destruct c as [port|name]; simpl.
  - destruct (connect_ex env pass port =? 0); simpl; split;
      try reflexivity; calm_trace.
  - destruct (salt_run (self f)); simpl; [|split; [calm_trace|reflexivity]].
    destruct (manage_joined env pass name) as [|code out err]; simpl;
      [split; [calm_trace|reflexivity]|].
    destruct (negb (out =? "")%string); simpl.
    + destruct (json_loads env out) as [j|]; simpl.
      * destruct (code =? 0); simpl; [|split; [calm_trace|reflexivity]].
        destruct (truthy j); simpl; [|split; [calm_trace|reflexivity]].
        destruct (contains j name) as [[|]|]; simpl; split;
          try reflexivity; calm_trace.
      * destruct (code =? 0); simpl; split; try reflexivity; calm_trace.
    + destruct (code =? 0); simpl; split; try reflexivity; calm_trace.
Qed.

Lemma for_each_check_gentle (env : ProbeEnv) (pass : nat) (l : list check) (f : Frame) :
  Forall calm (trace_of (for_each l (check_one env pass) f)) /\
  self (state_of (for_each l (check_one env pass) f)) = self f.
Proof.
  revert f. induction l as [|c l IH]; intros f; simpl.
  - split; [constructor|reflexivity].
  - destruct (check_one_gentle env pass c f) as [T S].
    unfold bind. destruct (check_one env pass c f) as [[t f'] [[]|e]].
    + destruct (IH f') as [T' S'].
      destruct (for_each l (check_one env pass) f') as [[t' f''] r].
      unfold trace_of, state_of in *. simpl in *. split.
      * apply Forall_app. split; assumption.
      * congruence.
    + split; assumption.
Qed.

Lemma polling_spec (env : ProbeEnv) (sleeps pass : nat) (f : Frame) :
  Forall calm (trace_of (polling env sleeps pass f)) /\
  (self (state_of (polling env sleeps pass f)) = self f \/
   (_running (self f) = true /\
    value_of (polling env sleeps pass f) = Ok tt /\
    self (state_of (polling env sleeps pass f)) = set_connectable true (self f))).
Proof.
  revert pass f. induction sleeps as [|n IH]; intros pass f.
  - simpl. unfold bind, get, emit, modify, raise. 
    destruct (_running (self f)) eqn:Er; simpl.
    + destruct (check_ports f) as [|c l] eqn:Ec; simpl.
      * split; [calm_trace|]. right. auto.
      * destruct (for_each_check_gentle env pass (as_set (c :: l)) f) as [T S].
        destruct (for_each _ _ f) as [[t f'] [[]|e]];
          unfold trace_of, state_of in *; simpl in *.
        -- split; [|left; exact S]. constructor; [split; reflexivity|].
           rewrite app_nil_r. exact T.
        -- split; [|left; exact S]. constructor; [split; reflexivity|]. exact T.
    + split; [constructor|left; reflexivity].
  - simpl. unfold bind, get, emit, modify, raise. 
    destruct (_running (self f)) eqn:Er; simpl.
    + destruct (check_ports f) as [|c l] eqn:Ec; simpl.
      * split; [calm_trace|]. right. auto.
      * destruct (for_each_check_gentle env pass (as_set (c :: l)) f) as [T S].
        destruct (for_each _ _ f) as [[t f'] [[]|e]];
          unfold trace_of, state_of in *; simpl in *.
        -- destruct (IH (Datatypes.S pass) f') as [T' S'].
           destruct (polling env n (Datatypes.S pass) f') as [[t' f''] r].
           unfold trace_of, state_of, value_of in *; simpl in *. split.
           ++ constructor; [split; reflexivity|]. apply Forall_app. split; [exact T|].
              constructor; [split; reflexivity|exact T'].
           ++ destruct S' as [S'|(R & V & S')]; [left; congruence|].
              right. rewrite S in S'. auto.
        -- split; [|left; exact S]. constructor; [split; reflexivity|]. exact T.
    + split; [constructor|left; reflexivity].
Qed.

Lemma run_sync_spec (env : ProbeEnv) (seconds : Z) (d : Daemon) :
  Forall calm (trace_of (run_sync env seconds d)) /\
  ((state_of (run_sync env seconds d) = d /\
    (value_of (run_sync env seconds d) = Ok (_connectable d) \/
     exists e, value_of (run_sync env seconds d) = Raise e)) \/
   (_running d = true /\
    value_of (run_sync env seconds d) = Ok true /\
    state_of (run_sync env seconds d) = set_connectable true d)).
Proof.
  unfold run_sync, _wait_until_running.
  destruct (polling_spec env (sleeps_within env seconds) 0
              (mkFrame d (get_check_ports d))) as [T S].
  unfold bind, emit, get, ret.
  destruct (polling env (sleeps_within env seconds) 0
              (mkFrame d (get_check_ports d))) as [[t f] [[]|e]];
    unfold trace_of, state_of, value_of in *; simpl in *.
  - split.
    + repeat (constructor; [split; reflexivity|]). apply Forall_app. split; [exact T|].
      calm_trace.
    + destruct S as [S|(R & _ & S)].
      * left. rewrite S. auto.
      * right. rewrite S. auto.
  - split.
    + repeat (constructor; [split; reflexivity|]). exact T.
    + destruct S as [S|(_ & V & _)]; [|discriminate V].
      left. split; [exact S|]. right. eauto.
Qed.

Lemma wait_until_running_spec (env : ProbeEnv) (timeout : option Z) (d : Daemon) :
  Forall calm (trace_of (wait_until_running env timeout d)) /\
  ((state_of (wait_until_running env timeout d) = d /\
    (value_of (wait_until_running env timeout d) = Ok true -> _connectable d = true)) \/
   (_running d = true /\
    value_of (wait_until_running env timeout d) = Ok true /\
    state_of (wait_until_running env timeout d) = set_connectable true d)).
Proof.
  unfold wait_until_running, bind, get.
  destruct (_connectable d) eqn:Ec; simpl.
  - split; [constructor|]. left. auto.
  - destruct timeout as [t|]; simpl.
    + destruct (run_sync_spec env (t + 1) d) as [T S]. rewrite Ec in S.
      unfold try_except.
      destruct (run_sync env (t + 1) d) as [[tr d'] [b|e]];
        unfold trace_of, state_of, value_of in *; simpl in *.
      * split; [exact T|].
        destruct S as [[S [V|[e V]]]|S]; [|discriminate V|right; exact S].
        left. split; [exact S|]. intros H. congruence.
      * destruct S as [[S _]|(_ & V & _)]; [|discriminate V].
        destruct (is_TimeoutError e); simpl.
        -- split; [rewrite app_nil_r; exact T|]. left. split; [exact S|].
           discriminate.
        -- split; [exact T|]. left. split; [exact S|]. discriminate.
    + split; [constructor|]. left. split; [reflexivity|discriminate].
Qed.

Lemma empty_checks_ready_now (env : ProbeEnv) (sleeps : nat) (d : Daemon) :
  _running d = true ->
  _wait_until_running env sleeps (mkFrame d [])
  = ([Moment; Log CheckingPorts; Moment; Moment; Log AllPortsChecked],
     mkFrame (set_connectable true d) [], Ok true).
Proof.
  intros R. unfold _wait_until_running.
  destruct sleeps; simpl; unfold bind, emit, get, modify, ret; simpl;
    rewrite R; reflexivity.
Qed.

(** C5: a daemon with no readiness check and its liveness flag set is
    declared ready on the first pass over the loop, whatever the timeout:
    the coroutine sets the connectable flag and returns [True] after three
    [gen.moment]s and two log entries, with no connection attempt, no peer
    query and no sleep. *)
Theorem empty_check_set_is_ready_on_first_pass
    (env : ProbeEnv) (t : Z) (d : Daemon) :
  get_check_ports d = [] -> is_alive d = true ->
  (forall sleeps,
     _wait_until_running env sleeps (mkFrame d (get_check_ports d))
     = ([Moment; Log CheckingPorts; Moment; Moment; Log AllPortsChecked],
        mkFrame (set_connectable true d) [], Ok true)) /\
  value_of (wait_until_running env (Some t) d) = Ok true /\
  _connectable (state_of (wait_until_running env (Some t) d)) = true /\
  Forall (fun e => probes e = false) (trace_of (wait_until_running env (Some t) d)).
Proof.
  intros Hc Ha. unfold is_alive in Ha. split.
  - intros sleeps. rewrite Hc. apply empty_checks_ready_now. exact Ha.
  - unfold wait_until_running, bind, get, try_except, run_sync.
    destruct (_connectable d) eqn:Ec; simpl.
    + repeat split; [exact Ec|constructor].
    + rewrite Hc, (empty_checks_ready_now env _ d Ha). simpl.
      repeat split. repeat constructor.
Qed.

Lemma empty_check_set_is_ready_on_first_pass_witness :
  value_of (wait_until_running deaf_env (Some 10) started_base) = Ok true.
Proof.
  apply (proj1 (proj2 (empty_check_set_is_ready_on_first_pass deaf_env 10
                         started_base eq_refl eq_refl))).
Defined.

(** C4: a wait that runs into the deadline of [run_sync] returns [False];
    it raises nothing, leaves the daemon object as it was, liveness flag
    included, and sends no signal, kill or terminate to any process. *)
Theorem timed_out_wait_is_negative_and_harmless
    (env : ProbeEnv) (t : Z) (d : Daemon) :
  _connectable d = false ->
  value_of (run_sync env (t + 1) d) = Raise TimeoutError ->
  value_of (wait_until_running env (Some t) d) = Ok false /\
  state_of (wait_until_running env (Some t) d) = d /\
  Forall (fun e => disturbs e = false)
    (trace_of (wait_until_running env (Some t) d)).
Proof.
  intros Hc Ht.
  destruct (wait_until_running_spec env (Some t) d) as [T S].
  assert (V : value_of (wait_until_running env (Some t) d) = Ok false).
  { unfold wait_until_running, bind, get, try_except. rewrite Hc. simpl.
    destruct (run_sync env (t + 1) d) as [[tr d'] v].
    unfold value_of in *. simpl in *. subst v. reflexivity. }
  split; [exact V|]. split.
  - destruct S as [[S _]|(_ & V' & _)]; [exact S|congruence].
  - eapply Forall_impl; [|exact T]. intros e [H _]. exact H.
Qed.

(** C4 at an [sshd] nothing listens to: 22 sleeps, then [False]. *)
Lemma timed_out_wait_is_negative_and_harmless_witness :
  value_of (wait_until_running deaf_env (Some 10) started_sshd) = Ok false /\
  state_of (wait_until_running deaf_env (Some 10) started_sshd) = started_sshd /\
  Forall (fun e => disturbs e = false)
    (trace_of (wait_until_running deaf_env (Some 10) started_sshd)).
Proof.
  apply (timed_out_wait_is_negative_and_harmless deaf_env 10 started_sshd).
  - reflexivity.
  - vm_compute. reflexivity.
Defined.

(** With the default [timeout=None] the sum [timeout+1] is a [TypeError]. *)
Example wait_without_timeout :
  value_of (wait_until_running deaf_env None started_sshd) = Raise TypeError.
Proof. reflexivity. Qed.

(** ** Peer queries *)

Lemma failed_query_leaves_check (env : ProbeEnv) (pass : nat) (name : string)
    (f : Frame) (sr : Script) (code : Z) (out err : string) :
  salt_run (self f) = Some sr ->
  manage_joined env pass name = QueryDone code out err ->
  code <> 0 \/ truthy (payload_of env out) = false ->
  value_of (check_one env pass (PeerName name) f) = Ok tt /\
  state_of (check_one env pass (PeerName name) f) = f /\
  In PeerQuery (trace_of (check_one env pass (PeerName name) f)) /\
  (In (Log NoValidJSON) (trace_of (check_one env pass (PeerName name) f))
   <-> code = 0).
Proof.
  intros Hs Hq Hf.
  unfold check_one, run_manage_joined, process_output, payload_of, bind, emit,
    modify, get, ret, raise, trace_of, state_of, value_of in *.
  simpl. rewrite Hs, Hq. simpl.
  destruct (negb (out =? "")%string); simpl;
    [destruct (json_loads env out) as [j|]; simpl|];
    (destruct (Z.eqb_spec code 0) as [->|Hne]; simpl;
     [try (destruct Hf as [Hf|Hf]; [contradiction Hf; reflexivity|];
           rewrite Hf; simpl)|]);
    repeat split; auto 10;
    try (intros H; repeat (destruct H as [H|H]; try discriminate H);
         try contradiction; try congruence).
Qed.

Lemma check_one_name_queries (env : ProbeEnv) (pass : nat) (name : string)
    (f : Frame) (sr : Script) :
  salt_run (self f) = Some sr ->
  In PeerQuery (trace_of (check_one env pass (PeerName name) f)).
Proof.
  intros Hs.
  unfold check_one, run_manage_joined, bind, emit, get, raise, trace_of.
  simpl. rewrite Hs.
  destruct (manage_joined env pass name) as [|code out err]; simpl; [auto|].
  destruct (process_output env out err f) as [[t f'] [[[o e] j]|x]]; simpl; auto.
  destruct (if code =? 0 then _ else _) as [[t' f''] r]. simpl. auto.
Qed.

Lemma for_each_queries (env : ProbeEnv) (pass : nat) (name : string)
    (l : list check) (f : Frame) (sr : Script) :
  salt_run (self f) = Some sr -> In (PeerName name) l ->
  In PeerQuery (trace_of (for_each l (check_one env pass) f)).
Proof.
  revert f. induction l as [|c l IH]; intros f Hs Hin; [contradiction|].
  simpl for_each. unfold bind.
  destruct c as [port|name'].
  - destruct Hin as [Hin|Hin]; [discriminate Hin|].
    destruct (check_one_gentle env pass (Port port) f) as [_ S].
    destruct (check_one env pass (Port port) f) as [[t f'] [[]|e]] eqn:E.
    + unfold state_of in S. simpl in S.
      assert (Hs' : salt_run (self f') = Some sr) by (rewrite S; exact Hs).
      pose proof (IH f' Hs' Hin) as H.
      destruct (for_each l (check_one env pass) f') as [[t' f''] r].
      unfold trace_of in *. simpl in *. apply in_or_app. right. exact H.
    + exfalso. revert E. unfold check_one, bind, emit, modify, ret.
      destruct (connect_ex env pass port =? 0); discriminate.
  - pose proof (check_one_name_queries env pass name' f sr Hs) as H.
    destruct (check_one env pass (PeerName name') f) as [[t f'] [[]|e]].
    + destruct (for_each l (check_one env pass) f') as [[t' f''] r].
      unfold trace_of in *. simpl in *. apply in_or_app. left. exact H.
    + exact H.
Qed.

Arguments as_set : simpl never.

Lemma pending_name_is_queried (env : ProbeEnv) (sleeps pass : nat) (name : string)
    (f : Frame) (sr : Script) :
  _running (self f) = true -> salt_run (self f) = Some sr ->
  In (PeerName name) (check_ports f) ->
  In PeerQuery (trace_of (polling env sleeps pass f)).
Proof.
  intros Hr Hs Hin.
  assert (Hin' : In (PeerName name) (as_set (check_ports f)))
    by (apply nodup_In; exact Hin).
  pose proof (for_each_queries env pass name _ f sr Hs Hin') as H.
  destruct (check_ports f) as [|c l] eqn:Ec; [contradiction|].
  destruct sleeps as [|n]; simpl; unfold bind, get, emit, raise;
    rewrite Hr, Ec; simpl;
    destruct (for_each (as_set (c :: l)) (check_one env pass) f)
      as [[t f'] [[]|e]]; unfold trace_of in *; simpl in *.
  - apply in_cons. rewrite app_nil_r. exact H.
  - apply in_cons. exact H.
  - destruct (polling env n (S pass) f') as [[t' f''] r]. simpl.
    right. apply in_or_app. left. exact H.
  - apply in_cons. exact H.
Qed.

(** What a failed query leaves in the trace: the runner reports an output
    that does not decode, the prober an exit with code 0. *)
Lemma failed_query_trace (env : ProbeEnv) (pass : nat) (name : string)
    (f : Frame) (sr : Script) (code : Z) (out err : string) :
  salt_run (self f) = Some sr ->
  manage_joined env pass name = QueryDone code out err ->
  code <> 0 \/ truthy (payload_of env out) = false ->
  trace_of (check_one env pass (PeerName name) f)
  = [Moment; PeerQuery; Log RunningScript]
      ++ (if negb (out =? "")%string
          then match json_loads env out with
               | Some _ => []
               | None => [Log FailedToLoadJSON]
               end
          else [])
      ++ [Moment]
      ++ (if code =? 0 then [Log NoValidJSON] else []).
Proof.
  intros Hs Hq Hf.
  unfold check_one, run_manage_joined, process_output, payload_of, bind,
    emit, modify, get, ret, raise, trace_of, state_of, value_of in *.
  simpl. rewrite Hs, Hq. simpl.
  destruct (negb (out =? "")%string); simpl;
    [destruct (json_loads env out) as [j|]; simpl|];
    (destruct (Z.eqb_spec code 0) as [->|Hne]; simpl;
     [try (destruct Hf as [Hf|Hf]; [contradiction Hf; reflexivity|];
           rewrite Hf; simpl)|]);
    reflexivity.
Qed.

Lemma failed_query_log_entries (env : ProbeEnv) (pass : nat) (name : string)
    (f : Frame) (sr : Script) (code : Z) (out err : string) :
  salt_run (self f) = Some sr ->
  manage_joined env pass name = QueryDone code out err ->
  code <> 0 \/ truthy (payload_of env out) = false ->
  (In (Log FailedToLoadJSON) (trace_of (check_one env pass (PeerName name) f))
   <-> out <> "" /\ json_loads env out = None) /\
  (forall m, In (Log m) (trace_of (check_one env pass (PeerName name) f)) ->
             m = RunningScript \/ m = FailedToLoadJSON \/ m = NoValidJSON).
Proof.
  intros Hs Hq Hf.
  rewrite (failed_query_trace env pass name f sr code out err Hs Hq Hf).
  destruct (String.eqb_spec out "") as [->|Ho]; cbn [negb];
    [|destruct (json_loads env out) as [j|]];
    destruct (code =? 0); cbn [app]; split;
    try (split;
         [intros H; repeat (destruct H as [H|H]; try discriminate H);
          try contradiction; auto
         |intros [H1 H2]; try discriminate H2;
          try (contradiction H1; reflexivity); simpl; auto 10]);
    intros m H;
    repeat (destruct H as [H|H];
            [try discriminate H; injection H as <-; auto|]);
    contradiction.
Qed.

(** C9, as stated, fails: a query that exits with code 1 and prints nothing
    leaves the check pending and raises nothing, but no entry of the log
    reports it; the only entry is the one written before the script runs. *)
Lemma nonzero_exit_query_is_not_logged :
  manage_joined deaf_env 0 "minion-1" = QueryDone 1 "" "" /\
  check_one deaf_env 0 (PeerName "minion-1") minion_frame
  = ([Moment; PeerQuery; Log RunningScript; Moment], minion_frame, Ok tt) /\
  ~ (exists m, In (Log m) (trace_of (check_one deaf_env 0 (PeerName "minion-1")
                                       minion_frame)) /\
               reports_failed_query m).
Proof.
  split; [reflexivity|]. split; [reflexivity|].
  intros (m & Hin & Hm). vm_compute in Hin.
  destruct Hm as [-> | ->];
    repeat (destruct Hin as [Hin|Hin]; try discriminate Hin); contradiction.
Qed.

(** A query that exits with code 1 and prints what does not decode is
    reported, by the runner of the script and not by the prober. *)
Example nonzero_exit_with_garbage_is_logged :
  check_one MoreSamples.garbled_env 0 (PeerName "minion-1") minion_frame
  = ([Moment; PeerQuery; Log RunningScript; Log FailedToLoadJSON; Moment],
     minion_frame, Ok tt).
Proof. reflexivity. Qed.

(** C9, amended: a peers query that exits non-zero, or that returns no
    parsed data, leaves the check in the pending set and raises nothing, and
    the check is queried again on the next pass over the loop.  It is logged
    in two cases only: the prober logs it exactly when it exits zero, and
    the runner of the script logs it exactly when its standard output is
    not empty and does not decode.  So a query that exits non-zero with an
    empty or a decodable standard output is retried with no entry of the
    log reporting it. *)
Theorem failed_peer_query_is_retried
    (env : ProbeEnv) (pass : nat) (name : string) (f : Frame) (sr : Script)
    (code : Z) (out err : string) :
  salt_run (self f) = Some sr ->
  manage_joined env pass name = QueryDone code out err ->
  code <> 0 \/ truthy (payload_of env out) = false ->
  In (PeerName name) (check_ports f) ->
  _running (self f) = true ->
  value_of (check_one env pass (PeerName name) f) = Ok tt /\
  state_of (check_one env pass (PeerName name) f) = f /\
  (In (Log NoValidJSON) (trace_of (check_one env pass (PeerName name) f))
   <-> code = 0) /\
  (In (Log FailedToLoadJSON) (trace_of (check_one env pass (PeerName name) f))
   <-> out <> "" /\ json_loads env out = None) /\
  ((exists m, In (Log m) (trace_of (check_one env pass (PeerName name) f)) /\
              reports_failed_query m)
   <-> code = 0 \/ (out <> "" /\ json_loads env out = None)) /\
  (forall sleeps pass',
     In PeerQuery
       (trace_of (polling env sleeps pass'
                    (state_of (check_one env pass (PeerName name) f))))).
Proof.
  intros Hs Hq Hf Hin Hr.
  destruct (failed_query_leaves_check env pass name f sr code out err Hs Hq Hf)
    as (V & St & _ & L).
  destruct (failed_query_log_entries env pass name f sr code out err Hs Hq Hf)
    as (U & _).
  split; [exact V|]. split; [exact St|]. split; [exact L|]. split; [exact U|].
  split.
  - split.
    + intros (m & Hm & [-> | ->]); [left; apply L; exact Hm|right; apply U; exact Hm].
    + intros [H|H].
      * exists NoValidJSON. split; [apply L; exact H|left; reflexivity].
      * exists FailedToLoadJSON. split; [apply U; exact H|right; reflexivity].
  - intros sleeps pass'. rewrite St.
    apply (pending_name_is_queried env sleeps pass' name f sr Hr Hs Hin).
Qed.

Lemma failed_peer_query_is_retried_witness :
  value_of (check_one deaf_env 0 (PeerName "minion-1") minion_frame) = Ok tt /\
  state_of (check_one deaf_env 0 (PeerName "minion-1") minion_frame)
    = minion_frame /\
  (In (Log NoValidJSON)
      (trace_of (check_one deaf_env 0 (PeerName "minion-1") minion_frame))
   <-> 1 = 0) /\
  (In (Log FailedToLoadJSON)
      (trace_of (check_one deaf_env 0 (PeerName "minion-1") minion_frame))
   <-> "" <> "" /\ json_loads deaf_env "" = None) /\
  ((exists m, In (Log m)
                (trace_of (check_one deaf_env 0 (PeerName "minion-1") minion_frame)) /\
              reports_failed_query m)
   <-> 1 = 0 \/ ("" <> "" /\ json_loads deaf_env "" = None)) /\
  (forall sleeps pass',
     In PeerQuery
       (trace_of (polling deaf_env sleeps pass'
                    (state_of (check_one deaf_env 0 (PeerName "minion-1")
                                 minion_frame))))).
Proof.
  apply (failed_peer_query_is_retried deaf_env 0 "minion-1" minion_frame
           run_script 1 "" "").
  - reflexivity.
  - reflexivity.
  - left. discriminate.
  - left. reflexivity.
  - reflexivity.
Defined.

(** ** The daemon object and the fixtures *)

Import Fixture.

Lemma wait_keeps_running (env : ProbeEnv) (timeout : option Z) (d : Daemon) :
  _running (state_of (wait_until_running env timeout d)) = _running d /\
  _process (state_of (wait_until_running env timeout d)) = _process d.
Proof.
  destruct (wait_until_running_spec env timeout d) as [_ [[S _]|(_ & _ & S)]];
    rewrite S; split; reflexivity.
Qed.

Lemma wait_true_is_connectable (env : ProbeEnv) (timeout : option Z) (d : Daemon) :
  value_of (wait_until_running env timeout d) = Ok true ->
  _connectable (state_of (wait_until_running env timeout d)) = true.
Proof.
  intros V.
  destruct (wait_until_running_spec env timeout d) as [_ [[S C]|(_ & _ & S)]];
    rewrite S; [apply C; exact V|reflexivity].
Qed.

Lemma wait_false_keeps_state (env : ProbeEnv) (timeout : option Z) (d : Daemon) :
  value_of (wait_until_running env timeout d) <> Ok true ->
  state_of (wait_until_running env timeout d) = d.
Proof.
  intros V.
  destruct (wait_until_running_spec env timeout d) as [_ [[S C]|(_ & V' & S)]];
    [exact S|contradiction].
Qed.

Lemma wait_spawnless (env : ProbeEnv) (timeout : option Z) (d : Daemon) :
  spawnless (trace_of (wait_until_running env timeout d)).
Proof.
  destruct (wait_until_running_spec env timeout d) as [T _].
  eapply Forall_impl; [|exact T]. intros e [_ H]. exact H.
Qed.

(** Traces of composed computations. *)
Lemma bind_trace {S A B : Type} (P : event -> Prop) (m : M S A) (k : A -> M S B) (s : S) :
  Forall P (trace_of (m s)) ->
  (forall a s', Forall P (trace_of (k a s'))) ->
  Forall P (trace_of (bind m k s)).
Proof.
  intros Hm Hk. unfold bind, trace_of in *.
  destruct (m s) as [[t s'] [a|e]]; simpl in *; [|exact Hm].
  specialize (Hk a s'). destruct (k a s') as [[t' s''] r]. simpl in *.
  apply Forall_app. split; assumption.
Qed.

Lemma try_except_trace {S A : Type} (P : event -> Prop) (m : M S A)
    (handles : exn -> bool) (h : exn -> M S A) (s : S) :
  Forall P (trace_of (m s)) ->
  (forall e s', Forall P (trace_of (h e s'))) ->
  Forall P (trace_of (try_except m handles h s)).
Proof.
  intros Hm Hh. unfold try_except, trace_of in *.
  destruct (m s) as [[t s'] [a|e]]; simpl in *; [exact Hm|].
  destruct (handles e); [|exact Hm].
  specialize (Hh e s'). destruct (h e s') as [[t' s''] r]. simpl in *.
  apply Forall_app. split; assumption.
Qed.

Lemma for_each_trace {S A : Type} (P : event -> Prop) (l : list A)
    (body : A -> M S unit) (s : S) :
  (forall x s', Forall P (trace_of (body x s'))) ->
  Forall P (trace_of (for_each l body s)).
Proof.
  intros Hb. revert s. induction l as [|x l IH]; intros s; simpl.
  - constructor.
  - apply bind_trace; [apply Hb|]. intros _ s'. apply IH.
Qed.

Ltac trace_steps :=
  repeat first
    [ apply bind_trace; [|intros ? ?]
    | apply try_except_trace; [|intros ? ?]
    | apply for_each_trace; intros ? ? ];
  try (unfold emit, perform, modify, ret, raise, get, put, trace_of; simpl;
       repeat constructor).

Lemma handle_child_spawnless (env : Reaper.PsEnv) (c : Z) (l : list Z) :
  spawnless (trace_of (Reaper.handle_child env c l)).
Proof. unfold spawnless, Reaper.handle_child. trace_steps. Qed.

Lemma reap_spawnless (env : Reaper.PsEnv) (l : list Z) :
  spawnless (trace_of (Reaper.reap env l)).
Proof.
  unfold spawnless, Reaper.reap. trace_steps.
  destruct a1; simpl; repeat constructor.
Qed.

Lemma terminate_spawnless (env : Reaper.PsEnv) (d : Daemon) :
  spawnless (trace_of (terminate env d)).
Proof.
  unfold spawnless, terminate. apply bind_trace; [constructor|]. intros a s'.
  destruct (_process a); [|constructor].
  unfold Reaper.enumerate. trace_steps.
  unfold with_local, trace_of.
  pose proof (reap_spawnless env a0) as H. unfold spawnless, trace_of in H.
  destruct (Reaper.reap env a0) as [[t l] [[]|e]]; exact H.
Qed.


(** [terminate] either fails before it touches the flags or clears both. *)
Lemma terminate_state (env : Reaper.PsEnv) (d : Daemon) :
  state_of (terminate env d) = d \/
  state_of (terminate env d) = set_connectable false (set_running false d).
Proof.
  unfold terminate, bind, get. simpl.
  destruct (_process d) as [pid|]; [|left; reflexivity].
  unfold Reaper.enumerate, try_except, perform, modify, emit, with_local, ret.
  destruct (Reaper.children_of env pid) as [kids|e]; simpl.
  - destruct (Reaper.reap env kids) as [[t l] [[]|e]]; right; reflexivity.
  - destruct (Reaper.is_NoSuchProcess e); simpl; [|left; reflexivity].
    destruct (Reaper.reap env []) as [[t l] [[]|e']]; right; reflexivity.
Qed.

Lemma terminate_ok_clears (env : Reaper.PsEnv) (d : Daemon) :
  value_of (terminate env d) = Ok tt ->
  state_of (terminate env d) = set_connectable false (set_running false d).
Proof.
  intros V. destruct (terminate_state env d) as [S|S]; [|exact S].
  revert V S. unfold terminate, bind, get. simpl.
  destruct (_process d) as [pid|]; [|intros V; discriminate V].
  unfold Reaper.enumerate, try_except, perform, modify, emit, with_local, ret.
  destruct (Reaper.children_of env pid) as [kids|e]; simpl.
  - destruct (Reaper.reap env kids) as [[t l] [[]|e]]; reflexivity.
  - destruct (Reaper.is_NoSuchProcess e); simpl; [|intros V; discriminate V].
    destruct (Reaper.reap env []) as [[t l] [[]|e']]; reflexivity.
Qed.

(** The process running [_start] reads the event and never writes it. *)
Lemma _start_loop_keeps_event (t : TerminalM.Terminal) (fuel : nat) (b : bool) (n : nat) :
  fst (state_of (_start_loop t fuel (b, n))) = b.
Proof.
  revert n. induction fuel as [|k IH]; intros n; simpl; [reflexivity|].
  unfold bind, get, on_snd, TerminalM.poll, emit, ret. simpl.
  destruct b; simpl; [|reflexivity].
  destruct (TerminalM.poll_result t n); simpl; [reflexivity|].
  specialize (IH (S n)).
  destruct (_start_loop t k (true, S n)) as [[tr st] r]. exact IH.
Qed.

Lemma _start_keeps_event (t : TerminalM.Terminal) (fuel : nat) (b : bool) (n : nat) :
  fst (state_of (_start t fuel (b, n))) = b.
Proof.
  unfold _start, bind, emit. simpl.
  pose proof (_start_loop_keeps_event t fuel b n) as H.
  destruct (_start_loop t fuel (b, n)) as [[tr [b' n']] [[|]|e]];
    unfold state_of in *; simpl in *; try exact H.
  unfold on_snd, ret. simpl.
  destruct (TerminalM.close_terminal t n') as [[tr' n''] [[]|e]]; exact H.
Qed.

Lemma act_invariant (a : action) (d : Daemon) :
  invariant d -> invariant (act a d).
Proof.
  unfold invariant. intros Hi. destruct a as [pid|env|env timeout|t fuel]; simpl.
  - intros _. reflexivity.
  - destruct (terminate_state env d) as [-> | ->]; [exact Hi|discriminate].
  - destruct (wait_until_running_spec env timeout d)
      as [_ [[-> _]|(R & _ & ->)]]; [exact Hi|intros _; exact R].
  - rewrite _start_keeps_event. exact Hi.
Qed.

Lemma reachable_invariant (sc : Script) (sr : option Script) (d : Daemon) :
  reachable sc sr d -> invariant d.
Proof.
  induction 1 as [|a d _ IH]; [discriminate|]. apply act_invariant. exact IH.
Qed.

Lemma act_keeps_alive (a : action) (d : Daemon) :
  is_terminate a = false -> is_alive d = true -> is_alive (act a d) = true.
Proof.
  unfold is_alive. destruct a as [pid|env|env timeout|t fuel]; simpl;
    intros Ht Ha; try discriminate Ht.
  - reflexivity.
  - rewrite (proj1 (wait_keeps_running env timeout d)). exact Ha.
  - rewrite _start_keeps_event. exact Ha.
Qed.

Lemma try_block_spawnless (a : AttemptEnv) (n : Z) (d : Daemon) :
  spawnless (trace_of (try_block a n d)).
Proof.
  unfold spawnless, try_block.
  apply bind_trace; [apply wait_spawnless|]. intros c d1.
  destruct (negb c); [|constructor].
  apply bind_trace; [apply wait_spawnless|]. intros c' d2.
  destruct (negb c'); [|constructor].
  apply bind_trace; [apply terminate_spawnless|]. intros _ d3.
  apply bind_trace; [destruct (n >=? 3); constructor|]. intros _ d4.
  constructor.
Qed.

Lemma handler_spawnless (a : AttemptEnv) (n : Z) (e : exn) (d : Daemon) :
  spawnless (trace_of (handler a n e d)).
Proof.
  unfold spawnless, handler.
  apply bind_trace; [repeat constructor|]. intros _ d1.
  apply bind_trace; [apply terminate_spawnless|]. intros _ d3.
  apply bind_trace; [destruct (n >=? 3); constructor|]. intros _ d4.
  constructor.
Qed.

Lemma attempt_spawnless (fenv : FixtureEnv) (sc : Script) (sr : option Script) (n : Z) :
  spawnless (trace_of (attempt fenv sc sr n)).
Proof.
  unfold spawnless, attempt. apply try_except_trace.
  - apply try_block_spawnless.
  - intros e d. apply handler_spawnless.
Qed.

(** What the [try] block returns, by the answers of the two waits. *)
Lemma try_block_cases (a : AttemptEnv) (n : Z) (d : Daemon) :
  let w1 := wait_until_running (first_wait a) (Some 10) d in
  let w2 := wait_until_running (second_wait a) (Some 5) (state_of w1) in
  let td := terminate (terminate_unconfirmed a) (state_of w2) in
  match value_of w1 with
  | Raise e => value_of (try_block a n d) = Raise e /\
               state_of (try_block a n d) = state_of w1
  | Ok true => value_of (try_block a n d) = Ok Next /\
               state_of (try_block a n d) = state_of w1
  | Ok false =>
      match value_of w2 with
      | Raise e => value_of (try_block a n d) = Raise e /\
                   state_of (try_block a n d) = state_of w2
      | Ok true => value_of (try_block a n d) = Ok Next /\
                   state_of (try_block a n d) = state_of w2
      | Ok false =>
          state_of (try_block a n d) = state_of td /\
          match value_of td with
          | Raise e => value_of (try_block a n d) = Raise e
          | Ok _ => value_of (try_block a n d)
                    = if n >=? 3 then Raise XFailed else Ok Continue
          end
      end
  end.
Proof.
  unfold try_block, bind. cbv zeta.
  destruct (wait_until_running (first_wait a) (Some 10) d) as [[t1 d1] [[|]|e]];
    unfold value_of, state_of; simpl; try (split; reflexivity).
  destruct (wait_until_running (second_wait a) (Some 5) d1) as [[t2 d2] [[|]|e]];
    simpl; try (split; reflexivity).
  destruct (terminate (terminate_unconfirmed a) d2) as [[t3 d3] [[]|e]];
    simpl; [|split; reflexivity].
  destruct (n >=? 3); simpl; split; reflexivity.
Qed.

Lemma handler_cases (a : AttemptEnv) (n : Z) (e : exn) (d : Daemon) :
  let td := terminate (terminate_in_handler a) d in
  state_of (handler a n e d) = state_of td /\
  match value_of td with
  | Raise e' => value_of (handler a n e d) = Raise e'
  | Ok _ => value_of (handler a n e d)
            = if n >=? 3 then Raise XFailed else Ok Continue
  end.
Proof.
  unfold handler, bind, emit. cbv zeta.
  destruct (terminate (terminate_in_handler a) d) as [[t3 d3] [[]|e']];
    unfold value_of, state_of; simpl; [|split; reflexivity].
  destruct (n >=? 3); simpl; split; reflexivity.
Qed.

Lemma try_block_next (a : AttemptEnv) (n : Z) (d : Daemon) :
  _running d = true ->
  value_of (try_block a n d) = Ok Next ->
  _running (state_of (try_block a n d)) = true /\
  _connectable (state_of (try_block a n d)) = true /\
  (value_of (wait_until_running (first_wait a) (Some 10) d) = Ok true \/
   (value_of (wait_until_running (first_wait a) (Some 10) d) = Ok false /\
    value_of (wait_until_running (second_wait a) (Some 5) d) = Ok true)).
Proof.
  intros R V. pose proof (try_block_cases a n d) as H. cbv zeta in H.
  pose proof (wait_keeps_running (first_wait a) (Some 10) d) as [K1 _].
  pose proof (wait_true_is_connectable (first_wait a) (Some 10) d) as C1.
  pose proof (wait_false_keeps_state (first_wait a) (Some 10) d) as F1.
  destruct (value_of (wait_until_running (first_wait a) (Some 10) d))
    as [[|]|e] eqn:E1.
  - destruct H as [_ S]. rewrite S, K1, R. auto.
  - assert (S1 : state_of (wait_until_running (first_wait a) (Some 10) d) = d)
      by (apply F1; discriminate).
    rewrite S1 in H.
    pose proof (wait_keeps_running (second_wait a) (Some 5) d) as [K2 _].
    pose proof (wait_true_is_connectable (second_wait a) (Some 5) d) as C2.
    destruct (value_of (wait_until_running (second_wait a) (Some 5) d))
      as [[|]|e] eqn:E2.
    + destruct H as [_ S]. rewrite S, K2, R. auto.
    + destruct H as [_ H].
      destruct (value_of (terminate _ _)); [|congruence].
      destruct (n >=? 3); congruence.
    + destruct H as [H _]. congruence.
  - destruct H as [H _]. congruence.
Qed.

Lemma try_block_last (a : AttemptEnv) (n : Z) (d : Daemon) :
  3 <= n -> value_of (try_block a n d) <> Ok Continue.
Proof.
  intros Hn. pose proof (try_block_cases a n d) as H. cbv zeta in H.
  assert (G : (n >=? 3) = true) by (apply Z.geb_le; lia).
  destruct (value_of (wait_until_running (first_wait a) (Some 10) d))
    as [[|]|e]; try (destruct H as [H _]; congruence).
  destruct (value_of (wait_until_running (second_wait a) (Some 5) _))
    as [[|]|e]; try (destruct H as [H _]; congruence).
  destruct H as [_ H]. destruct (value_of (terminate _ _)); [|congruence].
  rewrite G in H. congruence.
Qed.

Lemma handler_never_next (a : AttemptEnv) (n : Z) (e : exn) (d : Daemon) :
  value_of (handler a n e d) <> Ok Next /\
  (3 <= n -> value_of (handler a n e d) <> Ok Continue).
Proof.
  pose proof (handler_cases a n e d) as [_ H]. cbv zeta in H.
  destruct (value_of (terminate _ _)).
  - split; [destruct (n >=? 3); congruence|]. intros Hn.
    assert (G : (n >=? 3) = true) by (apply Z.geb_le; lia).
    rewrite G in H. congruence.
  - split; [congruence|intros _; congruence].
Qed.

(** [try_except] either passes the block through or runs the handler. *)
Lemma try_except_cases {S A : Type} (m : M S A) (handles : exn -> bool)
    (h : exn -> M S A) (s : S) :
  (value_of (try_except m handles h s) = value_of (m s) /\
   state_of (try_except m handles h s) = state_of (m s)) \/
  (exists e, value_of (m s) = Raise e /\ handles e = true /\
             value_of (try_except m handles h s) = value_of (h e (state_of (m s))) /\
             state_of (try_except m handles h s) = state_of (h e (state_of (m s)))).
Proof.
  unfold try_except, value_of, state_of.
  destruct (m s) as [[t s'] [a|e]]; simpl; [left; auto|].
  destruct (handles e) eqn:He; [|left; auto].
  right. exists e. destruct (h e s') as [[t' s''] r]. simpl. auto.
Qed.

Lemma attempt_next (fenv : FixtureEnv) (sc : Script) (sr : option Script) (n : Z) :
  value_of (attempt fenv sc sr n) = Ok Next ->
  _running (state_of (attempt fenv sc sr n)) = true /\
  _connectable (state_of (attempt fenv sc sr n)) = true /\
  confirms fenv sc sr n.
Proof.
  unfold attempt, confirms. cbv zeta. intros V.
  destruct (try_except_cases (try_block (attempt_env fenv n) n) (is_Exception fenv)
              (handler (attempt_env fenv n) n) (started sc sr (attempt_env fenv n)))
    as [[Ev Es]|(e & _ & _ & Ev & _)].
  - rewrite Es. rewrite Ev in V. apply try_block_next; [reflexivity|exact V].
  - rewrite Ev in V. exfalso. revert V. apply handler_never_next.
Qed.

Lemma attempt_last (fenv : FixtureEnv) (sc : Script) (sr : option Script) (n : Z) :
  3 <= n -> value_of (attempt fenv sc sr n) <> Ok Continue.
Proof.
  unfold attempt. cbv zeta. intros Hn.
  destruct (try_except_cases (try_block (attempt_env fenv n) n) (is_Exception fenv)
              (handler (attempt_env fenv n) n) (started sc sr (attempt_env fenv n)))
    as [[Ev Es]|(e & _ & _ & Ev & _)]; rewrite Ev.
  - apply try_block_last. exact Hn.
  - apply handler_never_next. exact Hn.
Qed.

Lemma attempt_confirmed (fenv : FixtureEnv) (sc : Script) (sr : option Script) (n : Z) :
  confirms fenv sc sr n -> value_of (attempt fenv sc sr n) = Ok Next.
Proof.
  unfold confirms, attempt. cbv zeta. intros C.
  set (a := attempt_env fenv n) in *. set (d := started sc sr a) in *.
  pose proof (try_block_cases a n d) as H. cbv zeta in H.
  assert (V : value_of (try_block a n d) = Ok Next).
  { destruct C as [C|[C1 C2]].
    - rewrite C in H. apply H.
    - rewrite C1 in H.
      rewrite (wait_false_keeps_state (first_wait a) (Some 10) d) in H
        by (rewrite C1; discriminate).
      rewrite C2 in H. apply H. }
  destruct (try_except_cases (try_block a n) (is_Exception fenv) (handler a n) d)
    as [[Ev _]|(e & Ev & _)]; congruence.
Qed.


Lemma retry_loop_step (fenv : FixtureEnv) (sc : Script) (sr : option Script)
    (b : nat) (n : Z) (d : Daemon) :
  n <= 3 ->
  retry_loop fenv sc sr (S b) n d =
  match value_of (attempt fenv sc sr (n + 1)) with
  | Ok Continue =>
      let r := retry_loop fenv sc sr b (n + 1)
                 (state_of (attempt fenv sc sr (n + 1))) in
      ([Spawn; AtExit] ++ trace_of (attempt fenv sc sr (n + 1)) ++ trace_of r,
       state_of r, value_of r)
  | Ok Next =>
      ([Spawn; AtExit] ++ trace_of (attempt fenv sc sr (n + 1))
         ++ [Log (RunningAfter (n + 1))],
       state_of (attempt fenv sc sr (n + 1)), Ok (Some (n + 1)))
  | Raise e =>
      ([Spawn; AtExit] ++ trace_of (attempt fenv sc sr (n + 1)),
       state_of (attempt fenv sc sr (n + 1)), Raise e)
  end.
Proof.
  intros Hn. simpl retry_loop.
  assert (L : (n <=? 3) = true) by (apply Z.leb_le; exact Hn). rewrite L.
  unfold attempt, started. cbv zeta.
  unfold bind at 1. unfold put at 1. cbv beta iota.
  unfold bind at 1. unfold start at 1.
  unfold bind, modify, emit, ret, get, is_alive, set_running, set_process, new.
  simpl.
  destruct (try_except _ _ _ _) as [[t d'] [[|]|e]];
    unfold value_of, state_of, trace_of; simpl; try reflexivity.
  destruct (retry_loop fenv sc sr b (n + 1) d') as [[t' d''] r]. reflexivity.
Qed.

Lemma spawns_app (t1 t2 : list event) :
  spawns (t1 ++ t2) = (spawns t1 + spawns t2)%nat.
Proof. unfold spawns. rewrite filter_app, length_app. reflexivity. Qed.

Lemma spawnless_spawns (t : list event) : spawnless t -> spawns t = 0%nat.
Proof.
  unfold spawnless, spawns. induction 1 as [|e t He _ IH]; [reflexivity|].
  simpl. rewrite He. exact IH.
Qed.

Lemma spawns_started (t : list event) :
  spawns (Spawn :: AtExit :: t) = S (spawns t).
Proof. reflexivity. Qed.

Arguments spawns : simpl never.

Lemma retry_loop_spec (fenv : FixtureEnv) (sc : Script) (sr : option Script)
    (b : nat) (n : Z) (d : Daemon) :
  0 <= n <= 2 -> (Z.to_nat (3 - n) <= b)%nat ->
  (spawns (trace_of (retry_loop fenv sc sr b n d)) <= Z.to_nat (3 - n))%nat /\
  value_of (retry_loop fenv sc sr b n d) <> Ok None /\
  (forall m, value_of (retry_loop fenv sc sr b n d) = Ok (Some m) ->
     n < m <= 3 /\
     _running (state_of (retry_loop fenv sc sr b n d)) = true /\
     _connectable (state_of (retry_loop fenv sc sr b n d)) = true /\
     confirms fenv sc sr m).
Proof.
  revert n d. induction b as [|b IH]; intros n d Hn Hb; [lia|].
  rewrite retry_loop_step by lia.
  pose proof (attempt_spawnless fenv sc sr (n + 1)) as Hs.
  apply spawnless_spawns in Hs.
  pose proof (attempt_next fenv sc sr (n + 1)) as Hx.
  pose proof (attempt_last fenv sc sr (n + 1)) as Hl.
  destruct (value_of (attempt fenv sc sr (n + 1))) as [[|]|e].
  - unfold trace_of at 1, value_of, state_of at 1 2. cbn [fst snd app].
    rewrite spawns_started, spawns_app, Hs. split; [change (spawns [Log (RunningAfter (n + 1))]) with 0%nat; lia|].
    split; [discriminate|].
    intros m Hm. injection Hm as <-. destruct (Hx eq_refl) as (R & C & Cf).
    split; [lia|]. auto.
  - assert (Hn' : n + 1 <= 2).
    { destruct (Z_lt_le_dec (n + 1) 3) as [H|H]; [lia|].
      exfalso. apply (Hl H). reflexivity. }
    destruct (IH (n + 1) (state_of (attempt fenv sc sr (n + 1)))) as (S1 & V1 & Y1);
      [lia|lia|].
    cbv zeta. 
    set (r := retry_loop fenv sc sr b (n + 1) (state_of (attempt fenv sc sr (n + 1)))) in *.
    unfold trace_of at 1, value_of at 1 2, state_of at 1 2. cbn [fst snd app].
    rewrite spawns_started, spawns_app, Hs.
    split; [lia|]. split; [exact V1|].
    intros m Hm. destruct (Y1 m Hm) as (Hm' & R & C & Cf).
    split; [lia|]. auto.
  - unfold trace_of at 1, value_of, state_of. cbn [fst snd app].
    rewrite spawns_started, Hs. split; [lia|]. split; [discriminate|].
    intros m Hm. discriminate Hm.
Qed.

Lemma fixture_setup_unfold (fenv : FixtureEnv) (sc : Script) (sr : option Script) :
  fixture_setup fenv sc sr =
  (Log StartingFixture :: trace_of (retry_loop fenv sc sr 4 0 (new sc sr)),
   state_of (retry_loop fenv sc sr 4 0 (new sc sr)),
   value_of (retry_loop fenv sc sr 4 0 (new sc sr))).
Proof.
  unfold fixture_setup, bind, emit.
  destruct (retry_loop fenv sc sr 4 0 (new sc sr)) as [[t d] r]. reflexivity.
Qed.





Lemma fixture_yield_is_ready (fenv : FixtureEnv) (sc : Script) (sr : option Script)
    (n : Z) :
  value_of (fixture_setup fenv sc sr) = Ok (Some n) ->
  is_alive (state_of (fixture_setup fenv sc sr)) = true /\
  _connectable (state_of (fixture_setup fenv sc sr)) = true.
Proof.
  destruct (retry_loop_spec fenv sc sr 4 0 (new sc sr)) as (_ & _ & Y);
    [lia|simpl; lia|].
  rewrite fixture_setup_unfold. cbn [value_of state_of trace_of fst snd] in *.
  intros V. destruct (Y n V) as (_ & R & C & _). unfold is_alive. auto.
Qed.

Lemma run_actions_keeps_alive (l : list action) (d : Daemon) :
  forallb (fun a => negb (is_terminate a)) l = true ->
  is_alive d = true -> is_alive (run_actions l d) = true.
Proof.
  unfold run_actions. revert d. induction l as [|a l IH]; intros d Hl Ha; simpl.
  - exact Ha.
  - simpl in Hl. apply andb_true_iff in Hl. destruct Hl as [Ht Hl].
    apply IH; [exact Hl|]. apply act_keeps_alive; [|exact Ha].
    apply negb_true_iff. exact Ht.
Qed.

(** C3: in every state a daemon object reaches, the connectable flag is
    set only if the running flag is: [start] sets the running flag before
    anything is probed, a wait on an object that is not running leaves it
    as it is, a [terminate] that returns has cleared both flags, and the
    object a fixture yields is alive and connectable. *)
Theorem ready_only_if_alive (sc : Script) (sr : option Script) (d : Daemon) :
  reachable sc sr d ->
  (_connectable d = true -> _running d = true) /\
  (forall pid, start pid d
               = ([Spawn; AtExit],
                  set_process (Some pid) (set_running true d), Ok true)) /\
  (forall env timeout,
     _running d = false ->
     state_of (wait_until_running env timeout d) = d) /\
  (forall env,
     value_of (terminate env d) = Ok tt ->
     _running (state_of (terminate env d)) = false /\
     _connectable (state_of (terminate env d)) = false) /\
  (forall fenv n,
     value_of (fixture_setup fenv sc sr) = Ok (Some n) ->
     is_alive (state_of (fixture_setup fenv sc sr)) = true /\
     _connectable (state_of (fixture_setup fenv sc sr)) = true).
Proof.
  intros Hr. split; [exact (reachable_invariant sc sr d Hr)|].
  split; [intros pid; reflexivity|]. split; [|split].
  - intros env timeout Hd.
    destruct (wait_until_running_spec env timeout d)
      as [_ [[S _]|(R & _ & _)]]; [exact S|congruence].
  - intros env V. rewrite (terminate_ok_clears env d V). split; reflexivity.
  - intros fenv n. apply fixture_yield_is_ready.
Qed.

Lemma ready_only_if_alive_witness :
  _running (act (DoWait open_env (Some 10))
              (act (DoStart 4243) (new sshd_script None))) = true.
Proof.
  apply (proj1 (ready_only_if_alive sshd_script None _
                  (reach_act _ _ (DoWait open_env (Some 10)) _
                     (reach_act _ _ (DoStart 4243) _ (reach_new _ _))))).
  vm_compute. reflexivity.
Defined.

(** C7: [start()] sets the liveness flag whatever becomes of the
    subprocess, and no sequence of calls without [terminate()] clears it:
    the process running [_start] reads the event and never writes it, so
    when the subprocess has exited, which ends its loop at the first
    [poll()], [is_alive()] still returns [True]. *)
Theorem liveness_flag_outlives_subprocess
    (pid : Z) (d : Daemon) (l : list action) :
  forallb (fun a => negb (is_terminate a)) l = true ->
  is_alive (state_of (start pid d)) = true /\
  is_alive (run_actions l (state_of (start pid d))) = true /\
  (forall t fuel n, fst (state_of (_start t fuel (true, n))) = true) /\
  (forall t fuel n code,
     TerminalM.poll_result t n = Some code ->
     _start_loop t (S fuel) (true, n) = ([Poll], (true, S n), Ok true)).
Proof.
  intros Hl. split; [reflexivity|]. split; [|split].
  - apply run_actions_keeps_alive; [exact Hl|reflexivity].
  - intros t fuel n. apply _start_keeps_event.
  - intros t fuel n code Hp. simpl.
    unfold bind, get, on_snd, TerminalM.poll, ret. simpl. rewrite Hp. reflexivity.
Qed.

Lemma liveness_flag_outlives_subprocess_witness :
  is_alive (run_actions [ChildRuns exited 5; DoWait deaf_env (Some 10)]
              (state_of (start 4243 (new sshd_script None)))) = true /\
  value_of (_start exited 5 (true, 0%nat)) = Ok true.
Proof.
  split.
  - apply (proj1 (proj2 (liveness_flag_outlives_subprocess 4243
                           (new sshd_script None)
                           [ChildRuns exited 5; DoWait deaf_env (Some 10)]
                           eq_refl))).
  - vm_compute. reflexivity.
Defined.


(* ===================================================================== *)
(** * Further properties *)
(* ===================================================================== *)

(** ** The hook that injects the after-start fixtures *)

Import Hook.

Lemma mem_In (x : string) (l : list string) : mem x l = true <-> In x l.
Proof.
  unfold mem. rewrite existsb_exists. split.
  - intros (y & Hy & E). apply String.eqb_eq in E. subst. exact Hy.
  - intros H. exists x. split; [exact H|apply String.eqb_refl].
Qed.

Lemma inject_one_extends (names : list string) (f : string) :
  exists extra, inject_one names f = names ++ extra /\
    (forall x, In x extra -> x = after_start f /\ In f names) /\
    (NoDup names -> NoDup (names ++ extra)).
Proof.
  unfold inject_one. destruct (mem f names) eqn:Ef.
  - destruct (mem (after_start f) names) eqn:Ea.
    + exists []. rewrite app_nil_r. split; [reflexivity|]. split; [intros x []|auto].
    + exists [after_start f]. split; [reflexivity|]. split.
      * intros x [<-|[]]. split; [reflexivity|apply mem_In; exact Ef].
      * intros Hn. apply NoDup_app; [exact Hn| |].
        -- repeat constructor. intros [].
        -- intros x Hx [<-|[]]. apply mem_In in Hx. congruence.
  - exists []. rewrite app_nil_r. split; [reflexivity|]. split; [intros x []|auto].
Qed.

Lemma inject_one_done (names : list string) (f : string) :
  In f names -> In (after_start f) (inject_one names f).
Proof.
  intros H. unfold inject_one. rewrite (proj2 (mem_In f names) H).
  destruct (mem (after_start f) names) eqn:Ea.
  - apply mem_In. exact Ea.
  - apply in_or_app. right. left. reflexivity.
Qed.

Lemma fold_inject_extends (fs names : list string) :
  exists extra, fold_left inject_one fs names = names ++ extra /\
    (forall x, In x extra -> exists f, In f fs /\ x = after_start f /\
                                        In f (names ++ extra)) /\
    (NoDup names -> NoDup (names ++ extra)).
Proof.
  revert names. induction fs as [|f fs IH]; intros names; simpl.
  - exists []. rewrite app_nil_r. split; [reflexivity|]. split; [intros x []|auto].
  - destruct (inject_one_extends names f) as (e1 & E1 & H1 & N1).
    destruct (IH (inject_one names f)) as (e2 & E2 & H2 & N2).
    exists (e1 ++ e2). rewrite E2, E1, <- app_assoc. split; [reflexivity|].
    rewrite E1, <- app_assoc in H2. rewrite E1, <- app_assoc in N2. split.
    + intros x Hx. apply in_app_or in Hx. destruct Hx as [Hx|Hx].
      * destruct (H1 x Hx) as (-> & Hf). exists f.
        split; [left; reflexivity|]. split; [reflexivity|].
        apply in_or_app. left. exact Hf.
      * destruct (H2 x Hx) as (g & Hg & -> & Hin). exists g.
        split; [right; exact Hg|]. auto.
    + intros Hn. apply N2. apply N1. exact Hn.
Qed.

Lemma fold_inject_keeps (fs names : list string) (x : string) :
  In x names -> In x (fold_left inject_one fs names).
Proof.
  intros H. destruct (fold_inject_extends fs names) as (e & E & _).
  rewrite E. apply in_or_app. left. exact H.
Qed.

Lemma fold_inject_done (fs names : list string) (f : string) :
  In f fs -> In f names -> In (after_start f) (fold_left inject_one fs names).
Proof.
  revert names. induction fs as [|g fs IH]; intros names Hf Hn; [contradiction|].
  simpl. destruct Hf as [->|Hf].
  - apply fold_inject_keeps. apply inject_one_done. exact Hn.
  - apply IH; [exact Hf|].
    destruct (inject_one_extends names g) as (e & E & _). rewrite E.
    apply in_or_app. left. exact Hn.
Qed.

(** A run of the hook on names where the work is done changes nothing. *)
Lemma fold_inject_fixed (fs names : list string) :
  (forall f, In f fs -> In f names -> In (after_start f) names) ->
  fold_left inject_one fs names = names.
Proof.
  induction fs as [|g fs IH]; intros H; simpl; [reflexivity|].
  assert (E : inject_one names g = names).
  { unfold inject_one. destruct (mem g names) eqn:Eg; [|reflexivity].
    rewrite (proj2 (mem_In _ _) (H g (or_introl eq_refl) (proj1 (mem_In _ _) Eg))).
    reflexivity. }
  rewrite E. apply IH. intros f Hf. apply H. right. exact Hf.
Qed.

Lemma after_start_not_injected (f g : string) :
  In f injected -> In g injected -> after_start f <> g.
Proof.
  unfold injected. intros Hf Hg.
  repeat (destruct Hf as [<-|Hf]; [|]); try contradiction;
    repeat (destruct Hg as [<-|Hg]; [|]); try contradiction; discriminate.
Qed.

(** The hook only appends to [item.fixturenames]: what it appends are the
    after-start fixtures of the daemon and command fixtures the test asks
    for, each of them is there afterwards, and no name is listed twice if
    none was. *)
Theorem hook_adds_after_start_fixtures (names : list string) :
  exists extra,
    pytest_runtest_setup names = names ++ extra /\
    (forall f, In f injected -> In f names ->
               In (after_start f) (pytest_runtest_setup names)) /\
    (forall x, In x extra ->
               exists f, In f injected /\ In f names /\ x = after_start f) /\
    (NoDup names -> NoDup (pytest_runtest_setup names)).
Proof.
  unfold pytest_runtest_setup.
  destruct (fold_inject_extends injected names) as (extra & E & H & N).
  exists extra. split; [exact E|]. split; [|split].
  - intros f Hf Hn. apply fold_inject_done; assumption.
  - intros x Hx. destruct (H x Hx) as (f & Hf & -> & Hin).
    exists f. split; [exact Hf|]. split; [|reflexivity].
    apply in_app_or in Hin. destruct Hin as [Hin|Hin]; [exact Hin|].
    destruct (H f Hin) as (g & Hg & Efg & _). exfalso.
    apply (after_start_not_injected g f Hg Hf). symmetry. exact Efg.
  - intros Hn. rewrite E. apply N. exact Hn.
Qed.

(** Running the hook a second time changes nothing. *)
Theorem hook_is_idempotent (names : list string) :
  pytest_runtest_setup (pytest_runtest_setup names) = pytest_runtest_setup names.
Proof.
  unfold pytest_runtest_setup.
  destruct (fold_inject_extends injected names) as (extra & E & X & _).
  apply fold_inject_fixed. intros f Hf Hin.
  apply fold_inject_done; [exact Hf|].
  rewrite E in Hin. apply in_app_or in Hin. destruct Hin as [Hin|Hin]; [exact Hin|].
  destruct (X f Hin) as (g & Hg & Efg & _). exfalso.
  apply (after_start_not_injected g f Hg Hf). symmetry. exact Efg.
Qed.

(** A test that asks for none of the six fixtures of the tuple keeps its
    fixture names: nothing is injected for the ssh fixtures or for the
    session daemons. *)
Theorem hook_leaves_other_requests_alone (names : list string) :
  (forall f, In f injected -> ~ In f names) ->
  pytest_runtest_setup names = names.
Proof.
  intros H. unfold pytest_runtest_setup. apply fold_inject_fixed.
  intros f Hf Hin. exfalso. apply (H f Hf Hin).
Qed.

(** A test that asks for the ssh fixtures and a session daemon only. *)
Lemma hook_leaves_other_requests_alone_witness :
  pytest_runtest_setup ["salt_ssh"; "sshd_server"; "session_salt_master"]
  = ["salt_ssh"; "sshd_server"; "session_salt_master"].
Proof.
  apply hook_leaves_other_requests_alone.
  intros f Hf Hin. unfold injected in Hf.
  repeat (destruct Hf as [<-|Hf];
          [repeat (destruct Hin as [Hin|Hin]; [discriminate Hin|]); exact Hin|]).
  exact Hf.
Defined.

(** ** How long close_terminal waits *)

Import Runner.

Lemma slept_app (t1 t2 : list event) : slept (t1 ++ t2) = slept t1 + slept t2.
Proof.
  induction t1 as [|e t1 IH]; simpl; [reflexivity|].
  destruct e; try exact IH. rewrite IH. lia.
Qed.

Lemma poll_loop_bounded (t : Terminal) (ticks n : nat) :
  0 <= slept (trace_of (poll_loop t ticks n)) <= 12500 * Z.of_nat ticks /\
  (state_of (poll_loop t ticks n) <= n + ticks)%nat.
Proof.
  revert n. induction ticks as [|k IH]; intros n.
  - simpl. split; [lia|]. unfold state_of. simpl. lia.
  - simpl poll_loop. unfold bind, poll, emit.
    destruct (poll_result t n).
    + unfold trace_of, state_of. simpl. lia.
    + specialize (IH (S n)).
      destruct (poll_loop t k (S n)) as [[tr st] r].
      unfold trace_of, state_of in *. cbn [fst snd app slept] in *. lia.
Qed.

(** The loop leaves at the first poll that reports the exit. *)
Lemma poll_loop_exit (t : Terminal) (ticks n k : nat) (c : Z) :
  (k < ticks)%nat ->
  (forall j, (j < k)%nat -> poll_result t (n + j) = None) ->
  poll_result t (n + k) = Some c ->
  slept (trace_of (poll_loop t ticks n)) = 12500 * Z.of_nat k /\
  state_of (poll_loop t ticks n) = S (n + k) /\
  value_of (poll_loop t ticks n) = Ok tt.
Proof.
  revert n k. induction ticks as [|m IH]; intros n k Hk Hn Hs; [lia|].
  simpl poll_loop. unfold bind, poll, emit.
  destruct k as [|k].
  - rewrite Nat.add_0_r in Hs. rewrite Hs.
    unfold trace_of, state_of, value_of. simpl. rewrite Nat.add_0_r. auto.
  - assert (H0 : poll_result t n = None).
    { rewrite <- (Nat.add_0_r n). apply Hn. lia. }
    rewrite H0.
    destruct (IH (S n) k) as (A & B & C); [lia| | |].
    + intros j Hj. replace (S n + j)%nat with (n + S j)%nat by lia.
      apply Hn. lia.
    + replace (S n + k)%nat with (n + S k)%nat by lia. exact Hs.
    + destruct (poll_loop t m (S n)) as [[tr st] r].
      unfold trace_of, state_of, value_of in *. cbn [fst snd app slept] in *.
      split; [lia|]. split; [lia|exact C].
Qed.

(** A process that never exits is polled through all the ticks. *)
Lemma poll_loop_exhausted (t : Terminal) (ticks n : nat) :
  (forall j, (j < ticks)%nat -> poll_result t (n + j) = None) ->
  slept (trace_of (poll_loop t ticks n)) = 12500 * Z.of_nat ticks /\
  state_of (poll_loop t ticks n) = (n + ticks)%nat /\
  value_of (poll_loop t ticks n) = Ok tt.
Proof.
  revert n. induction ticks as [|m IH]; intros n Hn.
  - unfold trace_of, state_of, value_of. simpl. rewrite Nat.add_0_r. auto.
  - simpl poll_loop. unfold bind, poll, emit.
    assert (H0 : poll_result t n = None).
    { rewrite <- (Nat.add_0_r n). apply Hn. lia. }
    rewrite H0.
    destruct (IH (S n)) as (A & B & C).
    + intros j Hj. replace (S n + j)%nat with (n + S j)%nat by lia.
      apply Hn. lia.
    + destruct (poll_loop t m (S n)) as [[tr st] r].
      unfold trace_of, state_of, value_of in *. cbn [fst snd app slept] in *.
      split; [lia|]. split; [lia|exact C].
Qed.

(** [close_terminal] sleeps for 5 seconds at most, in all, and calls
    [poll()] 402 times at most. *)
Theorem close_terminal_waits_at_most_five_seconds (t : Terminal) (n : nat) :
  0 <= slept (trace_of (close_terminal t n)) <= 5000000 /\
  (state_of (close_terminal t n) <= n + 402)%nat.
Proof.
  pose proof (poll_loop_bounded t poll_ticks (S n)) as H.
  unfold close_terminal. rewrite !absorbing_perform.
  change (12500 * Z.of_nat poll_ticks) with 5000000 in H.
  change (S n + poll_ticks)%nat with (S n + 400)%nat in H.
  generalize dependent poll_ticks. intros ticks H.
  unfold bind, poll, perform, ret, trace_of, state_of in *.
  destruct (poll_result t n) as [c0|].
  - destruct (poll_result t (S n)) as [c1|].
    + destruct (absorbed (terminate_error t)), (communicate_error t); simpl; lia.
    + destruct (absorbed (kill_error t)), (absorbed (terminate_error t)),
        (communicate_error t); simpl; lia.
  - destruct (absorbed (send_signal_error t SIGKILL)); simpl; [lia|].
    destruct (poll_loop t ticks (S n)) as [[tr n'] [[]|e]]; simpl in *; [|lia].
    destruct (poll_result t n'); simpl.
    + destruct (absorbed (terminate_error t)), (communicate_error t); simpl;
        rewrite ?slept_app; simpl; lia.
    + destruct (absorbed (kill_error t)), (absorbed (terminate_error t)),
        (communicate_error t); simpl; rewrite ?slept_app; simpl; lia.
Qed.

(** When [close_terminal] returns, the last two things it did are
    [terminal.terminate()] and [terminal.communicate()]. *)
Theorem close_terminal_reaps_when_it_returns (t : Terminal) (n : nat) :
  value_of (close_terminal t n) = Ok tt ->
  exists before,
    trace_of (close_terminal t n) = before ++ [Terminate ToTerminal; Communicate].
Proof.
  unfold close_terminal. rewrite !absorbing_perform.
  generalize poll_ticks. intros ticks.
  unfold bind, poll, perform, ret, trace_of, value_of.
  destruct (poll_result t n) as [c0|].
  - destruct (poll_result t (S n)) as [c1|].
    + destruct (absorbed (terminate_error t)), (communicate_error t); simpl;
        intros H; try discriminate H. exists [Poll; Poll]. reflexivity.
    + destruct (absorbed (kill_error t)), (absorbed (terminate_error t)),
        (communicate_error t); simpl; intros H; try discriminate H.
      exists [Poll; Poll; Kill ToTerminal]. reflexivity.
  - destruct (absorbed (send_signal_error t SIGKILL)); simpl;
      [intros H; discriminate H|].
    destruct (poll_loop_returns t ticks (S n)) as (tr & n' & E & _). rewrite E.
    destruct (poll_result t n'); simpl.
    + destruct (absorbed (terminate_error t)), (communicate_error t); simpl;
        intros H; try discriminate H.
      exists (Poll :: Signal ToTerminal SIGKILL :: tr ++ [Poll]).
      simpl. rewrite <- app_assoc. reflexivity.
    + destruct (absorbed (kill_error t)), (absorbed (terminate_error t)),
        (communicate_error t); simpl; intros H; try discriminate H.
      exists (Poll :: Signal ToTerminal SIGKILL :: tr ++ [Poll; Kill ToTerminal]).
      simpl. rewrite <- app_assoc. reflexivity.
Qed.

Lemma quiet_no_kill (tr : list event) :
  Forall quiet tr -> ~ In (Kill ToTerminal) tr.
Proof. intros Q. exact (quiet_not_step tr ForceKill Q). Qed.

(** When the process exits [k] ticks after the kill signal, the wait ends
    after [k] sleeps of 12.5 ms and [terminal.kill()] is not called. *)
Theorem close_terminal_stops_waiting_at_exit
    (t : Terminal) (n k : nat) (c c' : Z) :
  poll_result t n = None ->
  absorbed (send_signal_error t SIGKILL) = None ->
  (k < 400)%nat ->
  (forall j, (j < k)%nat -> poll_result t (S n + j) = None) ->
  poll_result t (S n + k) = Some c ->
  poll_result t (S (S n + k)) = Some c' ->
  slept (trace_of (close_terminal t n)) = 12500 * Z.of_nat k /\
  ~ In (Kill ToTerminal) (trace_of (close_terminal t n)).
Proof.
  intros H0 Hs Hk Hn Hc Hc'.
  destruct (poll_loop_exit t poll_ticks (S n) k c Hk Hn Hc) as (Sl & St & V).
  destruct (poll_loop_returns t poll_ticks (S n)) as (tr & n' & E & Q).
  rewrite E in Sl, St. unfold trace_of, state_of in Sl, St. simpl in Sl, St.
  subst n'.
  unfold close_terminal. rewrite !absorbing_perform.
  generalize dependent poll_ticks. intros ticks _ E.
  unfold bind, poll, perform, ret, trace_of.
  simpl in Hc'. rewrite H0, Hs. simpl. rewrite E, Hc'. simpl.
  pose proof (quiet_no_kill tr Q) as NK.
  destruct (absorbed (terminate_error t)), (communicate_error t); simpl;
    rewrite ?slept_app; simpl; (split; [lia|]);
    intros [H|[H|H]]; try discriminate H;
    apply in_app_or in H; destruct H as [H|H]; try (apply (NK H));
    simpl in H; repeat (destruct H as [H|H]; try discriminate H); contradiction.
Qed.

(** When the process never exits, the wait lasts the full 5 seconds and
    [terminal.kill()] is called. *)
Theorem close_terminal_escalates_after_five_seconds (t : Terminal) (n : nat) :
  (forall j, poll_result t j = None) ->
  absorbed (send_signal_error t SIGKILL) = None ->
  slept (trace_of (close_terminal t n)) = 5000000 /\
  In (Kill ToTerminal) (trace_of (close_terminal t n)).
Proof.
  intros Hp Hs.
  destruct (poll_loop_exhausted t poll_ticks (S n)) as (Sl & St & V);
    [intros j _; apply Hp|].
  destruct (poll_loop_returns t poll_ticks (S n)) as (tr & n' & E & Q).
  rewrite E in Sl, St. unfold trace_of, state_of in Sl, St. simpl in Sl, St.
  change (12500 * Z.of_nat poll_ticks) with 5000000 in Sl.
  unfold close_terminal. rewrite !absorbing_perform.
  generalize dependent poll_ticks. intros ticks _ _ E.
  unfold bind, poll, perform, ret, trace_of.
  rewrite (Hp n), Hs. simpl. rewrite E, (Hp n'). simpl.
  destruct (absorbed (kill_error t)), (absorbed (terminate_error t)),
    (communicate_error t); simpl; rewrite ?slept_app; simpl;
    (split; [lia|]); right; right; apply in_or_app; right; simpl; auto.
Qed.

Import MoreSamples.

Lemma close_terminal_reaps_when_it_returns_witness :
  exists before,
    trace_of (close_terminal vanished 0%nat)
    = before ++ [Terminate ToTerminal; Communicate].
Proof.
  apply close_terminal_reaps_when_it_returns. vm_compute. reflexivity.
Defined.

Lemma close_terminal_stops_waiting_at_exit_witness :
  slept (trace_of (close_terminal dies_after_kill 0%nat)) = 12500 * Z.of_nat 2 /\
  ~ In (Kill ToTerminal) (trace_of (close_terminal dies_after_kill 0%nat)).
Proof.
  apply (close_terminal_stops_waiting_at_exit dies_after_kill 0 2 (-9) (-9)).
  - reflexivity.
  - reflexivity.
  - lia.
  - intros j Hj. destruct j as [|[|j]]; [reflexivity|reflexivity|lia].
  - reflexivity.
  - reflexivity.
Defined.

Lemma close_terminal_escalates_after_five_seconds_witness :
  slept (trace_of (close_terminal stubborn 0%nat)) = 5000000 /\
  In (Kill ToTerminal) (trace_of (close_terminal stubborn 0%nat)).
Proof.
  apply close_terminal_escalates_after_five_seconds.
  - intros j. reflexivity.
  - reflexivity.
Defined.

Import Eff Reaper Observations Samples MoreSamples.

(** ** More on terminate_child_processes *)

(** When the parent is gone, there is nothing to do; any other failure to
    list the descendants comes out, and no process is touched. *)
Theorem reaper_without_parent (env : PsEnv) (pid : Z) (e : exn) :
  children_of env pid = Raise e ->
  terminate_child_processes env pid tt
  = ([Enumerate pid], tt, if is_NoSuchProcess e then Ok [] else Raise e).
Proof.
  intros H. unfold terminate_child_processes, enumerate, try_except, bind,
    perform, with_local, ret. rewrite H.
  destruct (is_NoSuchProcess e); reflexivity.
Qed.

Lemma reaper_without_parent_witness :
  terminate_child_processes orphaned_env 7 tt = ([Enumerate 7], tt, Ok []).
Proof. apply (reaper_without_parent orphaned_env 7 NoSuchProcess eq_refl). Defined.

Lemma for_each_trace_in {S A : Type} (P : event -> Prop) (l : list A)
    (body : A -> M S unit) (s : S) :
  (forall x s', In x l -> Forall P (trace_of (body x s'))) ->
  Forall P (trace_of (for_each l body s)).
Proof.
  revert s. induction l as [|x l IH]; intros s Hb; simpl.
  - constructor.
  - apply bind_trace; [apply Hb; left; reflexivity|]. intros _ s'.
    apply IH. intros y s'' Hy. apply Hb. right. exact Hy.
Qed.

Ltac touch :=
  repeat (apply Forall_cons;
          [simpl; first [exact I | split; [reflexivity|]; eauto | eauto]|]);
  try apply Forall_nil.

Lemma handle_child_touches (env : PsEnv) (kids : list Z) (c : Z) (l : list Z) :
  In c kids -> Forall (touches_only kids) (trace_of (handle_child env c l)).
Proof.
  intros Hc. unfold handle_child.
  repeat first
    [ apply bind_trace; [|intros ? ?]
    | apply try_except_trace; [|intros ? ?] ];
    unfold emit, perform, modify, ret, raise, trace_of; simpl; touch.
Qed.

Lemma tcp_unfold (env : PsEnv) (pid : Z) (kids : list Z) :
  children_of env pid = Ok kids ->
  terminate_child_processes env pid tt
  = ([Enumerate pid] ++ trace_of (reap env kids), tt,
     match value_of (reap env kids) with
     | Ok _ => Ok (state_of (reap env kids))
     | Raise e => Raise e
     end).
Proof.
  intros H. unfold terminate_child_processes, enumerate, try_except, bind,
    perform, with_local, ret. rewrite H.
  destruct (reap env kids) as [[t l] [[]|e]];
    unfold trace_of, state_of, value_of; simpl; rewrite ?app_nil_r; reflexivity.
Qed.

Lemma reap_unfold (env : PsEnv) (kids : list Z) :
  trace_of (reap env kids)
  = trace_of (for_each kids (handle_child env) kids)
    ++ match value_of (for_each kids (handle_child env) kids) with
       | Ok _ =>
           match state_of (for_each kids (handle_child env) kids) with
           | [] => []
           | ch => [WaitProcs ch]
           end
       | Raise _ => []
       end.
Proof.
  unfold reap, bind, get.
  destruct (for_each kids (handle_child env) kids) as [[t l] [[]|e]];
    unfold trace_of, state_of, value_of; simpl.
  - destruct l; simpl; reflexivity.
  - rewrite app_nil_r. reflexivity.
Qed.

(** The function reaches the listed descendants only, and only with
    [SIGKILL], [kill()] and waits: never the parent, never a [terminate()]. *)
Theorem reaper_touches_descendants_only (env : PsEnv) (pid : Z) (kids : list Z) :
  children_of env pid = Ok kids ->
  Forall (touches_only kids) (trace_of (terminate_child_processes env pid tt)).
Proof.
  intros H. rewrite (tcp_unfold env pid kids H). unfold trace_of at 1. simpl.
  constructor; [exact I|]. rewrite reap_unfold. apply Forall_app. split.
  - apply for_each_trace_in. intros x s' Hx. apply handle_child_touches. exact Hx.
  - destruct (value_of _); [|constructor].
    destruct (state_of _); touch.
Qed.

Lemma reaper_touches_descendants_only_witness :
  Forall (touches_only [101; 102])
    (trace_of (terminate_child_processes lingering_env 1 tt)).
Proof.
  apply (reaper_touches_descendants_only lingering_env 1 [101; 102] eq_refl).
Defined.

Lemma handle_child_trace_any (env : PsEnv) (c : Z) (l l' : list Z) :
  trace_of (handle_child env c l) = trace_of (handle_child env c l').
Proof.
  unfold handle_child, try_except, bind, perform, emit, modify, trace_of.
  destruct (cmdline_of env c) as [x|e]; simpl.
  - destruct (send_signal_to env c) as [[]|e]; simpl.
    + destruct (wait_for env c) as [[]|e]; simpl; [reflexivity|].
      destruct e; simpl; try reflexivity.
      destruct (kill_of env c) as [[]|e]; simpl; [reflexivity|].
      destruct e; reflexivity.
    + destruct e; reflexivity.
  - destruct e; reflexivity.
Qed.

Lemma for_each_includes (env : PsEnv) (l children : list Z) (c : Z) :
  no_escape env l -> In c l ->
  incl (trace_of (handle_child env c []))
       (trace_of (for_each l (handle_child env) children)).
Proof.
  revert children. induction l as [|x l IH]; intros children Hn Hc; [contradiction|].
  assert (Hl : no_escape env l) by (intros y Hy; apply Hn; right; exact Hy).
  destruct (handle_child_fate env x children) as [Es Ev].
  assert (Hx : value_after (fate_of env x) = Ok tt).
  { pose proof (Hn x (or_introl eq_refl)) as H.
    destruct (fate_of env x); try reflexivity. exfalso. apply (H e). reflexivity. }
  simpl for_each. rewrite bind_run, Ev, Hx. cbv zeta.
  unfold trace_of at 2. cbn [fst].
  intros ev Hev. apply in_or_app. destruct Hc as [<-|Hc].
  - left. rewrite (handle_child_trace_any env x children []). exact Hev.
  - right. apply (IH _ Hl Hc). exact Hev.
Qed.

(** A descendant that is still there after the wait of 5 seconds is sent
    [kill()], stays in [children], and is waited for with the others. *)
Theorem reaper_kills_child_that_outlives_wait
    (env : PsEnv) (pid : Z) (kids : list Z) (c : Z) :
  children_of env pid = Ok kids -> NoDup kids -> no_escape env kids ->
  In c kids ->
  (exists l, cmdline_of env c = Ok l) ->
  send_signal_to env c = Ok tt ->
  wait_for env c = Raise TimeoutExpired ->
  kill_of env c = Ok tt ->
  exists tr remaining,
    terminate_child_processes env pid tt = (tr, tt, Ok remaining) /\
    In (Kill (ToChild c)) tr /\ In c remaining /\ In (WaitProcs remaining) tr.
Proof.
  intros Hk Hd Hn Hc [l Hl] Hs Hw Hkill.
  assert (Hf : fate_of env c = Handled).
  { unfold fate_of. rewrite Hl, Hs, Hw, Hkill. reflexivity. }
  assert (Ht : In (Kill (ToChild c)) (trace_of (handle_child env c []))).
  { unfold handle_child, try_except, bind, perform, emit, modify, trace_of.
    rewrite Hl, Hs, Hw, Hkill. simpl. auto 10. }
  destruct (for_each_no_escape env kids kids Hn) as (V & St & _).
  pose proof (for_each_includes env kids kids c Hn Hc _ Ht) as Hin.
  assert (Hr : In c (survivors env kids kids)).
  { apply in_survivors; [exact Hd|]. split; [exact Hc|]. intros [_ D]. congruence. }
  rewrite (tcp_unfold env pid kids Hk).
  assert (Vr : value_of (reap env kids) = Ok tt /\
               state_of (reap env kids) = survivors env kids kids).
  { unfold reap, bind, get.
    destruct (for_each kids (handle_child env) kids) as [[t st] v].
    unfold value_of, state_of in *. simpl in V, St. subst v st.
    destruct (survivors env kids kids); simpl; auto. }
  destruct Vr as [Vr Sr]. rewrite Vr, Sr.
  eexists _, _. split; [reflexivity|]. rewrite reap_unfold, V, St.
  split; [|split; [exact Hr|]].
  - simpl. right. apply in_or_app. left. exact Hin.
  - simpl. right. apply in_or_app. right.
    destruct (survivors env kids kids); [contradiction|]. left. reflexivity.
Qed.

Lemma reaper_kills_child_that_outlives_wait_witness :
  exists tr remaining,
    terminate_child_processes lingering_env 1 tt = (tr, tt, Ok remaining) /\
    In (Kill (ToChild 102)) tr /\ In 102 remaining /\
    In (WaitProcs remaining) tr.
Proof.
  apply (reaper_kills_child_that_outlives_wait lingering_env 1 [101; 102] 102
           eq_refl two_children_distinct).
  - intros x [<-|[<-|[]]] e; vm_compute; discriminate.
  - right. left. reflexivity.
  - exists ["salt-minion"]. reflexivity.
  - reflexivity.
  - reflexivity.
  - reflexivity.
Defined.

Import Eff Py Shell Scripts Daemon Runner Samples MoreSamples Observations.

(** ** More on the daemon object *)

Lemma act_keeps_unstarted (a : action) (d : Daemon) :
  is_start a = false -> _process d = None -> _process (act a d) = None.
Proof.
  destruct a as [pid|env|env timeout|t fuel]; simpl; intros Ha Hp;
    try discriminate Ha.
  - unfold terminate, bind, get. simpl. rewrite Hp. exact Hp.
  - rewrite (proj2 (wait_keeps_running env timeout d)). exact Hp.
  - exact Hp.
Qed.

(** [terminate()] on an object that was never started fails on
    [self._process.pid] and changes nothing. *)
Theorem terminate_before_start_raises
    (sc : Script) (sr : option Script) (l : list action) (env : Reaper.PsEnv) :
  forallb (fun a => negb (is_start a)) l = true ->
  terminate env (run_actions l (new sc sr))
  = ([], run_actions l (new sc sr), Raise AttributeError).
Proof.
  intros Hl.
  assert (Hp : _process (run_actions l (new sc sr)) = None).
  { unfold run_actions. generalize (new sc sr) (eq_refl : _process (new sc sr) = None).
    induction l as [|a l IH]; intros d Hd; simpl; [exact Hd|].
    simpl in Hl. apply andb_true_iff in Hl. destruct Hl as [Ha Hl].
    apply IH; [exact Hl|]. apply act_keeps_unstarted; [|exact Hd].
    apply negb_true_iff. exact Ha. }
  unfold terminate, bind, get. simpl. rewrite Hp. reflexivity.
Qed.

Lemma terminate_before_start_raises_witness :
  terminate childless
    (run_actions [DoWait deaf_env (Some 1); DoTerminate childless]
       (new sshd_script None))
  = ([], run_actions [DoWait deaf_env (Some 1); DoTerminate childless]
           (new sshd_script None), Raise AttributeError).
Proof.
  apply (terminate_before_start_raises sshd_script None
           [DoWait deaf_env (Some 1); DoTerminate childless] childless).
  reflexivity.
Defined.

(** Only [terminate()] clears the connectable flag. *)
Lemma act_keeps_connectable (a : action) (d : Daemon) :
  is_terminate a = false -> _connectable d = true -> _connectable (act a d) = true.
Proof.
  destruct a as [pid|env|env timeout|t fuel]; simpl; intros Ht Hc;
    try discriminate Ht.
  - exact Hc.
  - destruct (wait_until_running_spec env timeout d) as [_ [[S _]|(_ & _ & S)]];
      rewrite S; [exact Hc|reflexivity].
  - exact Hc.
Qed.

Lemma run_actions_keeps_connectable (l : list action) (d : Daemon) :
  forallb (fun a => negb (is_terminate a)) l = true ->
  _connectable d = true -> _connectable (run_actions l d) = true.
Proof.
  unfold run_actions. revert d. induction l as [|a l IH]; intros d Hl Hc; simpl.
  - exact Hc.
  - simpl in Hl. apply andb_true_iff in Hl. destruct Hl as [Ht Hl].
    apply IH; [exact Hl|]. apply act_keeps_connectable; [|exact Hc].
    apply negb_true_iff. exact Ht.
Qed.

(** Once a wait has returned [True], every later wait returns [True] at
    once, until [terminate()] is called: whatever else happens to the
    object in between (a [start()], other waits, the child process
    running), nothing is probed, and even [timeout=None] is no error. *)
Theorem wait_is_immediate_once_ready
    (env : ProbeEnv) (timeout : option Z) (d : Daemon) (l : list action) :
  value_of (wait_until_running env timeout d) = Ok true ->
  forallb (fun a => negb (is_terminate a)) l = true ->
  forall env' timeout',
    wait_until_running env' timeout'
      (run_actions l (state_of (wait_until_running env timeout d)))
    = ([], run_actions l (state_of (wait_until_running env timeout d)), Ok true).
Proof.
  intros V Hl env' timeout'.
  pose proof (wait_true_is_connectable env timeout d V) as C.
  pose proof (run_actions_keeps_connectable l _ Hl C) as C'.
  unfold wait_until_running at 1. unfold bind, get. simpl. rewrite C'. reflexivity.
Qed.

Lemma wait_is_immediate_once_ready_witness :
  wait_until_running deaf_env None
    (run_actions [DoWait deaf_env (Some 1); DoStart 7; ChildRuns exited 5]
       (state_of (wait_until_running open_env (Some 10) started_sshd)))
  = ([], run_actions [DoWait deaf_env (Some 1); DoStart 7; ChildRuns exited 5]
           (state_of (wait_until_running open_env (Some 10) started_sshd)),
     Ok true).
Proof.
  apply (wait_is_immediate_once_ready open_env (Some 10) started_sshd
           [DoWait deaf_env (Some 1); DoStart 7; ChildRuns exited 5]).
  - vm_compute. reflexivity.
  - reflexivity.
Defined.

(** After a [terminate()] that returned, a wait returns [False] without a
    connection attempt, a peer query or a sleep, and changes nothing. *)
Theorem wait_after_terminate_is_negative
    (penv : Reaper.PsEnv) (env : ProbeEnv) (t : Z) (d : Daemon) :
  value_of (terminate penv d) = Ok tt ->
  wait_until_running env (Some t) (state_of (terminate penv d))
  = ([Moment; Log CheckingPorts; Moment; Log AllPortsChecked],
     state_of (terminate penv d), Ok false).
Proof.
  intros V. rewrite (terminate_ok_clears penv d V).
  unfold wait_until_running, bind, get, try_except, run_sync,
    _wait_until_running. simpl.
  destruct (sleeps_within env (t + 1)); simpl; reflexivity.
Qed.

Lemma wait_after_terminate_is_negative_witness :
  wait_until_running open_env (Some 10) (state_of (terminate childless started_sshd))
  = ([Moment; Log CheckingPorts; Moment; Log AllPortsChecked],
     state_of (terminate childless started_sshd), Ok false).
Proof.
  apply (wait_after_terminate_is_negative childless open_env 10 started_sshd).
  reflexivity.
Defined.

Lemma remove_check_incl (c : check) (l : list check) :
  incl (remove_check c l) l.
Proof.
  induction l as [|y l IH]; simpl; [intros x []|].
  destruct (check_eq_dec c y).
  - intros x Hx. right. exact Hx.
  - intros x [<-|Hx]; [left; reflexivity|right; apply IH; exact Hx].
Qed.

Lemma check_one_pending (env : ProbeEnv) (pass : nat) (c : check) (f : Frame) :
  check_ports (state_of (check_one env pass c f)) = check_ports f \/
  check_ports (state_of (check_one env pass c f)) = remove_check c (check_ports f).
Proof.
  unfold check_one, run_manage_joined, Daemon.process_output, bind, emit, modify, get,
    ret, raise, state_of.
  destruct c as [port|name]; simpl.
  - destruct (connect_ex env pass port =? 0); simpl;
      first [left; reflexivity|right; reflexivity].
  - destruct (salt_run (self f)); simpl; [|left; reflexivity].
    destruct (manage_joined env pass name) as [|code out err]; simpl;
      [left; reflexivity|].
    destruct (negb (out =? "")%string); simpl;
      [destruct (json_loads env out) as [j|]; simpl|];
      (destruct (code =? 0); simpl; [|left; reflexivity]);
      try (destruct (truthy j); simpl; [|left; reflexivity];
           destruct (contains j name) as [[|]|]; simpl);
      first [left; reflexivity|right; reflexivity].
Qed.

Lemma for_each_pending (env : ProbeEnv) (pass : nat) (l : list check) (f : Frame) :
  incl (check_ports (state_of (for_each l (check_one env pass) f))) (check_ports f).
Proof.
  revert f. induction l as [|c l IH]; intros f; simpl.
  - unfold state_of. simpl. apply incl_refl.
  - pose proof (check_one_pending env pass c f) as H.
    unfold bind. destruct (check_one env pass c f) as [[t f'] [[]|e]].
    + specialize (IH f').
      destruct (for_each l (check_one env pass) f') as [[t' f''] r].
      unfold state_of in *. simpl in *.
      eapply incl_tran; [exact IH|].
      destruct H as [-> | ->]; [apply incl_refl|apply remove_check_incl].
    + unfold state_of in *. simpl in *.
      destruct H as [-> | ->]; [apply incl_refl|apply remove_check_incl].
Qed.

Lemma polling_unfold (env : ProbeEnv) (sleeps pass : nat) (f : Frame) :
  polling env sleeps pass f =
  if _running (self f) then
    match check_ports f with
    | [] => ([Moment], mark_connectable f, Ok tt)
    | _ :: _ =>
        let r := for_each (as_set (check_ports f)) (check_one env pass) f in
        match value_of r with
        | Raise e => (Moment :: trace_of r, state_of r, Raise e)
        | Ok _ =>
            match sleeps with
            | O => (Moment :: trace_of r, state_of r, Raise TimeoutError)
            | S n =>
                let r' := polling env n (S pass) (state_of r) in
                (Moment :: trace_of r ++ Sleep 500000 :: trace_of r',
                 state_of r', value_of r')
            end
        end
    end
  else ([], f, Ok tt).
Proof.
  destruct sleeps as [|n]; simpl; unfold bind, get, emit, modify, raise;
    destruct (_running (self f)); simpl; try reflexivity;
    destruct (check_ports f) as [|c l]; simpl; try reflexivity;
    destruct (for_each (as_set (c :: l)) (check_one env pass) f)
      as [[t f'] [[]|e]]; unfold value_of, state_of, trace_of; simpl;
    rewrite ?app_nil_r; try reflexivity.
  destruct (polling env n (S pass) f') as [[t' f''] r]. reflexivity.
Qed.

(** The loop only ever takes checks out of [check_ports]. *)
Theorem pending_checks_only_shrink
    (env : ProbeEnv) (sleeps pass : nat) (f : Frame) :
  incl (check_ports (state_of (polling env sleeps pass f))) (check_ports f).
Proof.
  revert pass f. induction sleeps as [|n IH]; intros pass f;
    rewrite polling_unfold;
    pose proof (for_each_pending env pass (as_set (check_ports f)) f) as H;
    destruct (_running (self f)); try apply incl_refl;
    destruct (check_ports f) as [|c l] eqn:Ec;
    try (unfold state_of; simpl; rewrite Ec; apply incl_refl);
    cbv zeta; destruct (value_of _); try exact H.
  eapply incl_tran; [apply IH|exact H].
Qed.

Lemma wur_unfold (env : ProbeEnv) (sleeps : nat) (f : Frame) :
  _wait_until_running env sleeps f =
  match value_of (polling env sleeps 0 f) with
  | Ok _ =>
      ([Moment; Log CheckingPorts] ++ trace_of (polling env sleeps 0 f)
         ++ [Moment; Log AllPortsChecked],
       state_of (polling env sleeps 0 f),
       Ok (_connectable (self (state_of (polling env sleeps 0 f)))))
  | Raise e =>
      ([Moment; Log CheckingPorts] ++ trace_of (polling env sleeps 0 f),
       state_of (polling env sleeps 0 f), Raise e)
  end.
Proof.
  unfold _wait_until_running, bind, emit, get, ret.
  destruct (polling env sleeps 0 f) as [[t f'] [[]|e]];
    unfold value_of, state_of, trace_of; simpl; reflexivity.
Qed.

Lemma wait_unfold (env : ProbeEnv) (t : Z) (d : Daemon) :
  _connectable d = false ->
  wait_until_running env (Some t) d =
  let r := _wait_until_running env (sleeps_within env (t + 1))
             (mkFrame d (get_check_ports d)) in
  (trace_of r, self (state_of r),
   match value_of r with
   | Raise e => if is_TimeoutError e then Ok false else Raise e
   | v => v
   end).
Proof.
  intros Hc. unfold wait_until_running, bind, get, try_except, run_sync.
  simpl. rewrite Hc.
  destruct (_wait_until_running _ _ _) as [[tr f'] [b|e]];
    unfold value_of, state_of, trace_of; simpl; [reflexivity|].
  destruct (is_TimeoutError e); simpl; rewrite ?app_nil_r; reflexivity.
Qed.

Lemma polling_ready_slept (env : ProbeEnv) (sleeps pass : nat) (f : Frame) :
  check_ports f <> [] -> _connectable (self f) = false ->
  value_of (polling env sleeps pass f) = Ok tt ->
  _connectable (self (state_of (polling env sleeps pass f))) = true ->
  In (Sleep 500000) (trace_of (polling env sleeps pass f)).
Proof.
  intros Hne Hc. rewrite polling_unfold.
  destruct (_running (self f)).
  - destruct (check_ports f) as [|c l] eqn:Ec; [contradiction Hne; reflexivity|].
    cbv zeta. destruct (value_of (for_each _ _ f)); [|discriminate].
    destruct sleeps as [|n]; [discriminate|].
    intros _ _. unfold trace_of at 1. simpl. right. apply in_or_app. right.
    left. reflexivity.
  - unfold state_of, value_of. simpl. intros _ H. congruence.
Qed.

(** A daemon with readiness checks is never declared ready without a sleep
    of half a second: the pass in which its last check succeeds does not
    end the wait, the next one does. *)
Theorem readiness_with_checks_takes_a_sleep
    (env : ProbeEnv) (t : Z) (d : Daemon) :
  get_check_ports d <> [] -> _connectable d = false ->
  value_of (wait_until_running env (Some t) d) = Ok true ->
  In (Sleep 500000) (trace_of (wait_until_running env (Some t) d)).
Proof.
  intros Hne Hc. rewrite (wait_unfold env t d Hc). cbv zeta.
  rewrite wur_unfold.
  pose proof (polling_ready_slept env (sleeps_within env (t + 1)) 0
                (mkFrame d (get_check_ports d)) Hne Hc) as H.
  destruct (value_of (polling _ _ _ _)) as [[]|e].
  - unfold value_of at 1, trace_of at 1. simpl. intros V.
    injection V as V. right. right. apply in_or_app. left.
    apply H; [reflexivity|exact V].
  - unfold value_of at 1. simpl. destruct (is_TimeoutError e); discriminate.
Qed.

Lemma readiness_with_checks_takes_a_sleep_witness :
  In (Sleep 500000) (trace_of (wait_until_running open_env (Some 10) started_sshd)).
Proof.
  apply (readiness_with_checks_takes_a_sleep open_env 10 started_sshd).
  - discriminate.
  - reflexivity.
  - vm_compute. reflexivity.
Defined.

Lemma remove_check_head (c : check) (l : list check) :
  remove_check c (c :: l) = l.
Proof.
  cbn [remove_check].
  destruct (check_eq_dec c c) as [_|N]; [reflexivity|contradiction N; reflexivity].
Qed.

Lemma get_check_ports_NoDup (d : Daemon) : NoDup (get_check_ports d).
Proof.
  unfold get_check_ports, as_set.
  destruct (cls (script d)); try apply NoDup_nodup; try constructor;
    [intros []|constructor].
Qed.

(** A pass over open ports empties the list it goes through. *)
Lemma for_each_open_ports (env : ProbeEnv) (pass : nat) (l : list check) (f : Frame) :
  check_ports f = l -> Forall (open_port env pass) l ->
  value_of (for_each l (check_one env pass) f) = Ok tt /\
  state_of (for_each l (check_one env pass) f) = mkFrame (self f) [] /\
  slept (trace_of (for_each l (check_one env pass) f)) = 0.
Proof.
  revert f. induction l as [|c l IH]; intros f Hf Ho.
  - simpl. unfold value_of, state_of, trace_of. simpl.
    destruct f as [s cp]. simpl in Hf. subst cp. auto.
  - inversion Ho as [|? ? (p & -> & Hp) Hl]; subst.
    simpl for_each. unfold bind.
    assert (E : check_one env pass (Port p) f
                = ([Moment; Log (CheckingPort p); Connect p;
                    Log (PortConnectable p)],
                   mkFrame (self f) l, Ok tt)).
    { unfold check_one, bind, emit, modify, drop_check.
      rewrite Hp. cbn -[remove_check]. rewrite Hf.
      rewrite remove_check_head. reflexivity. }
    rewrite E. destruct (IH (mkFrame (self f) l) eq_refl Hl) as (V & S & Z0).
    destruct (for_each l (check_one env pass) (mkFrame (self f) l))
      as [[t' f''] r].
    unfold value_of, state_of, trace_of in *. simpl in *. auto.
Qed.

(** When every check of a running daemon is a port that accepts the
    connection in the first pass, the wait returns [True] after exactly one
    sleep of half a second, provided the timeout leaves room for one. *)
Theorem open_ports_are_confirmed_after_one_sleep
    (env : ProbeEnv) (t : Z) (d : Daemon) :
  get_check_ports d <> [] ->
  Forall (open_port env 0) (get_check_ports d) ->
  _running d = true -> _connectable d = false ->
  (1 <= sleeps_within env (t + 1))%nat ->
  value_of (wait_until_running env (Some t) d) = Ok true /\
  state_of (wait_until_running env (Some t) d) = set_connectable true d /\
  slept (trace_of (wait_until_running env (Some t) d)) = 500000.
Proof.
  intros Hne Ho Hr Hc Hs. rewrite (wait_unfold env t d Hc). cbv zeta.
  rewrite wur_unfold.
  destruct (sleeps_within env (t + 1)) as [|n]; [lia|].
  set (f := mkFrame d (get_check_ports d)).
  destruct (for_each_open_ports env 0 (get_check_ports d) f eq_refl Ho)
    as (V & S & Z0).
  assert (P : polling env (Datatypes.S n) 0 f
              = (Moment :: trace_of (for_each (get_check_ports d) (check_one env 0) f)
                   ++ Sleep 500000 :: [Moment],
                 mkFrame (set_connectable true d) [], Ok tt)).
  { rewrite polling_unfold. simpl self. rewrite Hr. simpl check_ports.
    destruct (get_check_ports d) as [|c l] eqn:El; [contradiction Hne; reflexivity|].
    unfold as_set. rewrite (nodup_fixed_point check_eq_dec).
    2:{ rewrite <- El. apply get_check_ports_NoDup. }
    cbv zeta. rewrite V, S. rewrite polling_unfold. simpl. rewrite Hr.
    reflexivity. }
  rewrite P. clear P.
  remember (trace_of (for_each (get_check_ports d) (check_one env 0) f))
    as tr eqn:Etr. clear Etr.
  cbn [value_of state_of trace_of fst snd self set_connectable _connectable].
  split; [reflexivity|]. split; [reflexivity|].
  change (Moment :: tr ++ [Sleep 500000; Moment])
    with ([Moment] ++ tr ++ [Sleep 500000; Moment]).
  rewrite !slept_app, Z0. reflexivity.
Qed.

Lemma open_ports_are_confirmed_after_one_sleep_witness :
  value_of (wait_until_running open_env (Some 10) started_sshd) = Ok true /\
  state_of (wait_until_running open_env (Some 10) started_sshd)
    = set_connectable true started_sshd /\
  slept (trace_of (wait_until_running open_env (Some 10) started_sshd)) = 500000.
Proof.
  apply (open_ports_are_confirmed_after_one_sleep open_env 10 started_sshd).
  - discriminate.
  - repeat constructor. exists 2222. split; reflexivity.
  - reflexivity.
  - reflexivity.
  - vm_compute. lia.
Defined.

Lemma check_one_port_ok (env : ProbeEnv) (pass : nat) (p : Z) (f : Frame) :
  value_of (check_one env pass (Port p) f) = Ok tt /\
  self (state_of (check_one env pass (Port p) f)) = self f /\
  slept (trace_of (check_one env pass (Port p) f)) = 0.
Proof.
  unfold check_one, bind, emit, modify, ret.
  destruct (connect_ex env pass p =? 0); unfold value_of, state_of, trace_of;
    simpl; auto.
Qed.

Lemma check_one_name_without_salt_run
    (env : ProbeEnv) (pass : nat) (n : string) (f : Frame) :
  salt_run (self f) = None ->
  check_one env pass (PeerName n) f = ([Moment], f, Raise RuntimeError).
Proof.
  intros H. unfold check_one, bind, emit, get, raise. simpl. rewrite H.
  reflexivity.
Qed.

Lemma for_each_without_salt_run
    (env : ProbeEnv) (pass : nat) (n : string) (l : list check) (f : Frame) :
  salt_run (self f) = None -> In (PeerName n) l ->
  value_of (for_each l (check_one env pass) f) = Raise RuntimeError /\
  self (state_of (for_each l (check_one env pass) f)) = self f /\
  slept (trace_of (for_each l (check_one env pass) f)) = 0.
Proof.
  revert f. induction l as [|c l IH]; intros f Hs Hin; [destruct Hin|].
  simpl for_each. unfold bind.
  destruct c as [p|m].
  - destruct (check_one_port_ok env pass p f) as (V & S & Z0).
    destruct (check_one env pass (Port p) f) as [[t f'] r].
    unfold value_of, state_of, trace_of in V, S, Z0. simpl in V, S, Z0. subst r.
    destruct Hin as [E|Hin]; [discriminate E|].
    assert (Hs' : salt_run (self f') = None) by (rewrite S; exact Hs).
    destruct (IH f' Hs' Hin) as (V' & S' & Z').
    destruct (for_each l (check_one env pass) f') as [[t' f''] r'].
    unfold value_of, state_of, trace_of in *. simpl in *.
    split; [congruence|]. split; [congruence|].
    rewrite slept_app. lia.
  - rewrite (check_one_name_without_salt_run env pass m f Hs).
    unfold value_of, state_of, trace_of. simpl. auto.
Qed.

(** A running daemon that has a minion id among its checks but no
    [salt_run] collaborator cannot be waited for: [wait_until_running]
    raises [RuntimeError] in its first pass, before any sleep and whatever
    the ports answer, and leaves the object as it was. *)
Theorem wait_without_salt_run_raises
    (env : ProbeEnv) (t : Z) (n : string) (d : Daemon) :
  In (PeerName n) (get_check_ports d) -> salt_run d = None ->
  _running d = true -> _connectable d = false ->
  value_of (wait_until_running env (Some t) d) = Raise RuntimeError /\
  state_of (wait_until_running env (Some t) d) = d /\
  slept (trace_of (wait_until_running env (Some t) d)) = 0.
Proof.
  intros Hin Hs Hr Hc. rewrite (wait_unfold env t d Hc). cbv zeta.
  rewrite wur_unfold.
  set (f := mkFrame d (get_check_ports d)).
  generalize (sleeps_within env (t + 1)). intros sleeps.
  rewrite polling_unfold. simpl self. rewrite Hr. simpl check_ports.
  destruct (get_check_ports d) as [|c l] eqn:El; [destruct Hin|].
  cbv zeta.
  assert (Hin' : In (PeerName n) (as_set (c :: l)))
    by (unfold as_set; apply nodup_In; exact Hin).
  destruct (for_each_without_salt_run env 0 n (as_set (c :: l)) f Hs Hin')
    as (V & S & Z0).
  rewrite V.
  destruct (for_each (as_set (c :: l)) (check_one env 0) f) as [[tr f'] r].
  unfold value_of, state_of, trace_of in *.
  cbn [fst snd is_TimeoutError] in *.
  split; [reflexivity|]. split; [exact S|].
  change (slept ([Moment; Log CheckingPorts] ++ [Moment] ++ tr) = 0).
  rewrite !slept_app, Z0. reflexivity.
Qed.

Lemma wait_without_salt_run_raises_witness :
  let d := set_running true (new minion_script None) in
  value_of (wait_until_running open_env (Some 10) d) = Raise RuntimeError /\
  state_of (wait_until_running open_env (Some 10) d) = d /\
  slept (trace_of (wait_until_running open_env (Some 10) d)) = 0.
Proof.
  apply (wait_without_salt_run_raises open_env 10
           (conf_id (config minion_script))
           (set_running true (new minion_script None))).
  - vm_compute. left. reflexivity.
  - reflexivity.
  - reflexivity.
  - reflexivity.
Defined.

Import Eff Py Shell Scripts TerminalM Daemon Runner Samples MoreSamples Observations.

(** The shutdown of a terminal that has exited: two polls, [terminate()]
    and, unless that raised, [communicate()]. *)
Lemma close_terminal_on_exited (t : Terminal) (n : nat) :
  poll_result t n <> None -> poll_result t (S n) <> None ->
  exists tail,
    trace_of (close_terminal t n) = [Poll; Poll; Terminate ToTerminal] ++ tail /\
    (tail = [] \/ tail = [Communicate]).
Proof.
  intros H0 H1. unfold close_terminal, bind, poll, ret, absorbing, try_except,
    perform.
  destruct (poll_result t n) as [a|]; [|contradiction H0; reflexivity].
  simpl.
  destruct (poll_result t (S n)) as [b|]; [|contradiction H1; reflexivity].
  simpl.
  destruct (terminate_error t) as [e|]; simpl.
  - unfold errno_not_absorbed.
    destruct (negb ((e =? ESRCH) || (e =? EACCES))); unfold raise, ret; simpl.
    + exists []. auto.
    + exists [Communicate]. auto.
  - exists [Communicate]. auto.
Qed.

Lemma _start_loop_step (t : Terminal) (fuel n : nat) :
  _start_loop t (S fuel) (true, n) =
  match poll_result t n with
  | None =>
      let r := _start_loop t fuel (true, S n) in
      (Poll :: Sleep 125000 :: trace_of r, state_of r, value_of r)
  | Some _ => ([Poll], (true, S n), Ok true)
  end.
Proof.
  simpl _start_loop. unfold bind, get, on_snd, poll, emit, ret. cbn [fst snd].
  destruct (poll_result t n); [reflexivity|].
  destruct (_start_loop t fuel (true, S n)) as [[tr s] r].
  reflexivity.
Qed.

Lemma _start_loop_exit (t : Terminal) (k fuel n : nat) :
  (forall i, (i < k)%nat -> poll_result t (n + i) = None) ->
  poll_result t (n + k) <> None -> (k < fuel)%nat ->
  value_of (_start_loop t fuel (true, n)) = Ok true /\
  state_of (_start_loop t fuel (true, n)) = (true, S (n + k)) /\
  slept (trace_of (_start_loop t fuel (true, n))) = 125000 * Z.of_nat k /\
  (forall e, In e (trace_of (_start_loop t fuel (true, n))) ->
             e = Poll \/ e = Sleep 125000).
Proof.
  revert fuel n. induction k as [|k IH]; intros fuel n Hn He Hf.
  - destruct fuel as [|fuel]; [lia|].
    rewrite Nat.add_0_r in *. rewrite _start_loop_step.
    destruct (poll_result t n) as [a|]; [|contradiction He; reflexivity].
    unfold value_of, state_of, trace_of. simpl.
    repeat split; try reflexivity. intros e [<-|[]]. auto.
  - destruct fuel as [|fuel]; [lia|].
    assert (H0 : poll_result t n = None).
    { specialize (Hn O ltac:(lia)). rewrite Nat.add_0_r in Hn. exact Hn. }
    assert (Hn' : forall i, (i < k)%nat -> poll_result t (S n + i) = None).
    { intros i Hi. specialize (Hn (S i) ltac:(lia)).
      rewrite Nat.add_succ_r in Hn. exact Hn. }
    assert (He' : poll_result t (S n + k) <> None).
    { rewrite Nat.add_succ_r in He. exact He. }
    destruct (IH fuel (S n) Hn' He' ltac:(lia)) as (Hv & Hs & Hz & Ha).
    rewrite _start_loop_step, H0. cbv zeta.
    destruct (_start_loop t fuel (true, S n)) as [[tr s] r].
    unfold value_of, state_of, trace_of in *. cbn [fst snd] in *.
    split; [exact Hv|]. split; [rewrite Hs, Nat.add_succ_r; reflexivity|].
    split.
    + change (slept ([Poll; Sleep 125000] ++ tr) = 125000 * Z.of_nat (S k)).
      rewrite slept_app, Hz. simpl slept. lia.
    + intros e [<-|[<-|Hin]]; auto.
Qed.

Lemma _start_unfold (t : Terminal) (fuel : nat) (st : bool * nat) :
  _start t fuel st =
  let r := _start_loop t fuel st in
  match value_of r with
  | Ok true =>
      let c := close_terminal t (snd (state_of r)) in
      ([Log StartingDaemon; Log RunningScript; AtExit] ++ trace_of r ++ trace_of c,
       (fst (state_of r), state_of c),
       match value_of c with
       | Ok _ => Ok true
       | Raise e => Raise e
       end)
  | Ok false =>
      ([Log StartingDaemon; Log RunningScript; AtExit] ++ trace_of r,
       state_of r, Ok false)
  | Raise e =>
      ([Log StartingDaemon; Log RunningScript; AtExit] ++ trace_of r,
       state_of r, Raise e)
  end.
Proof.
  unfold _start, bind, emit, on_snd, ret. cbn [fst snd app].
  destruct (_start_loop t fuel st) as [[tr s] [[|]|e]];
    unfold value_of, state_of, trace_of; cbn [fst snd];
    rewrite ?app_nil_r; try reflexivity.
  destruct (close_terminal t (snd s)) as [[tc sc] [[]|e]]; cbn [fst snd];
    rewrite ?app_nil_r; reflexivity.
Qed.

(** When the subprocess of a daemon exits by itself at the [k]-th poll while
    the running event stays set, [_start] has slept exactly [k] eighths of
    a second in its loop; closing the terminal then sends neither [SIGKILL]
    nor [kill()] and does not wait, but still calls [terminate()]. *)
Theorem child_process_follows_exit_of_subprocess
    (t : Terminal) (k fuel : nat) :
  (forall i, (i < k)%nat -> poll_result t i = None) ->
  (forall i, (k <= i)%nat -> poll_result t i <> None) ->
  (k < fuel)%nat ->
  slept (trace_of (_start t fuel (true, O))) = 125000 * Z.of_nat k /\
  ~ In (Signal ToTerminal SIGKILL) (trace_of (_start t fuel (true, O))) /\
  ~ In (Kill ToTerminal) (trace_of (_start t fuel (true, O))) /\
  In (Terminate ToTerminal) (trace_of (_start t fuel (true, O))).
Proof.
  intros Hn He Hf.
  destruct (_start_loop_exit t k fuel O Hn (He k (Nat.le_refl k)) Hf)
    as (Hv & Hs & Hz & Ha).
  rewrite _start_unfold. cbv zeta. rewrite Hv, Hs. cbn [fst snd Nat.add].
  destruct (close_terminal_on_exited t (S k)
              (He (S k) ltac:(lia)) (He (S (S k)) ltac:(lia)))
    as (tail & Tr & Tl).
  unfold trace_of in *. cbn [fst snd]. rewrite Tr.
  rewrite !slept_app, Hz.
  split.
  - destruct Tl as [-> | ->]; cbn [slept app]; lia.
  - split; [|split].
    + intros Hin. simpl in Hin.
      destruct Hin as [E|[E|[E|Hin]]]; try discriminate E.
      apply in_app_or in Hin. destruct Hin as [Hin|Hin].
      * destruct (Ha _ Hin) as [E|E]; discriminate E.
      * simpl in Hin. destruct Hin as [E|[E|[E|Hin]]]; try discriminate E.
        destruct Tl as [-> | ->]; simpl in Hin;
          [destruct Hin|destruct Hin as [E|[]]; discriminate E].
    + intros Hin. simpl in Hin.
      destruct Hin as [E|[E|[E|Hin]]]; try discriminate E.
      apply in_app_or in Hin. destruct Hin as [Hin|Hin].
      * destruct (Ha _ Hin) as [E|E]; discriminate E.
      * simpl in Hin. destruct Hin as [E|[E|[E|Hin]]]; try discriminate E.
        destruct Tl as [-> | ->]; simpl in Hin;
          [destruct Hin|destruct Hin as [E|[]]; discriminate E].
    + simpl. do 3 right. apply in_or_app. right. simpl. auto.
Qed.

Lemma child_process_follows_exit_of_subprocess_witness :
  slept (trace_of (_start dies_after_kill 10 (true, O))) = 125000 * Z.of_nat 3 /\
  ~ In (Signal ToTerminal SIGKILL) (trace_of (_start dies_after_kill 10 (true, O))) /\
  ~ In (Kill ToTerminal) (trace_of (_start dies_after_kill 10 (true, O))) /\
  In (Terminate ToTerminal) (trace_of (_start dies_after_kill 10 (true, O))).
Proof.
  apply (child_process_follows_exit_of_subprocess dies_after_kill 3 10).
  - intros i Hi. simpl. destruct (Nat.ltb_spec i 3); [reflexivity|lia].
  - intros i Hi. simpl. destruct (Nat.ltb_spec i 3); [lia|discriminate].
  - lia.
Defined.

Import Eff Py Shell Scripts Daemon Fixture Runner Samples MoreSamples Observations.

(** ** More on the daemon fixtures *)

(** A pass is left by [Next] only through the [try] block. *)
Lemma attempt_next_through (fenv : FixtureEnv) (sc : Script) (sr : option Script)
    (n : Z) :
  value_of (attempt fenv sc sr n) = Ok Next ->
  attempt fenv sc sr n
  = try_block (attempt_env fenv n) n (started sc sr (attempt_env fenv n)).
Proof.
  unfold attempt. cbv zeta. unfold try_except.
  set (a := attempt_env fenv n). set (d := started sc sr a).
  destruct (try_block a n d) as [[t d'] [fl|e]]; [reflexivity|].
  destruct (is_Exception fenv e); [|intros V; discriminate V].
  pose proof (proj1 (handler_never_next a n e d')) as H.
  destruct (handler a n e d') as [[t' d''] r].
  unfold value_of in *. simpl in *. intros V. contradiction.
Qed.

Lemma try_block_next_calm (a : AttemptEnv) (n : Z) (d : Daemon) :
  value_of (try_block a n d) = Ok Next ->
  Forall calm (trace_of (try_block a n d)) /\
  _process (state_of (try_block a n d)) = _process d.
Proof.
  unfold try_block, bind.
  pose proof (proj1 (wait_until_running_spec (first_wait a) (Some 10) d)) as T1.
  pose proof (proj2 (wait_keeps_running (first_wait a) (Some 10) d)) as P1.
  destruct (wait_until_running (first_wait a) (Some 10) d) as [[t1 d1] [[|]|e]];
    unfold value_of, state_of, trace_of in *; simpl in *.
  - intros _. rewrite app_nil_r. auto.
  - pose proof (proj1 (wait_until_running_spec (second_wait a) (Some 5) d1)) as T2.
    pose proof (proj2 (wait_keeps_running (second_wait a) (Some 5) d1)) as P2.
    destruct (wait_until_running (second_wait a) (Some 5) d1) as [[t2 d2] [[|]|e]];
      unfold value_of, state_of, trace_of in *; simpl in *.
    + intros _. rewrite app_nil_r. split; [apply Forall_app; auto|congruence].
    + destruct (terminate (terminate_unconfirmed a) d2) as [[t3 d3] [[]|e]];
        simpl; [|intros V; discriminate V].
      destruct (n >=? 3); simpl; intros V; discriminate V.
    + intros V; discriminate V.
  - intros V; discriminate V.
Qed.

(** A [terminate()] that returns has terminated the process of the object
    and cleared both flags. *)
Lemma terminate_ok_trace (env : Reaper.PsEnv) (d : Daemon) :
  value_of (terminate env d) = Ok tt ->
  In (Terminate ToDaemonProcess) (trace_of (terminate env d)).
Proof.
  unfold terminate, bind, get. simpl.
  destruct (_process d) as [pid|]; [|intros V; discriminate V].
  unfold Reaper.enumerate, try_except, perform, modify, emit, with_local, ret.
  destruct (Reaper.children_of env pid) as [kids|e]; simpl.
  - destruct (Reaper.reap env kids) as [[t l] [[]|e]];
      unfold value_of, trace_of; simpl; intros V; auto; discriminate V.
  - destruct (Reaper.is_NoSuchProcess e); simpl; [|intros V; discriminate V].
    destruct (Reaper.reap env []) as [[t l] [[]|e']];
      unfold value_of, trace_of; simpl; intros V; auto; discriminate V.
Qed.

Lemma try_block_continue (a : AttemptEnv) (n : Z) (d : Daemon) :
  value_of (try_block a n d) = Ok Continue ->
  _running (state_of (try_block a n d)) = false /\
  _connectable (state_of (try_block a n d)) = false /\
  In (Terminate ToDaemonProcess) (trace_of (try_block a n d)).
Proof.
  unfold try_block, bind.
  destruct (wait_until_running (first_wait a) (Some 10) d) as [[t1 d1] [[|]|e]];
    unfold value_of, state_of, trace_of in *; cbn [fst snd negb] in *;
    try (intros V; discriminate V).
  destruct (wait_until_running (second_wait a) (Some 5) d1) as [[t2 d2] [[|]|e]];
    unfold value_of, state_of, trace_of in *; cbn [fst snd negb] in *;
    try (intros V; discriminate V).
  pose proof (terminate_ok_clears (terminate_unconfirmed a) d2) as C.
  pose proof (terminate_ok_trace (terminate_unconfirmed a) d2) as T.
  destruct (terminate (terminate_unconfirmed a) d2) as [[t3 d3] [[]|e]];
    unfold value_of, state_of, trace_of in *; cbn [fst snd] in *;
    [|intros V; discriminate V].
  destruct (n >=? 3); cbn; intros V; [discriminate V|].
  rewrite (C eq_refl). split; [reflexivity|]. split; [reflexivity|].
  apply in_or_app. right. apply in_or_app. right. apply in_or_app. left.
  apply T. reflexivity.
Qed.

Lemma handler_continue (a : AttemptEnv) (n : Z) (e : exn) (d : Daemon) :
  value_of (handler a n e d) = Ok Continue ->
  _running (state_of (handler a n e d)) = false /\
  _connectable (state_of (handler a n e d)) = false /\
  In (Terminate ToDaemonProcess) (trace_of (handler a n e d)).
Proof.
  unfold handler, bind, emit.
  pose proof (terminate_ok_clears (terminate_in_handler a) d) as C.
  pose proof (terminate_ok_trace (terminate_in_handler a) d) as T.
  destruct (terminate (terminate_in_handler a) d) as [[t3 d3] [[]|e']];
    unfold value_of, state_of, trace_of in *; cbn [fst snd] in *;
    [|intros V; discriminate V].
  destruct (n >=? 3); cbn; intros V; [discriminate V|].
  rewrite (C eq_refl). split; [reflexivity|]. split; [reflexivity|].
  right. apply in_or_app. left. apply T. reflexivity.
Qed.

(** Every pass the retry loop abandons to try again has terminated its
    daemon: the object it leaves is neither alive nor connectable, and its
    process was sent [terminate()]. *)
Theorem abandoned_attempt_is_terminated
    (fenv : FixtureEnv) (sc : Script) (sr : option Script) (n : Z) :
  value_of (attempt fenv sc sr n) = Ok Continue ->
  is_alive (state_of (attempt fenv sc sr n)) = false /\
  _connectable (state_of (attempt fenv sc sr n)) = false /\
  In (Terminate ToDaemonProcess) (trace_of (attempt fenv sc sr n)).
Proof.
  unfold attempt, is_alive. cbv zeta. unfold try_except.
  set (a := attempt_env fenv n). set (d := started sc sr a).
  pose proof (try_block_continue a n d) as B.
  destruct (try_block a n d) as [[t d'] [fl|e]].
  - exact B.
  - destruct (is_Exception fenv e); [|intros V; discriminate V].
    pose proof (handler_continue a n e d') as H.
    destruct (handler a n e d') as [[t' d''] r].
    unfold value_of, state_of, trace_of in *. cbn [fst snd] in *.
    intros V. destruct (H V) as (R & C & T).
    split; [exact R|]. split; [exact C|]. apply in_or_app. right. exact T.
Qed.

Lemma abandoned_attempt_is_terminated_witness :
  is_alive (state_of (attempt never_up sshd_script None 1)) = false /\
  _connectable (state_of (attempt never_up sshd_script None 1)) = false /\
  In (Terminate ToDaemonProcess) (trace_of (attempt never_up sshd_script None 1)).
Proof.
  apply (abandoned_attempt_is_terminated never_up sshd_script None 1).
  vm_compute. reflexivity.
Defined.

Lemma retry_loop_yield (fenv : FixtureEnv) (sc : Script) (sr : option Script)
    (b : nat) (n : Z) (d : Daemon) (m : Z) :
  value_of (retry_loop fenv sc sr b n d) = Ok (Some m) ->
  n < m /\
  spawns (trace_of (retry_loop fenv sc sr b n d)) = Z.to_nat (m - n) /\
  value_of (attempt fenv sc sr m) = Ok Next /\
  state_of (retry_loop fenv sc sr b n d) = state_of (attempt fenv sc sr m).
Proof.
  revert n d. induction b as [|b IH]; intros n d.
  - simpl. destruct (n <=? 3); intros V; discriminate V.
  - destruct (Z.leb_spec n 3) as [Hn|Hn].
    + rewrite retry_loop_step by exact Hn.
      pose proof (spawnless_spawns _ (attempt_spawnless fenv sc sr (n + 1))) as Hs.
      specialize (IH (n + 1) (state_of (attempt fenv sc sr (n + 1)))).
      remember (attempt fenv sc sr (n + 1)) as A eqn:EA.
      destruct A as [[ta da] [[|]|e]];
        cbn [value_of trace_of state_of fst snd] in Hs, IH |- *.
      * intros V. injection V as <-. rewrite <- EA.
        cbn [value_of trace_of state_of fst snd app].
        rewrite spawns_started, spawns_app, Hs.
        change (spawns [Log (RunningAfter (n + 1))]) with 0%nat.
        replace (n + 1 - n) with 1 by lia.
        split; [lia|]. split; [reflexivity|]. split; reflexivity.
      * destruct (retry_loop fenv sc sr b (n + 1) da) as [[t' d'] r].
        cbn [value_of trace_of state_of fst snd app] in IH |- *.
        intros V. destruct (IH V) as (Hm & Sp & Va & St).
        rewrite spawns_started, spawns_app, Hs, Sp.
        split; [lia|]. split; [|split; [exact Va|exact St]].
        replace (m - n) with (Z.succ (m - (n + 1))) by lia.
        rewrite Z2Nat.inj_succ by lia. reflexivity.
      * intros V. discriminate V.
    + simpl retry_loop.
      assert (L : (n <=? 3) = false) by (apply Z.leb_gt; exact Hn).
      rewrite L. intros V. discriminate V.
Qed.

(** When a daemon fixture yields, the number it logs as the number of
    attempts is the number of processes it has started, and the object it
    yields is the one of that attempt, confirmed by one of its two waits. *)
Theorem fixture_yield_counts_processes
    (fenv : FixtureEnv) (sc : Script) (sr : option Script) (n : Z) :
  value_of (fixture_setup fenv sc sr) = Ok (Some n) ->
  spawns (trace_of (fixture_setup fenv sc sr)) = Z.to_nat n /\
  state_of (fixture_setup fenv sc sr) = state_of (attempt fenv sc sr n) /\
  confirms fenv sc sr n.
Proof.
  rewrite fixture_setup_unfold. cbn [value_of state_of trace_of fst snd].
  intros V.
  destruct (retry_loop_yield fenv sc sr 4 0 (new sc sr) n V) as (Hn & Sp & Va & St).
  change (Log StartingFixture :: ?t) with ([Log StartingFixture] ++ t).
  rewrite spawns_app. change (spawns [Log StartingFixture]) with 0%nat.
  unfold trace_of, state_of in *. rewrite Sp, Z.sub_0_r.
  split; [reflexivity|]. split; [exact St|].
  apply (attempt_next fenv sc sr n Va).
Qed.

Lemma fixture_yield_counts_processes_witness :
  spawns (trace_of (fixture_setup third_time_lucky sshd_script None)) = Z.to_nat 3 /\
  state_of (fixture_setup third_time_lucky sshd_script None)
    = state_of (attempt third_time_lucky sshd_script None 3) /\
  confirms third_time_lucky sshd_script None 3.
Proof.
  apply (fixture_yield_counts_processes third_time_lucky sshd_script None 3).
  vm_compute. reflexivity.
Defined.

Lemma calm_undisturbed (t : list event) :
  Forall calm t -> Forall (fun e => disturbs e = false) t.
Proof. apply Forall_impl. intros e [H _]. exact H. Qed.

(** A daemon that is confirmed at the first attempt is started once and,
    up to the [yield], neither signalled, killed nor terminated. *)
Theorem healthy_daemon_is_started_once
    (fenv : FixtureEnv) (sc : Script) (sr : option Script) :
  confirms fenv sc sr 1 ->
  value_of (fixture_setup fenv sc sr) = Ok (Some 1) /\
  spawns (trace_of (fixture_setup fenv sc sr)) = 1%nat /\
  Forall (fun e => disturbs e = false) (trace_of (fixture_setup fenv sc sr)).
Proof.
  intros C. pose proof (attempt_confirmed fenv sc sr 1 C) as A.
  pose proof (spawnless_spawns _ (attempt_spawnless fenv sc sr 1)) as Hs.
  pose proof (attempt_next_through fenv sc sr 1 A) as Th.
  pose proof (try_block_next_calm (attempt_env fenv 1) 1
                (started sc sr (attempt_env fenv 1))) as Tc.
  rewrite <- Th in Tc. destruct (Tc A) as [Calm _].
  rewrite fixture_setup_unfold. rewrite retry_loop_step by lia.
  change (0 + 1) with 1.
  destruct (attempt fenv sc sr 1) as [[ta da] ra].
  cbn [value_of trace_of state_of fst snd] in *. subst ra.
  cbn [value_of trace_of state_of fst snd app].
  split; [reflexivity|]. split.
  - change (Log StartingFixture :: Spawn :: AtExit :: ?t)
      with ([Log StartingFixture] ++ Spawn :: AtExit :: t).
    rewrite spawns_app, spawns_started, spawns_app, Hs. reflexivity.
  - constructor; [reflexivity|]. constructor; [reflexivity|].
    constructor; [reflexivity|]. apply Forall_app. split.
    + apply calm_undisturbed. exact Calm.
    + constructor; [reflexivity|constructor].
Qed.

Lemma healthy_daemon_is_started_once_witness :
  value_of (fixture_setup always_up sshd_script None) = Ok (Some 1) /\
  spawns (trace_of (fixture_setup always_up sshd_script None)) = 1%nat /\
  Forall (fun e => disturbs e = false)
    (trace_of (fixture_setup always_up sshd_script None)).
Proof.
  apply (healthy_daemon_is_started_once always_up sshd_script None).
  left. vm_compute. reflexivity.
Defined.

Lemma terminate_begins (env : Reaper.PsEnv) (d : Daemon) (p : Z) :
  _process d = Some p ->
  exists rest, trace_of (terminate env d) = Enumerate p :: rest.
Proof.
  intros Hp. unfold terminate, bind, get. simpl. rewrite Hp.
  unfold Reaper.enumerate, try_except, perform, modify, emit, with_local, ret.
  destruct (Reaper.children_of env p) as [kids|e]; simpl.
  - destruct (Reaper.reap env kids) as [[t l] [[]|e]];
      unfold trace_of; simpl; eexists; reflexivity.
  - destruct (Reaper.is_NoSuchProcess e); simpl;
      [|unfold trace_of; simpl; eexists; reflexivity].
    destruct (Reaper.reap env []) as [[t l] [[]|e']];
      unfold trace_of; simpl; eexists; reflexivity.
Qed.

(** The teardown of a fixture that yielded at attempt [n] turns to the
    process started in that attempt; when its [terminate()] returns, that
    process was terminated and the object is neither alive nor
    connectable. *)
Theorem teardown_stops_the_yielded_daemon
    (fenv : FixtureEnv) (sc : Script) (sr : option Script) (n : Z) :
  value_of (fixture_setup fenv sc sr) = Ok (Some n) ->
  (exists rest,
     trace_of (fixture_teardown fenv (state_of (fixture_setup fenv sc sr)))
     = Log StoppingFixture :: Enumerate (pid (attempt_env fenv n)) :: rest) /\
  (value_of (fixture_teardown fenv (state_of (fixture_setup fenv sc sr))) = Ok tt ->
   is_alive (state_of (fixture_teardown fenv (state_of (fixture_setup fenv sc sr))))
     = false /\
   _connectable (state_of (fixture_teardown fenv (state_of (fixture_setup fenv sc sr))))
     = false /\
   In (Terminate ToDaemonProcess)
     (trace_of (fixture_teardown fenv (state_of (fixture_setup fenv sc sr))))).
Proof.
  intros V.
  assert (Hp : _process (state_of (fixture_setup fenv sc sr))
               = Some (pid (attempt_env fenv n))).
  { rewrite fixture_setup_unfold in V |- *.
    cbn [value_of state_of trace_of fst snd] in V |- *.
    destruct (retry_loop_yield fenv sc sr 4 0 (new sc sr) n V) as (_ & _ & Va & St).
    rewrite St, (attempt_next_through fenv sc sr n Va).
    rewrite (attempt_next_through fenv sc sr n Va) in Va.
    rewrite (proj2 (try_block_next_calm _ _ _ Va)). reflexivity. }
  generalize dependent (state_of (fixture_setup fenv sc sr)). intros d Hp.
  destruct (terminate_begins (teardown_env fenv) d _ Hp) as [rest Tr].
  pose proof (terminate_ok_clears (teardown_env fenv) d) as C.
  pose proof (terminate_ok_trace (teardown_env fenv) d) as T.
  unfold fixture_teardown, bind, emit, is_alive.
  destruct (terminate (teardown_env fenv) d) as [[t d'] [[]|e]];
    unfold value_of, state_of, trace_of in *; cbn [fst snd app] in *; subst t.
  - split; [eexists; reflexivity|]. intros _. rewrite (C eq_refl).
    split; [reflexivity|]. split; [reflexivity|].
    right. apply in_or_app. left. apply T. reflexivity.
  - split; [eexists; reflexivity|]. intros H. discriminate H.
Qed.

Lemma teardown_stops_the_yielded_daemon_witness :
  (exists rest,
     trace_of (fixture_teardown third_time_lucky
                 (state_of (fixture_setup third_time_lucky sshd_script None)))
     = Log StoppingFixture
         :: Enumerate (pid (attempt_env third_time_lucky 3)) :: rest) /\
  (value_of (fixture_teardown third_time_lucky
               (state_of (fixture_setup third_time_lucky sshd_script None))) = Ok tt ->
   is_alive (state_of (fixture_teardown third_time_lucky
               (state_of (fixture_setup third_time_lucky sshd_script None)))) = false /\
   _connectable (state_of (fixture_teardown third_time_lucky
               (state_of (fixture_setup third_time_lucky sshd_script None)))) = false /\
   In (Terminate ToDaemonProcess)
     (trace_of (fixture_teardown third_time_lucky
                  (state_of (fixture_setup third_time_lucky sshd_script None))))).
Proof.
  apply (teardown_stops_the_yielded_daemon third_time_lucky sshd_script None 3).
  vm_compute. reflexivity.
Defined.








Import Eff Py Shell Scripts TerminalM Daemon Runner Samples MoreSamples Observations.

(** ** Running a script to its end *)

Lemma append_empty_r (s : string) : (s ++ "")%string = s.
Proof. induction s as [|c s IH]; simpl; [reflexivity|rewrite IH; reflexivity]. Qed.

Lemma append_assoc' (a b c : string) :
  ((a ++ b) ++ c)%string = (a ++ (b ++ c))%string.
Proof. induction a as [|x a IH]; simpl; [reflexivity|rewrite IH; reflexivity]. Qed.

Lemma append_chunk_acc (acc : string) (c : chunk) :
  append_chunk acc c = (acc ++ append_chunk "" c)%string.
Proof. destruct c; simpl; rewrite ?append_empty_r; reflexivity. Qed.

Lemma drain_step (env : RunEnv) (expire : Z) (f : nat) (st : Drain) :
  drain env expire (S f) st =
  let st1 := mkDrain (append_chunk (out_acc st) (recv env (passes st)))
                     (append_chunk (err_acc st) (recv_err env (passes st)))
                     (S (passes st)) in
  if is_no_data (recv env (passes st)) && is_no_data (recv_err env (passes st))
  then ([Moment], st1, Ok (Some false))
  else if expire <? clock env (passes st)
  then ([Moment], st1, Ok (Some true))
  else let r := drain env expire f st1 in
       (Moment :: trace_of r, state_of r, value_of r).
Proof.
  simpl drain. unfold bind, emit, get, put, ret. cbn [fst snd app].
  destruct (is_no_data (recv env (passes st)) && is_no_data (recv_err env (passes st)));
    [reflexivity|].
  destruct (expire <? clock env (passes st)); [reflexivity|].
  destruct (drain env expire f _) as [[t s] r]. reflexivity.
Qed.

(** The passes in which something was read and the deadline had not
    passed: the loop goes on, with what was read accumulated. *)
Lemma drain_skip (env : RunEnv) (expire : Z) (k fuel : nat) (st : Drain) :
  (forall i, (i < k)%nat ->
     is_no_data (recv env (passes st + i)) && is_no_data (recv_err env (passes st + i))
       = false /\
     (expire <? clock env (passes st + i)) = false) ->
  let st' := mkDrain (out_acc st ++ collected (recv env) (passes st) k)%string
                     (err_acc st ++ collected (recv_err env) (passes st) k)%string
                     (passes st + k) in
  drain env expire (k + fuel) st =
  (repeat Moment k ++ trace_of (drain env expire fuel st'),
   state_of (drain env expire fuel st'), value_of (drain env expire fuel st')).
Proof.
  revert st. induction k as [|k IH]; intros st H; cbv zeta.
  - simpl. rewrite !append_empty_r, Nat.add_0_r.
    destruct st as [o e p]. simpl.
    destruct (drain env expire fuel _) as [[t s] r]. reflexivity.
  - change (S k + fuel)%nat with (S (k + fuel)). rewrite drain_step. cbv zeta.
    destruct (H O ltac:(lia)) as [H1 H2]. rewrite Nat.add_0_r in H1, H2.
    rewrite H1, H2.
    set (st1 := mkDrain (append_chunk (out_acc st) (recv env (passes st)))
                        (append_chunk (err_acc st) (recv_err env (passes st)))
                        (S (passes st))).
    assert (H' : forall i, (i < k)%nat ->
       is_no_data (recv env (passes st1 + i)) && is_no_data (recv_err env (passes st1 + i))
         = false /\
       (expire <? clock env (passes st1 + i)) = false).
    { intros i Hi. specialize (H (S i) ltac:(lia)).
      rewrite Nat.add_succ_r in H. exact H. }
    rewrite (IH st1 H'). cbv zeta. unfold st1. cbn [out_acc err_acc passes].
    cbn [collected].
    rewrite (append_chunk_acc (out_acc st)), (append_chunk_acc (err_acc st)).
    rewrite !append_assoc'. rewrite Nat.add_succ_r.
    destruct (drain env expire fuel _) as [[t s] r]. reflexivity.
Qed.

Lemma _run_script_left (env : RunEnv) (timeout : Z) (fuel : nat)
    (t : list event) (st : Drain) (timedout : bool) :
  drain env (started_at env + timeout) fuel (mkDrain "" "" O)
    = (t, st, Ok (Some timedout)) ->
  _run_script env timeout fuel tt =
  let c := close_terminal (terminal env) O in
  match value_of c with
  | Raise e => (Log RunningScript :: t ++ trace_of c, tt, Raise e)
  | Ok _ =>
      if timedout
      then (Log RunningScript :: t ++ trace_of c, tt, Raise TimeoutError)
      else
        let o := Runner.process_output (loads env) (out_acc st) (err_acc st) tt in
        match value_of o with
        | Ok (out, err, j) =>
            (Log RunningScript :: t ++ trace_of c ++ trace_of o ++ [Moment], tt,
             Ok (Some (mkShellResult (returncode env) out err j)))
        | Raise e => (Log RunningScript :: t ++ trace_of c ++ trace_of o, tt, Raise e)
        end
  end.
Proof.
  intros D. unfold _run_script. cbv zeta. unfold bind at 1, emit.
  unfold bind at 1, with_local at 1. rewrite D. cbn [fst snd].
  unfold bind at 1, with_local.
  destruct (close_terminal (terminal env) O) as [[tc sc] [[]|e]];
    unfold value_of, trace_of; cbn [fst snd app]; [|reflexivity].
  destruct timedout.
  - unfold raise. rewrite app_nil_r. reflexivity.
  - unfold bind.
    destruct (Runner.process_output (loads env) (out_acc st) (err_acc st) tt)
      as [[to so] [[[out err] j]|e]]; cbn [fst snd]; destruct so.
    + unfold emit, ret. cbn [fst snd app]. rewrite ?app_nil_r. reflexivity.
    + reflexivity.
Qed.

Lemma run_of_script (env : RunEnv) (timeout : Z) (fuel : nat) :
  trace_of (run env timeout fuel tt) = trace_of (_run_script env timeout fuel tt) /\
  value_of (run env timeout fuel tt)
  = match value_of (_run_script env timeout fuel tt) with
    | Raise e => if is_TimeoutError e then Raise XFailed else Raise e
    | v => v
    end.
Proof.
  unfold run, try_except.
  destruct (_run_script env timeout fuel tt) as [[t s] [r|e]];
    unfold value_of, trace_of; cbn [fst snd]; [split; reflexivity|].
  destruct (is_TimeoutError e); unfold raise; cbn [fst snd];
    rewrite ?app_nil_r; split; reflexivity.
Qed.

(** A script that is still writing when the deadline passes, in the pass
    numbered [k], is given up in that pass: the terminal is closed first,
    and [run] then turns the timeout into [pytest.xfail]. *)
Theorem timed_out_script_is_closed_then_xfailed
    (env : RunEnv) (timeout : Z) (k fuel : nat) :
  (forall i, (i <= k)%nat ->
     is_no_data (recv env i) && is_no_data (recv_err env i) = false) ->
  (forall i, (i < k)%nat -> clock env i <= started_at env + timeout) ->
  started_at env + timeout < clock env k ->
  (k < fuel)%nat ->
  trace_of (run env timeout fuel tt)
  = Log RunningScript :: repeat Moment (S k)
      ++ trace_of (close_terminal (terminal env) O) /\
  (value_of (close_terminal (terminal env) O) = Ok tt ->
   value_of (run env timeout fuel tt) = Raise XFailed).
Proof.
  intros Hd Hc Hk Hf.
  set (expire := started_at env + timeout) in *.
  assert (D : exists st,
    drain env expire fuel (mkDrain "" "" O)
    = (repeat Moment (S k), st, Ok (Some true))).
  { replace fuel with (k + S (fuel - S k))%nat by lia.
    rewrite drain_skip.
    2:{ intros i Hi. cbn [passes Nat.add]. split; [apply Hd; lia|].
        apply Z.ltb_ge. apply Hc. exact Hi. }
    cbv zeta. cbn [passes out_acc err_acc Nat.add]. rewrite drain_step. cbv zeta.
    cbn [passes]. rewrite (Hd k (Nat.le_refl k)).
    assert (L : (expire <? clock env k) = true) by (apply Z.ltb_lt; exact Hk).
    rewrite L. unfold trace_of, state_of, value_of. cbn [fst snd].
    eexists. f_equal. f_equal.
    change (S k) with (1 + k)%nat. rewrite Nat.add_comm, repeat_app. reflexivity. }
  destruct D as [st D].
  destruct (run_of_script env timeout fuel) as [Tr Va]. rewrite Tr, Va.
  rewrite (_run_script_left env timeout fuel _ st true D). cbv zeta.
  destruct (value_of (close_terminal (terminal env) O)) as [[]|e];
    unfold trace_of at 1, value_of at 1; cbn [fst snd is_TimeoutError].
  - split; [reflexivity|intros _; reflexivity].
  - split; [reflexivity|intros H; discriminate H].
Qed.

Lemma timed_out_script_is_closed_then_xfailed_witness :
  trace_of (run chatty_env 2 10 tt)
  = Log RunningScript :: repeat Moment 4
      ++ trace_of (close_terminal (terminal chatty_env) O) /\
  (value_of (close_terminal (terminal chatty_env) O) = Ok tt ->
   value_of (run chatty_env 2 10 tt) = Raise XFailed).
Proof.
  apply (timed_out_script_is_closed_then_xfailed chatty_env 2 3 10).
  - intros i Hi. reflexivity.
  - intros i Hi. simpl. lia.
  - simpl. lia.
  - lia.
Defined.



Lemma drain_needs_end_of_output (env : RunEnv) (expire : Z) (fuel : nat) (st : Drain) :
  (forall i, recv env i <> NoData) ->
  value_of (drain env expire fuel st) <> Ok (Some false).
Proof.
  intros H. revert st. induction fuel as [|f IH]; intros st.
  - simpl. discriminate.
  - rewrite drain_step. cbv zeta. specialize (H (passes st)).
    destruct (recv env (passes st)); [contradiction H; reflexivity| |];
      cbn [is_no_data andb];
      (destruct (expire <? clock env (passes st)); [discriminate|apply IH]).
Qed.

(** The loop takes an [IOError] of a read for an empty read, not for the
    end of the output: a script whose standard output never reads as
    [None] (it gives data or fails) never gets a result from [run],
    whatever its standard error does; the run can only end in an exception. *)
Theorem run_needs_end_of_output
    (env : RunEnv) (timeout : Z) (fuel : nat) (r : ShellResult) :
  (forall i, recv env i <> NoData) ->
  value_of (run env timeout fuel tt) <> Ok (Some r).
Proof.
  intros H. destruct (run_of_script env timeout fuel) as [_ Va]. rewrite Va.
  pose proof (drain_needs_end_of_output env (started_at env + timeout) fuel
                (mkDrain "" "" O) H) as D.
  destruct (drain env (started_at env + timeout) fuel (mkDrain "" "" O))
    as [[t st] [[[|]|]|e]] eqn:E.
  - rewrite (_run_script_left env timeout fuel t st true E). cbv zeta.
    destruct (value_of (close_terminal (terminal env) O)) as [[]|e];
      unfold value_of at 1; cbn [snd]; [discriminate|].
    destruct (is_TimeoutError e); discriminate.
  - contradiction D. reflexivity.
  - unfold _run_script. cbv zeta. unfold bind, emit, with_local. rewrite E.
    unfold value_of. cbn. discriminate.
  - unfold _run_script. cbv zeta. unfold bind, emit, with_local. rewrite E.
    unfold value_of. cbn. destruct (is_TimeoutError e); discriminate.
Qed.

Lemma run_needs_end_of_output_witness :
  value_of (run chatty_env 2 10 tt) <> Ok (Some (mkShellResult 1 "xxxx" "" VNone)).
Proof.
  apply (run_needs_end_of_output chatty_env 2 10).
  intros i. discriminate.
Defined.

Lemma drain_leaves (env : RunEnv) (expire : Z) (k fuel : nat) (st : Drain) :
  expire < clock env (passes st + k) -> (k < fuel)%nat ->
  value_of (drain env expire fuel st) <> Ok None.
Proof.
  revert fuel st. induction k as [|k IH]; intros fuel st Hk Hf;
    (destruct fuel as [|f]; [lia|]); rewrite drain_step; cbv zeta;
    destruct (is_no_data (recv env (passes st)) && is_no_data (recv_err env (passes st)));
    try discriminate;
    destruct (expire <? clock env (passes st)) eqn:L; try discriminate.
  - rewrite Nat.add_0_r in Hk. apply Z.ltb_ge in L. lia.
  - unfold value_of at 1. cbn [snd]. apply IH; [|lia].
    cbn [passes]. rewrite Nat.add_succ_r in Hk. exact Hk.
Qed.

Lemma drain_never_raises (env : RunEnv) (expire : Z) (fuel : nat) (st : Drain) :
  exists v, value_of (drain env expire fuel st) = Ok v.
Proof.
  revert st. induction fuel as [|f IH]; intros st.
  - eexists. reflexivity.
  - rewrite drain_step. cbv zeta.
    destruct (is_no_data (recv env (passes st)) && is_no_data (recv_err env (passes st)));
      [eexists; reflexivity|].
    destruct (expire <? clock env (passes st)); [eexists; reflexivity|].
    apply IH.
Qed.

Lemma bind_trace_head {S A B : Type} (m : M S A) (k : A -> M S B) (s : S)
    (e : event) (rest : list event) :
  trace_of (m s) = e :: rest ->
  exists rest', trace_of (bind m k s) = e :: rest'.
Proof.
  unfold bind, trace_of. destruct (m s) as [[t s'] [a|x]]; cbn [fst snd].
  - intros ->. destruct (k a s') as [[t' s''] r]. cbn [fst snd app].
    eexists. reflexivity.
  - intros ->. eexists. reflexivity.
Qed.

Lemma close_terminal_begins_with_poll (t : Terminal) (n : nat) :
  exists rest, trace_of (close_terminal t n) = Poll :: rest.
Proof.
  unfold close_terminal.
  eapply bind_trace_head. reflexivity.
Qed.

(** [run] cannot go on for ever once the clock passes the deadline: if
    [time.time()] is beyond it in the pass numbered [k], the loop has been
    left by then, with a result or an exception, and the shutdown of the
    terminal was begun in either case. *)
Theorem run_ends_once_the_deadline_has_passed
    (env : RunEnv) (timeout : Z) (k fuel : nat) :
  started_at env + timeout < clock env k -> (k < fuel)%nat ->
  value_of (run env timeout fuel tt) <> Ok None /\
  In Poll (trace_of (run env timeout fuel tt)).
Proof.
  intros Hk Hf.
  pose proof (drain_leaves env (started_at env + timeout) k fuel (mkDrain "" "" O)
                Hk Hf) as D.
  destruct (drain_never_raises env (started_at env + timeout) fuel (mkDrain "" "" O))
    as [v V].
  destruct (close_terminal_begins_with_poll (terminal env) O) as [rest C].
  destruct (run_of_script env timeout fuel) as [Tr Va]. rewrite Tr, Va.
  destruct (drain env (started_at env + timeout) fuel (mkDrain "" "" O))
    as [[t st] r] eqn:E.
  unfold value_of in V, D. cbn [snd] in V, D. subst r.
  destruct v as [b|]; [|contradiction D; reflexivity].
  rewrite (_run_script_left env timeout fuel t st b E). cbv zeta. rewrite C.
  destruct (value_of (close_terminal (terminal env) O)) as [[]|e].
  - destruct b.
    + unfold value_of at 1, trace_of at 1. cbn [fst snd is_TimeoutError].
      split; [discriminate|]. right. apply in_or_app. right. left. reflexivity.
    + destruct (value_of (Runner.process_output _ _ _ _)) as [[[o e'] j]|e'];
        unfold value_of at 1, trace_of at 1; cbn [fst snd].
      * split; [discriminate|]. right. apply in_or_app. right. left. reflexivity.
      * split; [destruct (is_TimeoutError e'); discriminate|].
        right. apply in_or_app. right. left. reflexivity.
  - unfold value_of at 1, trace_of at 1. cbn [fst snd].
    split; [destruct (is_TimeoutError e); discriminate|].
    right. apply in_or_app. right. left. reflexivity.
Qed.

Lemma run_ends_once_the_deadline_has_passed_witness :
  value_of (run chatty_env 2 4 tt) <> Ok None /\
  In Poll (trace_of (run chatty_env 2 4 tt)).
Proof.
  apply (run_ends_once_the_deadline_has_passed chatty_env 2 3 4).
  - simpl. lia.
  - lia.
Defined.

(** [SaltSSH.process_output] gives a payload only for a payload of the
    base class that is falsy, which it passes on, or that is a dictionary
    with the key ['localhost'], whose value it gives; any other payload,
    such as a non-empty list or a dictionary of other hosts, raises. *)
Theorem ssh_payload_needs_localhost (json_out v : value) :
  ssh_payload json_out = inl v <->
  (truthy json_out = false /\ v = json_out) \/
  (exists d, json_out = VDict d /\ d <> [] /\ lookup "localhost" d = Some v).
Proof.
  unfold ssh_payload, subscript. split.
  - destruct (truthy json_out) eqn:T.
    + destruct json_out as [| | | | |d]; try discriminate.
      destruct (lookup "localhost" d) as [x|] eqn:L; [|discriminate].
      intros H. injection H as <-. right. exists d.
      split; [reflexivity|]. split; [|exact L].
      intros ->. discriminate L.
    + intros H. injection H as <-. left. auto.
  - intros [[T ->]|(d & -> & Hd & L)].
    + rewrite T. reflexivity.
    + assert (T : truthy (VDict d) = true) by (destruct d; [contradiction|reflexivity]).
      rewrite T, L. reflexivity.
Qed.

Lemma ssh_payload_needs_localhost_witness :
  ssh_payload (VDict [("localhost", VInt 7)]) = inl (VInt 7).
Proof.
  apply (proj2 (ssh_payload_needs_localhost (VDict [("localhost", VInt 7)]) (VInt 7))).
  right. exists [("localhost", VInt 7)].
  split; [reflexivity|]. split; [discriminate|reflexivity].
Defined.
